(** * CalmaWebsite: touch enhancements and GSAP animation set-up

    A shallow embedding of [src/js/touch-enhancements.js] and
    [src/js/gsap-optimizations.js].

    - The browser is an environment: a [document] answers selector queries,
      a [dom] holds what the scripts mutate (class lists, attributes, inline
      styles, expando properties, the child lists the ripple is appended to).
    - Event handlers are functions over the variables of the closure that
      owns them; what a handler asks of the outside world (synthetic clicks,
      listeners, console output, library calls) is recorded in a trace of
      [effect]s, oldest first.
    - Touch coordinates and clock readings are integers ([Z]); the one
      division whose divisor can be zero (the swipe velocity) goes through
      [Js.number], which keeps JavaScript's [Infinity] and [NaN]; the ripple
      geometry, which halves a length, is over [Q]. *)

From Stdlib Require Import ZArith QArith Qabs Qminmax Lia List String Bool.
From stdpp Require Import base gmap strings list.
Import ListNotations.

Close Scope Q_scope.
Open Scope string_scope.
Open Scope list_scope.
Open Scope Z_scope.

(** ** JavaScript numbers, as far as the scripts need them *)

Module Js.

(** The result of a JavaScript division: a finite quotient, an infinity or
    NaN. Finite values are kept exact. *)
Inductive number : Type :=
| NaN
| PosInf
| NegInf
| Fin (q : Q).

(** [a / b] for integer-valued operands, the divisor being [+0] when it is
    zero (it is a difference of two integers here). *)
Definition div (a b : Z) : number :=
  if b =? 0 then
    if a =? 0 then NaN else if 0 <? a then PosInf else NegInf
  else Fin (inject_Z a / inject_Z b)%Q.

(** [x > c]; every comparison with NaN is false. *)
Definition gt (x : number) (c : Q) : bool :=
  match x with
  | NaN => false
  | PosInf => true
  | NegInf => false
  | Fin q => negb (Qle_bool q c)
  end.

(** Truthiness of a numeric variable: [!x] holds exactly for [0]. *)
Definition truthy (x : Z) : bool := negb (x =? 0).

(** [p || d] where [p] is a numeric property that may be undefined. *)
Definition or_default (p : option Z) (d : Z) : Z :=
  match p with
  | Some v => if truthy v then v else d
  | None => d
  end.

End Js.

(** ** The page *)

Definition node := nat.

(** What the scripts read from the page and do not change: the answers of
    the selector engine, in document order. *)
Record document : Type := {
  querySelectorAll : string -> list node;
  (** [element.querySelectorAll(selector)] *)
  querySelectorAllIn : node -> string -> list node;
  doc_body : node;
  doc_head : node
}.

(** [querySelector] is the first match, or [null]. *)
Definition querySelector (d : document) (sel : string) : option node :=
  head (querySelectorAll d sel).

Definition querySelectorIn (d : document) (n : node) (sel : string) : option node :=
  head (querySelectorAllIn d n sel).

(** An inline style value: text, or a length in pixels. *)
Inductive cssval : Type :=
| CssText (s : string)
| CssPx (q : Q).

(** What the scripts mutate. *)
Record dom : Type := {
  classes : gset (node * string);
  attrs : gmap (node * string) string;
  styles : gmap (node * string) cssval;
  (** numeric expando properties set on DOM objects *)
  props : gmap (node * string) Z;
  textContent : gmap node string;
  parentNode : gmap node node;
  childNodes : gmap node (list node);
  (** the next node [document.createElement] hands out *)
  nextNode : node
}.

Definition with_classes (c : gset (node * string)) (s : dom) : dom :=
  {| classes := c; attrs := attrs s; styles := styles s; props := props s;
     textContent := textContent s; parentNode := parentNode s;
     childNodes := childNodes s; nextNode := nextNode s |}.

Definition with_attrs (a : gmap (node * string) string) (s : dom) : dom :=
  {| classes := classes s; attrs := a; styles := styles s; props := props s;
     textContent := textContent s; parentNode := parentNode s;
     childNodes := childNodes s; nextNode := nextNode s |}.

Definition with_styles (st : gmap (node * string) cssval) (s : dom) : dom :=
  {| classes := classes s; attrs := attrs s; styles := st; props := props s;
     textContent := textContent s; parentNode := parentNode s;
     childNodes := childNodes s; nextNode := nextNode s |}.

Definition with_text (t : gmap node string) (s : dom) : dom :=
  {| classes := classes s; attrs := attrs s; styles := styles s; props := props s;
     textContent := t; parentNode := parentNode s;
     childNodes := childNodes s; nextNode := nextNode s |}.

Definition with_tree (p : gmap node node) (c : gmap node (list node)) (s : dom) : dom :=
  {| classes := classes s; attrs := attrs s; styles := styles s; props := props s;
     textContent := textContent s; parentNode := p; childNodes := c;
     nextNode := nextNode s |}.

Definition empty_dom : dom :=
  {| classes := ∅; attrs := ∅; styles := ∅; props := ∅; textContent := ∅;
     parentNode := ∅; childNodes := ∅; nextNode := 0%nat |}.

Definition classList_contains (s : dom) (n : node) (c : string) : bool :=
  bool_decide ((n, c) ∈ classes s).

Definition classList_add (n : node) (c : string) (s : dom) : dom :=
  with_classes ({[ (n, c) ]} ∪ classes s) s.

Definition classList_remove (n : node) (c : string) (s : dom) : dom :=
  with_classes (classes s ∖ {[ (n, c) ]}) s.

Definition getAttribute (s : dom) (n : node) (k : string) : option string :=
  attrs s !! (n, k).

(** [element.getAttribute(k) === v] *)
Definition attribute_is (s : dom) (n : node) (k v : string) : bool :=
  bool_decide (getAttribute s n k = Some v).

Definition setAttribute (n : node) (k v : string) (s : dom) : dom :=
  with_attrs (<[ (n, k) := v ]> (attrs s)) s.

Definition removeAttribute (n : node) (k : string) (s : dom) : dom :=
  with_attrs (delete (n, k) (attrs s)) s.

Definition setStyle (n : node) (k : string) (v : cssval) (s : dom) : dom :=
  with_styles (<[ (n, k) := v ]> (styles s)) s.

Definition children (s : dom) (n : node) : list node :=
  default [] (childNodes s !! n).

(** [document.createElement]: a node that is in no tree yet. *)
Definition createElement (s : dom) : node * dom :=
  (nextNode s,
   {| classes := classes s; attrs := attrs s; styles := styles s; props := props s;
      textContent := textContent s; parentNode := parentNode s;
      childNodes := childNodes s; nextNode := S (nextNode s) |}).

(** Unlink [c] from the child list of [p]. *)
Definition detach (p c : node) (s : dom) : dom :=
  with_tree (delete c (parentNode s))
            (<[ p := List.filter (fun x => negb (Nat.eqb x c)) (children s p) ]> (childNodes s))
            s.

(** [p.appendChild(c)]: a node that sits in a tree is moved. *)
Definition appendChild (p c : node) (s : dom) : dom :=
  let s1 := match parentNode s !! c with
            | Some q => detach q c s
            | None => s
            end in
  with_tree (<[ c := p ]> (parentNode s1))
            (<[ p := children s1 p ++ [c] ]> (childNodes s1))
            s1.

Inductive exn : Type :=
| TypeError (msg : string)
| ReferenceError (msg : string)
| NotFoundError.

(** [p.removeChild(c)] throws when [c] is not a child of [p]. *)
Definition removeChild (p c : node) (s : dom) : exn + dom :=
  if bool_decide (parentNode s !! c = Some p) then inr (detach p c s)
  else inl NotFoundError.

(** The closures the scripts register as listeners or callbacks. *)
Inductive handler : Type :=
| RippleTouchStart (el : node)
| PressTouchStart (el : node)
| PressTouchEnd (el : node)
| PressTouchCancel (el : node)
| MenuTouchStart
| MenuTouchMove
| MenuTouchEnd
| ImageTouchStart (el : node)
| ImageTouchMove (el : node)
| ImageTouchEnd (el : node)
| SliderTouchStart (el : node)
| SliderTouchMove (el : node)
| SliderTouchEnd (el : node)
| MenuButtonHaptic
| MenuStyleObserver (menu : node)
| InputFocusFont (el : node)
| InputTouchFocus (el : node)
| AnchorClick (el : node)
| ScrollListener
| UpdateScrollPosition
| RemoveRipple (ripple : node)
| OnDomContentLoaded.

(** What a variable of the animation script can hold: [null], an element,
    or the [NodeList] of a [querySelectorAll]. *)
Inductive jsval : Type :=
| VNull
| VElement (n : node)
| VNodeList (l : list node).

(** A tween's property bag, as written in the source. *)
Definition vars : Type := list (string * string).

(** The [trigger] of a scroll trigger: an element or a selector string. *)
Inductive trigger_ref : Type :=
| TriggerNode (n : node)
| TriggerSelector (sel : string).

Record scrollTrigger : Type := {
  st_trigger : trigger_ref;
  st_start : string;
  st_toggleActions : option string;
  st_once : bool
}.

Inductive target : Type :=
| OnWindow
| OnDocument
| OnNode (n : node).

(** What a run asks of the world outside the script. *)
Inductive effect : Type :=
| Call (f : string)
| Click (n : node)
| PreventDefault
| AddEventListener (t : target) (type : string) (h : handler) (passive : bool)
| Observe (n : node) (h : handler)
| SetTimeout (h : handler) (ms : Z)
| RequestAnimationFrame (h : handler)
| GsapRegisterPlugin
| GsapDefaults (v : vars)
| GsapFromTo (targets : list node) (fromVars toVars : vars) (st : scrollTrigger)
| GsapFrom (targets : list node) (v : vars) (st : scrollTrigger)
| GsapTimeline (st : scrollTrigger)
| TimelineFrom (tgt : jsval) (v : vars) (position : option string)
| NewSplitType (el : node)
| ScrollTriggerRefresh
| DefineGlobal (name : string)
| ConsoleLog (msg : string)
| ConsoleWarn (msg : string).

Definition is_call (f : string) (e : effect) : bool :=
  match e with
  | Call g => String.eqb f g
  | _ => false
  end.

Definition is_click (e : effect) : bool :=
  match e with
  | Click _ => true
  | _ => false
  end.

(** How often the closure [f] was entered during a run. *)
Definition calls (f : string) (tr : list effect) : nat :=
  List.length (List.filter (is_call f) tr).

Definition clicks (tr : list effect) : list effect := List.filter is_click tr.

(** ** Running a script: state, trace and exceptions

    A computation transforms the [dom], appends to the trace and either
    returns or throws; what was done before a throw stays done. *)

Record outcome (A : Type) : Type := Outcome {
  o_dom : dom;
  o_trace : list effect;
  o_val : exn + A
}.
Arguments Outcome {A} _ _ _.
Arguments o_dom {A} _.
Arguments o_trace {A} _.
Arguments o_val {A} _.

Definition M (A : Type) : Type := dom -> outcome A.

Definition ret {A : Type} (a : A) : M A :=
  fun s => Outcome s [] (inr a).

Definition bind {A B : Type} (m : M A) (k : A -> M B) : M B :=
  fun s =>
    let r := m s in
    match o_val r with
    | inl e => Outcome (o_dom r) (o_trace r) (inl e)
    | inr a =>
        let r' := k a (o_dom r) in
        Outcome (o_dom r') (o_trace r ++ o_trace r') (o_val r')
    end.

Definition emit (e : effect) : M unit :=
  fun s => Outcome s [e] (inr tt).

Definition throw {A : Type} (e : exn) : M A :=
  fun s => Outcome s [] (inl e).

Definition modify (f : dom -> dom) : M unit :=
  fun s => Outcome (f s) [] (inr tt).

Definition gets {A : Type} (f : dom -> A) : M A :=
  fun s => Outcome s [] (inr (f s)).

Declare Scope js_scope.
Delimit Scope js_scope with js.
Notation "x <- c1 ;; c2" := (bind c1 (fun x => c2))
  (at level 100, c1 at next level, right associativity) : js_scope.
Notation "c1 ;; c2" := (bind c1 (fun _ => c2))
  (at level 100, right associativity) : js_scope.

(** [list.forEach(f)]; a throw in [f] ends the loop. *)
Fixpoint forEach {B : Type} (l : list B) (f : B -> M unit) : M unit :=
  match l with
  | [] => ret tt
  | x :: l' => bind (f x) (fun _ => forEach l' f)
  end.

(** [if (c) body] *)
Definition when (c : bool) (body : M unit) : M unit :=
  if c then body else ret tt.

Definition returned {A : Type} (r : outcome A) : bool :=
  match o_val r with
  | inr _ => true
  | inl _ => false
  end.

(** A computation that cannot throw. *)
Definition returns {A : Type} (m : M A) : Prop :=
  forall s, returned (m s) = true.

(** A computation that leaves no trace and can throw nothing but [e]. *)
Definition quiet (e : exn) (m : M unit) : Prop :=
  forall s, o_trace (m s) = [] /\ (o_val (m s) = inr tt \/ o_val (m s) = inl e).

(** Every effect of a run satisfies [P] and the page it leaves is related
    to the page it found by [R]; this holds for a run that throws, too. *)
Definition run_spec {A : Type} (P : effect -> Prop) (R : dom -> dom -> Prop) (m : M A)
  : Prop :=
  forall s, Forall P (o_trace (m s)) /\ R s (o_dom (m s)).

(** ** touch-enhancements.js *)

Module Touch.

(** *** closeMobileMenu *)

Definition closeMobileMenu (d : document) (s : dom) : list effect :=
  Call "closeMobileMenu" ::
  match querySelector d ".w-nav-button" with
  | Some menuButton =>
      if classList_contains s menuButton "w--open"
      then [Click menuButton]
      else []
  | None => []
  end.

(** *** Swipe to close on the mobile menu

    The tracking variables are the module-level [let]s; [touchEndY] is
    declared and never assigned. *)

Record menu_vars : Type := {
  touchStartX : Z;
  touchStartY : Z;
  touchEndX : Z;
  touchEndY : Z;
  isScrolling : bool
}.

Definition menu_initial : menu_vars :=
  {| touchStartX := 0; touchStartY := 0; touchEndX := 0; touchEndY := 0;
     isScrolling := false |}.

Definition menu_touchstart (v : menu_vars) (clientX clientY : Z) : menu_vars :=
  {| touchStartX := clientX; touchStartY := clientY;
     touchEndX := touchEndX v; touchEndY := touchEndY v;
     isScrolling := false |}.

Definition menu_touchmove (v : menu_vars) (clientX clientY : Z) : menu_vars :=
  if negb (Js.truthy (touchStartX v)) || negb (Js.truthy (touchStartY v)) then v
  else
    let diffX := touchStartX v - clientX in
    let diffY := touchStartY v - clientY in
    if Z.abs diffY >? Z.abs diffX then
      {| touchStartX := touchStartX v; touchStartY := touchStartY v;
         touchEndX := touchEndX v; touchEndY := touchEndY v;
         isScrolling := true |}
    else v.

Definition menu_touchend (d : document) (s : dom) (v : menu_vars) (clientX : Z)
  : menu_vars * list effect :=
  if isScrolling v then (v, [])
  else
    let swipeDistance := touchStartX v - clientX in
    let swipeThreshold := 100 in
    let tr := if swipeDistance >? swipeThreshold then closeMobileMenu d s else [] in
    ({| touchStartX := 0; touchStartY := 0; touchEndX := 0;
        touchEndY := touchEndY v; isScrolling := false |}, tr).

(** One touch sequence on the menu: a touch-start, the moves, a touch-end. *)
Record session : Type := {
  s_start : Z * Z;
  s_moves : list (Z * Z);
  s_endX : Z;
}.

Definition menu_moves (v : menu_vars) (ms : list (Z * Z)) : menu_vars :=
  fold_left (fun acc m => menu_touchmove acc (fst m) (snd m)) ms v.

(** The variables when the finger lifts, before the touch-end handler. *)
Definition menu_tracked (v : menu_vars) (g : session) : menu_vars :=
  menu_moves (menu_touchstart v (fst (s_start g)) (snd (s_start g))) (s_moves g).

Definition menu_session (d : document) (s : dom) (v : menu_vars) (g : session)
  : menu_vars * list effect :=
  menu_touchend d s (menu_tracked v g) (s_endX g).


(** *** Slider swipe navigation

    The variables of one [setupSliderSwipe] closure. *)

Record slider_vars : Type := {
  startX : Z;
  startY : Z;
  currentX : Z;
  isDragging : bool;
  isVerticalScroll : bool
}.

Definition slider_initial : slider_vars :=
  {| startX := 0; startY := 0; currentX := 0; isDragging := false;
     isVerticalScroll := false |}.

(** What [setupSliderSwipe] looked up once for its slider. *)
Record slider_refs : Type := {
  slider : node;
  leftArrow : option node;
  rightArrow : option node
}.

Definition slider_touchstart (r : slider_refs) (s : dom) (v : slider_vars)
    (clientX clientY : Z) : dom * slider_vars :=
  let v' := {| startX := clientX; startY := clientY; currentX := currentX v;
               isDragging := true; isVerticalScroll := false |} in
  if attribute_is s (slider r) "data-autoplay" "true" then
    (setAttribute (slider r) "data-autoplay" "false"
       (setAttribute (slider r) "data-temp-autoplay" "true" s), v')
  else (s, v').

Definition slider_touchmove (v : slider_vars) (clientX clientY : Z)
    : slider_vars * list effect :=
  if negb (isDragging v) then (v, [])
  else
    let diffX := Z.abs (clientX - startX v) in
    let diffY := Z.abs (clientY - startY v) in
    if (diffY >? diffX) && (diffY >? 10) then
      ({| startX := startX v; startY := startY v; currentX := clientX;
          isDragging := isDragging v; isVerticalScroll := true |}, [])
    else
      ({| startX := startX v; startY := startY v; currentX := clientX;
          isDragging := isDragging v; isVerticalScroll := isVerticalScroll v |},
       if (diffX >? 10) && negb (isVerticalScroll v) then [PreventDefault] else []).

Definition resetSliderTouch (r : slider_refs) (s : dom) (v : slider_vars)
    : dom * slider_vars * list effect :=
  let v' := {| startX := startX v; startY := startY v; currentX := currentX v;
               isDragging := false; isVerticalScroll := false |} in
  let s' := if attribute_is s (slider r) "data-temp-autoplay" "true" then
              removeAttribute (slider r) "data-temp-autoplay"
                (setAttribute (slider r) "data-autoplay" "true" s)
            else s in
  (s', v', [Call "resetSliderTouch"]).

(** [arrow.click()] behind [if (arrow)]. *)
Definition click_if_present (arrow : option node) : list effect :=
  match arrow with
  | Some a => [Click a]
  | None => []
  end.

(** [Date.now() - (slider._touchStartTime || Date.now())]: [now1] is the
    first reading of the clock, [now2] the second one, taken only when the
    property is falsy. *)
Definition timeDiff (r : slider_refs) (s : dom) (now1 now2 : Z) : Z :=
  now1 - Js.or_default (props s !! (slider r, "_touchStartTime")) now2.

Definition swipeThreshold : Z := 50.
Definition swipeVelocityThreshold : Q := (5 # 10)%Q.

(** Swipe right: previous slide; swipe left: next slide. *)
Definition arrow_clicks (r : slider_refs) (diffX : Z) : list effect :=
  if diffX >? 0 then click_if_present (leftArrow r)
  else click_if_present (rightArrow r).

(** The arrow clicks of the touch-end handler, for a session that is
    dragging and not vertical. *)
Definition slider_navigate (r : slider_refs) (s : dom) (v : slider_vars)
    (clientX now1 now2 : Z) : list effect :=
  let diffX := clientX - startX v in
  let velocity := Js.div (Z.abs diffX) (timeDiff r s now1 now2) in
  if (Z.abs diffX >? swipeThreshold) || Js.gt velocity swipeVelocityThreshold then
    arrow_clicks r diffX
  else [].

Definition slider_touchend (r : slider_refs) (s : dom) (v : slider_vars)
    (clientX now1 now2 : Z) : dom * slider_vars * list effect :=
  if negb (isDragging v) || isVerticalScroll v then resetSliderTouch r s v
  else
    let nav := slider_navigate r s v clientX now1 now2 in
    let '(s', v', tr) := resetSliderTouch r s v in
    (s', v', nav ++ tr).

Definition slider_moves (v : slider_vars) (ms : list (Z * Z))
    : slider_vars * list effect :=
  fold_left (fun acc m =>
               let '(v', tr) := slider_touchmove (fst acc) (fst m) (snd m) in
               (v', snd acc ++ tr))
            ms (v, []).

(** One touch sequence on a slider; it starts at clock reading [t0] (which
    the touch-start handler never looks at) and the touch-end handler reads
    the clock as [t1] twice. *)
Definition slider_session (r : slider_refs) (s : dom) (v : slider_vars)
    (g : session) (t0 t1 : Z) : dom * slider_vars * list effect :=
  let '(s1, v1) := slider_touchstart r s v (fst (s_start g)) (snd (s_start g)) in
  let '(v2, tr2) := slider_moves v1 (s_moves g) in
  let '(s3, v3, tr3) := slider_touchend r s1 v2 (s_endX g) t1 t1 in
  (s3, v3, tr2 ++ tr3).


(** *** Ripple feedback *)

(** [element.getBoundingClientRect()] *)
Record DOMRect : Type := {
  rect_left : Q;
  rect_top : Q;
  rect_width : Q;
  rect_height : Q
}.

(** The layout engine: bounding boxes and the computed [position]. *)
Record layout : Type := {
  getBoundingClientRect : node -> DOMRect;
  computedPosition : node -> string
}.

Definition ripple_size (rect : DOMRect) : Q :=
  Qmax (rect_width rect) (rect_height rect).

Definition ripple_x (rect : DOMRect) (clientX : Q) : Q :=
  (clientX - rect_left rect - ripple_size rect / 2)%Q.

Definition ripple_y (rect : DOMRect) (clientY : Q) : Q :=
  (clientY - rect_top rect - ripple_size rect / 2)%Q.

(** The assignment to [ripple.style.cssText]. *)
Definition ripple_cssText (ripple : node) (rect : DOMRect) (clientX clientY : Q)
    (s : dom) : dom :=
  setStyle ripple "z-index" (CssText "1000")
    (setStyle ripple "pointer-events" (CssText "none")
    (setStyle ripple "animation" (CssText "ripple 0.6s ease-out")
    (setStyle ripple "transform" (CssText "scale(0)")
    (setStyle ripple "border-radius" (CssText "50%")
    (setStyle ripple "background" (CssText "rgba(100, 82, 61, 0.3)")
    (setStyle ripple "top" (CssPx (ripple_y rect clientY))
    (setStyle ripple "left" (CssPx (ripple_x rect clientX))
    (setStyle ripple "height" (CssPx (ripple_size rect))
    (setStyle ripple "width" (CssPx (ripple_size rect))
    (setStyle ripple "position" (CssText "absolute") s)))))))))).

(** Returns the ripple node next to the new page and the timer it set. *)
Definition createRippleEffect (l : layout) (element : node) (clientX clientY : Q)
    (s : dom) : node * dom * list effect :=
  let rect := getBoundingClientRect l element in
  let '(ripple, s1) := createElement s in
  let s2 := ripple_cssText ripple rect clientX clientY s1 in
  let s3 := if String.eqb (computedPosition l element) "static"
            then setStyle element "position" (CssText "relative") s2
            else s2 in
  (ripple, appendChild element ripple s3, [SetTimeout (RemoveRipple ripple) 600]).

(** The timer callback of [createRippleEffect]. *)
Definition removeRipple (ripple : node) (s : dom) : exn + dom :=
  match parentNode s !! ripple with
  | Some p => removeChild p ripple s
  | None => inr s
  end.

(** The two touch-start listeners of [setupTouchFeedback], in the order they
    were registered. *)
Definition feedback_touchstart (l : layout) (element : node) (clientX clientY : Q)
    (s : dom) : node * dom * list effect :=
  let '(ripple, s1, tr) := createRippleEffect l element clientX clientY s in
  (ripple, classList_add element "touch-pressed" s1, tr).

Definition feedback_touchend (element : node) (s : dom) : dom :=
  classList_remove element "touch-pressed" s.

(** *** Scroll class, throttled by animation frame *)

(** The browser as far as the throttle can tell: the scroll offset, the
    [ticking] variable of the closure, the frame callbacks that are
    requested and not run yet, and how often [updateScrollPosition] ran. *)
Record scroll_state : Type := {
  pageYOffset : Z;
  ticking : bool;
  pending : list handler;
  updates : nat;
  page : dom
}.

Definition scroll_listener (st : scroll_state) : scroll_state :=
  if negb (ticking st) then
    {| pageYOffset := pageYOffset st; ticking := true;
       pending := pending st ++ [UpdateScrollPosition];
       updates := updates st; page := page st |}
  else st.

Definition updateScrollPosition (d : document) (st : scroll_state) : scroll_state :=
  let scrollY := pageYOffset st in
  {| pageYOffset := pageYOffset st; ticking := false; pending := pending st;
     updates := S (updates st);
     page := if scrollY >? 100
             then classList_add (doc_body d) "scrolled" (page st)
             else classList_remove (doc_body d) "scrolled" (page st) |}.

Inductive browser_event : Type :=
| Scroll (offset : Z)
| AnimationFrame.

(** A scroll event moves the offset and runs the listener; an animation
    frame runs the callbacks requested before it. *)
Definition scroll_step (d : document) (st : scroll_state) (e : browser_event)
    : scroll_state :=
  match e with
  | Scroll y =>
      scroll_listener {| pageYOffset := y; ticking := ticking st;
                         pending := pending st; updates := updates st;
                         page := page st |}
  | AnimationFrame =>
      fold_left (fun acc h => match h with
                              | UpdateScrollPosition => updateScrollPosition d acc
                              | _ => acc
                              end) (pending st)
        {| pageYOffset := pageYOffset st; ticking := ticking st; pending := [];
           updates := updates st; page := page st |}
  end.

Definition scroll_run (d : document) (st : scroll_state) (es : list browser_event)
    : scroll_state :=
  fold_left (scroll_step d) es st.

(** Idle: nothing requested and the flag down. *)
Definition scroll_idle (st : scroll_state) : Prop :=
  ticking st = false /\ pending st = [].

(** Waiting: one callback requested and the flag up. *)
Definition scroll_waiting (st : scroll_state) : Prop :=
  ticking st = true /\ pending st = [UpdateScrollPosition].

(** The state [setupScrollOptimizations] leaves behind. *)
Definition scroll_initial (y : Z) (s : dom) : scroll_state :=
  {| pageYOffset := y; ticking := false; pending := []; updates := 0%nat; page := s |}.


(** *** Initialisation *)

(** The globals the script reads when it loads. *)
Record window_env : Type := {
  (** ['ontouchstart' in window] *)
  ontouchstart_in_window : bool;
  (** [navigator.maxTouchPoints], undefined where the browser lacks it *)
  maxTouchPoints : option Z;
  userAgent : string;
  (** [document.readyState === 'loading'] *)
  readyState_loading : bool;
  (** [setupImageGalleryTouch] is called and defined nowhere in the file:
      the name resolves to a global of another script, if there is one *)
  global_setupImageGalleryTouch : option (M unit)
}.

Definition contains (needle hay : string) : bool :=
  match String.index 0 needle hay with
  | Some _ => true
  | None => false
  end.

Definition isTouchDevice (w : window_env) : bool :=
  ontouchstart_in_window w ||
  match maxTouchPoints w with
  | Some n => n >? 0
  | None => false
  end.

(** [/iPad|iPhone|iPod/.test(navigator.userAgent)] *)
Definition isIOS (w : window_env) : bool :=
  contains "iPad" (userAgent w) || contains "iPhone" (userAgent w) ||
  contains "iPod" (userAgent w).

Definition listen (t : target) (type : string) (h : handler) (passive : bool) : M unit :=
  emit (AddEventListener t type h passive).

Definition setupTouchFeedback (d : document) : M unit :=
  forEach
    (querySelectorAll d
       ".navlink, .button, .mobile-page-link, .language-switch-div, .page-link, .section-heading.dark.nav")
    (fun element =>
       listen (OnNode element) "touchstart" (RippleTouchStart element) true ;;
       listen (OnNode element) "touchstart" (PressTouchStart element) true ;;
       listen (OnNode element) "touchend" (PressTouchEnd element) true ;;
       listen (OnNode element) "touchcancel" (PressTouchCancel element) true)%js.

Definition setupSwipeToClose (menu : node) : M unit :=
  (listen (OnNode menu) "touchstart" MenuTouchStart true ;;
   listen (OnNode menu) "touchmove" MenuTouchMove true ;;
   listen (OnNode menu) "touchend" MenuTouchEnd true)%js.

Definition setupImageSwipe (imageContainer : node) : M unit :=
  (listen (OnNode imageContainer) "touchstart" (ImageTouchStart imageContainer) true ;;
   listen (OnNode imageContainer) "touchmove" (ImageTouchMove imageContainer) true ;;
   listen (OnNode imageContainer) "touchend" (ImageTouchEnd imageContainer) true)%js.

Definition setupSliderSwipe (d : document) (sl : node) : M unit :=
  match querySelectorIn d sl ".w-slider-mask" with
  | None => ret tt
  | Some _ =>
      (listen (OnNode sl) "touchstart" (SliderTouchStart sl) true ;;
       listen (OnNode sl) "touchmove" (SliderTouchMove sl) false ;;
       listen (OnNode sl) "touchend" (SliderTouchEnd sl) true)%js
  end.

(** The references a slider closure keeps. *)
Definition slider_refs_of (d : document) (sl : node) : slider_refs :=
  {| slider := sl;
     leftArrow := querySelectorIn d sl ".w-slider-arrow-left";
     rightArrow := querySelectorIn d sl ".w-slider-arrow-right" |}.

Definition setupSwipeGestures (d : document) : M unit :=
  (match querySelector d ".mobile-menu" with
   | Some mobileMenu => setupSwipeToClose mobileMenu
   | None => ret tt
   end ;;
   forEach (querySelectorAll d ".w-slider") (setupSliderSwipe d) ;;
   forEach (querySelectorAll d ".cta-image-wrapper, .grid-image-wrapper") setupImageSwipe)%js.

Definition setupMobileMenuEnhancements (d : document) : M unit :=
  (match querySelector d ".w-nav-button" with
   | Some menuButton =>
       listen (OnNode menuButton) "touchstart" MenuButtonHaptic true ;;
       modify (setAttribute menuButton "aria-label" "Toggle navigation menu")
   | None => ret tt
   end ;;
   match querySelector d ".mobile-menu" with
   | Some mobileMenu => emit (Observe mobileMenu (MenuStyleObserver mobileMenu))
   | None => ret tt
   end)%js.

Definition setupFormOptimizations (w : window_env) (d : document) : M unit :=
  forEach (querySelectorAll d "input, textarea, select")
    (fun input =>
       when (isIOS w) (listen (OnNode input) "focus" (InputFocusFont input) false) ;;
       listen (OnNode input) "touchstart" (InputTouchFocus input) true)%js.

Definition setupImageGalleryTouch (w : window_env) : M unit :=
  match global_setupImageGalleryTouch w with
  | Some f => f
  | None => throw (ReferenceError "setupImageGalleryTouch is not defined")
  end.

Definition setupScrollOptimizations (d : document) : M unit :=
  (* the selector is [a[href^=#]] with the [#] quoted *)
  (forEach (querySelectorAll d "a[href^=#]")
     (fun link => listen (OnNode link) "click" (AnchorClick link) false) ;;
   listen OnWindow "scroll" ScrollListener true)%js.

Definition initTouchEnhancements (w : window_env) (d : document) : M unit :=
  if negb (isTouchDevice w) then ret tt
  else
    (modify (classList_add (doc_body d) "touch-device") ;;
     setupTouchFeedback d ;;
     setupSwipeGestures d ;;
     setupMobileMenuEnhancements d ;;
     setupFormOptimizations w d ;;
     setupImageGalleryTouch w ;;
     setupScrollOptimizations d ;;
     emit (ConsoleLog "Touch enhancements initialized"))%js.

(** The style sheet text, with its line breaks and indentation collapsed. *)
Definition rippleStyles : string :=
  "@keyframes ripple { to { transform: scale(2); opacity: 0; } } .touch-pressed { transform: scale(0.98) !important; transition: transform 0.1s ease !important; } .touch-device .scrolled .navbar { backdrop-filter: blur(10px); background-color: rgba(9, 29, 30, 0.9); }".

Definition addRippleStyles (d : document) : M unit :=
  fun s =>
    let '(style, s1) := createElement s in
    let s2 := with_text (<[ style := rippleStyles ]> (textContent s1)) s1 in
    Outcome (appendChild (doc_head d) style s2) [] (inr tt).

(** The listener for [DOMContentLoaded]. *)
Definition onDomContentLoaded (w : window_env) (d : document) : M unit :=
  (initTouchEnhancements w d ;; addRippleStyles d)%js.

(** The body of the script, run once when it loads. *)
Definition script (w : window_env) (d : document) : M unit :=
  ((if readyState_loading w
    then listen OnDocument "DOMContentLoaded" OnDomContentLoaded false
    else (initTouchEnhancements w d ;; addRippleStyles d)) ;;
   emit (DefineGlobal "TouchEnhancements"))%js.

(** The script, and then the [DOMContentLoaded] listener if the script
    registered it; an exception of the script does not keep the browser from
    running a listener that is registered. *)
Definition load (w : window_env) (d : document) (s : dom) : dom * list effect :=
  let r := script w d s in
  if readyState_loading w then
    let r' := onDomContentLoaded w d (o_dom r) in
    (o_dom r', o_trace r ++ o_trace r')
  else (o_dom r, o_trace r).

(** *** How the move handlers classify a gesture *)

(** The test of the slider's touch-move handler against the start point. *)
Definition slider_vertical_move (start m : Z * Z) : bool :=
  (Z.abs (snd m - snd start) >? Z.abs (fst m - fst start)) &&
  (Z.abs (snd m - snd start) >? 10).

(** The test of the menu's touch-move handler against the start point. *)
Definition menu_vertical_move (start m : Z * Z) : bool :=
  Z.abs (snd start - snd m) >? Z.abs (fst start - fst m).

(** Two states of a slider closure that agree on everything but [currentX],
    which no handler reads before it assigns it. *)
Definition same_tracking (v v' : slider_vars) : Prop :=
  startX v = startX v' /\ startY v = startY v' /\
  isDragging v = isDragging v' /\ isVerticalScroll v = isVerticalScroll v'.

(** *** Image swipe

    The variables of one [setupImageSwipe] closure, and the two inline style
    properties of the container that its handlers assign. *)

Record image_vars : Type := {
  img_startX : Z;
  img_currentX : Z;
  img_isDragging : bool
}.

Definition image_initial : image_vars :=
  {| img_startX := 0; img_currentX := 0; img_isDragging := false |}.

(** [translateX(..px)] and [scale(..)] *)
Inductive transform : Type :=
| TranslateX (px : Q)
| Scale (factor : Q).

Record image_style : Type := {
  img_transition : option string;
  img_transform : option transform
}.

(** What [navigateImage] asks for: the timer that sets the scale back and the
    [imageNavigate] event on [document], with its [detail]. *)
Inductive image_effect : Type :=
| ScaleBackTimeout (container : node) (ms : Z)
| DispatchImageNavigate (direction : string) (container : node).

Definition navigateImage (container : node) (direction : string) (st : image_style)
    : image_style * list image_effect :=
  ({| img_transition := img_transition st;
      img_transform := Some (Scale (if String.eqb direction "next"
                                    then (95 # 100)%Q else (105 # 100)%Q)) |},
   [ScaleBackTimeout container 200; DispatchImageNavigate direction container]).

(** The timer callback of [navigateImage]. *)
Definition image_scale_back (st : image_style) : image_style :=
  {| img_transition := img_transition st; img_transform := Some (Scale 1) |}.

Definition image_touchstart (v : image_vars) (st : image_style) (clientX : Z)
    : image_vars * image_style :=
  ({| img_startX := clientX; img_currentX := img_currentX v; img_isDragging := true |},
   {| img_transition := Some "none"; img_transform := img_transform st |}).

Definition image_touchmove (v : image_vars) (st : image_style) (clientX : Z)
    : image_vars * image_style :=
  if negb (img_isDragging v) then (v, st)
  else
    let diffX := clientX - img_startX v in
    ({| img_startX := img_startX v; img_currentX := clientX;
        img_isDragging := img_isDragging v |},
     {| img_transition := img_transition st;
        img_transform := Some (TranslateX (inject_Z diffX * (3 # 10))%Q) |}).

Definition image_touchend (container : node) (v : image_vars) (st : image_style)
    (clientX : Z) : image_vars * image_style * list image_effect :=
  if negb (img_isDragging v) then (v, st, [])
  else
    let diffX := clientX - img_startX v in
    let threshold := 50 in
    let st1 := {| img_transition := Some "transform 0.3s ease";
                  img_transform := Some (TranslateX 0) |} in
    let '(st2, tr) :=
      if Z.abs diffX >? threshold then
        if diffX >? 0 then navigateImage container "prev" st1
        else navigateImage container "next" st1
      else (st1, []) in
    ({| img_startX := img_startX v; img_currentX := img_currentX v;
        img_isDragging := false |}, st2, tr).

Definition image_moves (v : image_vars) (st : image_style) (xs : list Z)
    : image_vars * image_style :=
  fold_left (fun acc x => image_touchmove (fst acc) (snd acc) x) xs (v, st).

(** One touch sequence on an image container; only the horizontal
    coordinates are read. *)
Definition image_session (container : node) (v : image_vars) (st : image_style)
    (g : session) : image_vars * image_style * list image_effect :=
  let '(v1, st1) := image_touchstart v st (fst (s_start g)) in
  let '(v2, st2) := image_moves v1 st1 (map fst (s_moves g)) in
  image_touchend container v2 st2 (s_endX g).

(** *** Scroll lock while the menu is visible *)

(** A [MutationRecord], as far as the observer reads it. *)
Record mutation : Type := {
  m_type : string;
  m_attributeName : option string
}.

(** [element.style[k] !== v]; a property that was never set reads as the
    empty string. *)
Definition style_differs (s : dom) (n : node) (k v : string) : bool :=
  match styles s !! (n, k) with
  | Some (CssText t) => negb (String.eqb t v)
  | Some (CssPx _) => true
  | None => negb (String.eqb "" v)
  end.

Definition menu_isVisible (s : dom) (mobileMenu : node) : bool :=
  style_differs s mobileMenu "display" "none" &&
  style_differs s mobileMenu "visibility" "hidden".

Definition is_style_mutation (m : mutation) : bool :=
  String.eqb (m_type m) "attributes" &&
  match m_attributeName m with
  | Some a => String.eqb a "style"
  | None => false
  end.

(** The callback of the [MutationObserver] on the menu. *)
Definition menu_observer (d : document) (mobileMenu : node) (mutations : list mutation)
    (s : dom) : dom :=
  fold_left
    (fun acc m =>
       if is_style_mutation m then
         if menu_isVisible acc mobileMenu
         then setStyle (doc_body d) "overflow" (CssText "hidden") acc
         else setStyle (doc_body d) "overflow" (CssText "") acc
       else acc)
    mutations s.

(** *** What [initTouchEnhancements] may change and register *)

(** Apart from the attribute [aria-label] the page is the same: what the
    set-up functions after the first statement may change. *)
Definition setup_frame (s s' : dom) : Prop :=
  classes s' = classes s /\ styles s' = styles s /\ props s' = props s /\
  textContent s' = textContent s /\ parentNode s' = parentNode s /\
  childNodes s' = childNodes s /\ nextNode s' = nextNode s /\
  (forall n k, k <> "aria-label" -> attrs s' !! (n, k) = attrs s !! (n, k)).

Definition is_scroll_event (e : browser_event) : bool :=
  match e with
  | Scroll _ => true
  | AnimationFrame => false
  end.

Definition is_frame_event (e : browser_event) : bool :=
  match e with
  | Scroll _ => false
  | AnimationFrame => true
  end.

(** A touch or focus listener on an element, or the menu observer. *)
Definition element_listener (e : effect) : Prop :=
  match e with
  | AddEventListener (OnNode _) _ _ _ => True
  | Observe _ _ => True
  | _ => False
  end.

(** *** Scroll events after the script has loaded *)

(** The listeners a run has registered for [scroll] on [window]. *)
Definition scroll_listeners (tr : list effect) : list handler :=
  flat_map (fun e => match e with
                     | AddEventListener OnWindow type h _ =>
                         if String.eqb type "scroll" then [h] else []
                     | _ => []
                     end) tr.

(** A scroll event runs the listeners registered for it, in order; the one
    closure the script has for that is the listener of
    [setupScrollOptimizations]. *)
Definition dispatch_scroll (hs : list handler) (st : scroll_state) : scroll_state :=
  fold_left (fun acc h => match h with
                          | ScrollListener => scroll_listener acc
                          | _ => acc
                          end) hs st.

(** One event in a browser in which the listeners [hs] are registered: a
    scroll event moves the offset and is dispatched to them, an animation
    frame runs the callbacks requested before it. *)
Definition browser_step (d : document) (hs : list handler) (st : scroll_state)
    (e : browser_event) : scroll_state :=
  match e with
  | Scroll y =>
      dispatch_scroll hs {| pageYOffset := y; ticking := ticking st;
                            pending := pending st; updates := updates st;
                            page := page st |}
  | AnimationFrame => scroll_step d st AnimationFrame
  end.

(** The script is loaded on the page [s], scrolled to [y]; the events [es]
    that follow reach the listeners that loading has registered. *)
Definition loaded_run (w : window_env) (d : document) (s : dom) (y : Z)
    (es : list browser_event) : scroll_state :=
  fold_left (browser_step d (scroll_listeners (snd (load w d s)))) es
    (scroll_initial y (fst (load w d s))).

End Touch.

(** ** gsap-optimizations.js *)

Module Gsap.

(** The libraries the page may or may not have loaded. [splitType el] is
    the [words] array of [new SplitType(el, ...)]. *)
Record libraries : Type := {
  gsap_defined : bool;
  scrollTrigger_defined : bool;
  splitType : option (node -> list node)
}.

(** What assigning into the [style] of a value without one throws. *)
Definition willChangeError : exn :=
  TypeError "Cannot set properties of undefined (setting 'willChange')".

(** [el.style.willChange = properties] behind [if (el)]: [null] is skipped,
    and a [NodeList] has no [style] to assign into. *)
Definition setWillChange (properties : string) (el : jsval) : M unit :=
  match el with
  | VNull => ret tt
  | VElement n => modify (setStyle n "will-change" (CssText properties))
  | VNodeList _ => throw willChangeError
  end.

Definition addWillChange (elements : list jsval) (properties : string) : M unit :=
  forEach elements (setWillChange properties).

Definition removeWillChange (elements : list jsval) : M unit :=
  forEach elements (setWillChange "auto").

Definition elements_of (l : list node) : list jsval := map VElement l.

(** The [triggerProps] argument: the keys a caller passes. *)
Record triggerProps : Type := {
  tp_start : option string;
  tp_trigger : option string
}.

Definition no_triggerProps : triggerProps := {| tp_start := None; tp_trigger := None |}.

Definition createOptimizedScrollTrigger (elements : list node) (fromVars toVars : vars)
    (tp : triggerProps) : M unit :=
  match elements with
  | [] => ret tt
  | first :: _ =>
      (addWillChange (elements_of elements) "transform, opacity" ;;
       emit (GsapFromTo elements fromVars toVars
               {| st_trigger := match tp_trigger tp with
                                | Some sel => TriggerSelector sel
                                | None => TriggerNode first
                                end;
                  st_start := default "top 85%" (tp_start tp);
                  st_toggleActions := Some "play none none none";
                  st_once := true |}))%js
  end.

(** The [onComplete] of the tween made by [createOptimizedScrollTrigger]. *)
Definition onComplete (elements : list node) : M unit :=
  removeWillChange (elements_of elements).

Record imageConfig : Type := {
  ic_selector : string;
  ic_from : vars;
  ic_to : vars;
  ic_trigger : option string
}.

Definition imageConfigs : list imageConfig :=
  [ {| ic_selector := ".image-wrapper.portrait";
       ic_from := [("y", "100"); ("scale", "0.9"); ("opacity", "0")];
       ic_to := [("y", "0"); ("scale", "1"); ("opacity", "1"); ("duration", "1.2");
                 ("ease", "power2.out")];
       ic_trigger := None |};
    {| ic_selector := ".wide-image-wrapper";
       ic_from := [("x", "100"); ("scale", "1.1"); ("opacity", "0")];
       ic_to := [("x", "0"); ("scale", "1"); ("opacity", "1"); ("duration", "1.3");
                 ("ease", "power2.out")];
       ic_trigger := None |};
    {| ic_selector := ".cta-image-wrapper";
       ic_from := [("y", "100"); ("scale", "1.1"); ("opacity", "0")];
       ic_to := [("y", "0"); ("scale", "1"); ("opacity", "1"); ("duration", "1.2");
                 ("ease", "power2.out")];
       ic_trigger := Some ".cta-right-grid" |};
    {| ic_selector := ".section-hero-image-wrapper";
       ic_from := [("opacity", "0"); ("y", "100"); ("scale", "1.1")];
       ic_to := [("opacity", "1"); ("y", "0"); ("scale", "1"); ("duration", "1");
                 ("delay", "0.6"); ("ease", "power2.out")];
       ic_trigger := None |};
    {| ic_selector := ".ceo-image-wrapper";
       ic_from := [("x", "100"); ("opacity", "0"); ("scale", "0.95")];
       ic_to := [("x", "0"); ("opacity", "1"); ("scale", "1"); ("duration", "1.1");
                 ("ease", "power2.out")];
       ic_trigger := None |} ].

Definition imageWrapperSelectors : list string :=
  [ ".right-image-wrapper"; ".brand-logo-wrapper"; ".quick-stack-img-wrapper";
    ".residential-slider-image-wrap"; ".grid-image-wrapper";
    ".commercial-project-img-wrapper" ].

Definition nonempty {A : Type} (l : list A) : bool :=
  match l with
  | [] => false
  | _ :: _ => true
  end.

Definition animateImageConfig (d : document) (config : imageConfig) : M unit :=
  let elements := querySelectorAll d (ic_selector config) in
  when (nonempty elements)
    (createOptimizedScrollTrigger elements (ic_from config) (ic_to config)
       {| tp_start := None; tp_trigger := ic_trigger config |}).

Definition animateImageWrapper (d : document) (selector : string) : M unit :=
  let elements := querySelectorAll d selector in
  when (nonempty elements)
    (createOptimizedScrollTrigger elements
       [("y", "60"); ("opacity", "0")]
       [("y", "0"); ("opacity", "1"); ("duration", "1"); ("ease", "power2.out");
        ("stagger", "0.1")]
       no_triggerProps).

Definition initOptimizedImageAnimations (d : document) : M unit :=
  let sliderImages := querySelectorAll d ".image-wrapper.slider" in
  (when (nonempty sliderImages)
     (createOptimizedScrollTrigger sliderImages
        [("scale", "1.1"); ("filter", "blur(10px)"); ("opacity", "0")]
        [("scale", "1"); ("filter", "blur(0px)"); ("opacity", "1"); ("duration", "1.2");
         ("ease", "power2.out"); ("stagger", "0.15")]
        {| tp_start := Some "top 80%"; tp_trigger := None |}) ;;
   forEach imageConfigs (animateImageConfig d) ;;
   forEach imageWrapperSelectors (animateImageWrapper d))%js.


Definition headingSelectors : list string :=
  [ ".section-name"; ".section-heading"; ".pattern-heading"; ".stats-heading";
    ".status-heading"; ".cta-heading"; ".project-grid-name"; ".stats";
    ".page-hero-heading"; ".project-heading" ].

Definition fadeInSelectors : list string :=
  [ ".pattern-sub-heading"; ".project-sub-heading"; ".paragraph";
    ".stats-sub-heading"; ".sub-heading"; ".button" ].

Definition logoSelectors : list string :=
  [ ".center-logo-wrapper"; ".center-logo-calma"; ".calma-logo-wrapper"; ".grid-icon" ].

(** [selectors.flatMap(selector => Array.from(document.querySelectorAll(selector)))] *)
Definition selectAll (d : document) (selectors : list string) : list node :=
  flat_map (querySelectorAll d) selectors.

(** [el.dataset.splitDone] is the attribute [data-split-done]; it reads as
    true when it is there and not the empty string. *)
Definition splitDone (s : dom) (el : node) : bool :=
  match getAttribute s el "data-split-done" with
  | Some v => negb (String.eqb v "")
  | None => false
  end.

(** [new SplitType(el, { types: "words", tagName: "span" })] *)
Definition newSplitType (lib : libraries) (el : node) : M (list node) :=
  match splitType lib with
  | Some words => bind (emit (NewSplitType el)) (fun _ => ret (words el))
  | None => throw (ReferenceError "SplitType is not defined")
  end.

(** [gsap.from(split.words, { scrollTrigger: { trigger: el, ... }, ... })] *)
Definition wordAnimation (el : node) (words : list node) : effect :=
  GsapFrom words
    [("opacity", "0"); ("y", "40"); ("skewY", "3"); ("stagger", "0.03");
     ("duration", "0.8"); ("ease", "power2.out")]
    {| st_trigger := TriggerNode el; st_start := "top 85%";
       st_toggleActions := Some "play none none none"; st_once := true |}.

(** The body of [allHeadings.forEach]. *)
Definition animateHeading (lib : libraries) (el : node) : M unit :=
  (done <- gets (fun s => splitDone s el) ;;
   if done then ret tt
   else
     words <- newSplitType lib el ;;
     modify (setAttribute el "data-split-done" "true") ;;
     addWillChange (elements_of words) "transform, opacity" ;;
     emit (wordAnimation el words))%js.

Definition animateHeadings (lib : libraries) (allHeadings : list node) : M unit :=
  forEach allHeadings (animateHeading lib).

(** The fade-in group and the logo group of [initOptimizedTextAnimations]. *)
Definition animateFadeElements (d : document) : M unit :=
  let allFadeElements := selectAll d fadeInSelectors in
  when (nonempty allFadeElements)
    (createOptimizedScrollTrigger allFadeElements
       [("opacity", "0"); ("y", "20")]
       [("opacity", "1"); ("y", "0"); ("duration", "0.6"); ("ease", "power2.out");
        ("stagger", "0.05")]
       {| tp_start := Some "top 90%"; tp_trigger := None |}).

Definition animateLogos (d : document) : M unit :=
  let allLogos := selectAll d logoSelectors in
  when (nonempty allLogos)
    (createOptimizedScrollTrigger allLogos
       [("scale", "0.9"); ("opacity", "0")]
       [("scale", "1"); ("opacity", "1"); ("duration", "0.8"); ("ease", "power2.out");
        ("stagger", "0.1")]
       no_triggerProps).

Definition initOptimizedTextAnimations (lib : libraries) (d : document) : M unit :=
  let allHeadings := selectAll d headingSelectors in
  (animateHeadings lib allHeadings ;;
   animateFadeElements d ;;
   animateLogos d)%js.

(** [footer.querySelector(sel)] and [footer.querySelectorAll(sel)] as values. *)
Definition queryOne (d : document) (n : node) (sel : string) : jsval :=
  match querySelectorIn d n sel with
  | Some e => VElement e
  | None => VNull
  end.

Definition queryAll (d : document) (n : node) (sel : string) : jsval :=
  VNodeList (querySelectorAllIn d n sel).

(** [Object.values(footerElements)], in the order the keys are written. *)
Definition footerElements (d : document) (footer : node) : list jsval :=
  [ queryOne d footer ".footer-logo-div";
    queryOne d footer ".footer-left-grid";
    queryOne d footer ".download-heading";
    queryAll d footer ".download-text";
    queryAll d footer ".line.footer";
    queryOne d footer ".footer-middle-div";
    queryAll d footer ".footer-text";
    queryOne d footer ".footer-bottom-div";
    queryAll d footer ".terms-heading";
    queryAll d footer ".icon" ].

(** [if (el && el.length) f(Array.from(el)) else if (el) f([el])]: an
    element has no [length]; an empty [NodeList] has length [0], which is
    falsy, and is itself truthy. *)
Definition eachFooterElement (f : list jsval -> M unit) (el : jsval) : M unit :=
  match el with
  | VNull => ret tt
  | VElement n => f [VElement n]
  | VNodeList (x :: l) => f (elements_of (x :: l))
  | VNodeList [] => f [VNodeList []]
  end.

Definition footerSteps : list (vars * option string) :=
  [ ([("y", "30"); ("opacity", "0"); ("duration", "0.6"); ("ease", "power2.out")], None);
    ([("y", "30"); ("opacity", "0"); ("duration", "0.6"); ("ease", "power2.out")],
     Some "-=0.4");
    ([("y", "20"); ("opacity", "0"); ("duration", "0.5"); ("ease", "power2.out")],
     Some "-=0.3");
    ([("y", "15"); ("opacity", "0"); ("stagger", "0.05"); ("duration", "0.4");
      ("ease", "power2.out")], Some "-=0.3");
    ([("scaleX", "0"); ("transformOrigin", "left"); ("opacity", "0"); ("duration", "0.4");
      ("ease", "power2.out")], Some "-=0.3");
    ([("y", "25"); ("opacity", "0"); ("duration", "0.5"); ("ease", "power2.out")],
     Some "-=0.2");
    ([("y", "15"); ("opacity", "0"); ("stagger", "0.03"); ("duration", "0.4");
      ("ease", "power2.out")], Some "-=0.2");
    ([("y", "25"); ("opacity", "0"); ("duration", "0.5"); ("ease", "power2.out")],
     Some "-=0.3");
    ([("y", "15"); ("opacity", "0"); ("stagger", "0.05"); ("duration", "0.4");
      ("ease", "power2.out")], Some "-=0.3");
    ([("y", "15"); ("opacity", "0"); ("stagger", "0.05"); ("duration", "0.4");
      ("ease", "power2.out")], Some "-=0.3") ].

Definition initOptimizedFooterAnimation (d : document) : M unit :=
  match querySelector d ".footer" with
  | None => ret tt
  | Some footer =>
      let els := footerElements d footer in
      (forEach els (eachFooterElement (fun l => addWillChange l "transform, opacity")) ;;
       emit (GsapTimeline {| st_trigger := TriggerNode footer; st_start := "top 80%";
                             st_toggleActions := None; st_once := true |}) ;;
       forEach (combine els footerSteps)
         (fun step => emit (TimelineFrom (fst step) (fst (snd step)) (snd (snd step)))))%js
  end.

(** The [onComplete] of the footer timeline. *)
Definition footerOnComplete (d : document) (footer : node) : M unit :=
  forEach (footerElements d footer) (eachFooterElement removeWillChange).

(** The body of [statsContainers.forEach]. *)
Definition animateStats (d : document) (container : node) : M unit :=
  let lines := querySelectorAllIn d container ".line" in
  let stats := querySelectorAllIn d container ".stats" in
  if negb (nonempty lines) && negb (nonempty stats) then ret tt
  else
    (addWillChange (elements_of (lines ++ stats)) "transform, opacity" ;;
     emit (GsapTimeline {| st_trigger := TriggerNode container; st_start := "top 80%";
                           st_toggleActions := Some "play none none none";
                           st_once := true |}) ;;
     when (nonempty lines)
       (emit (TimelineFrom (VNodeList lines)
                [("opacity", "0"); ("scaleX", "0"); ("transformOrigin", "left center");
                 ("duration", "0.3"); ("stagger", "0.1"); ("ease", "power2.out")]
                None)) ;;
     when (nonempty stats)
       (emit (TimelineFrom (VNodeList stats)
                [("opacity", "0"); ("y", "20"); ("duration", "0.4"); ("stagger", "0.1");
                 ("ease", "power2.out")]
                (Some "-=0.2"))))%js.

Definition initOptimizedStatsAnimation (d : document) : M unit :=
  forEach (querySelectorAll d ".location.stats.div") (animateStats d).

Definition initGSAPOptimizations (lib : libraries) (d : document) : M unit :=
  if negb (gsap_defined lib) || negb (scrollTrigger_defined lib) then
    emit (ConsoleWarn "GSAP or ScrollTrigger not loaded. Skipping optimized animations.")
  else
    (emit GsapRegisterPlugin ;;
     emit (GsapDefaults [("ease", "power2.out"); ("duration", "0.8")]) ;;
     initOptimizedImageAnimations d ;;
     initOptimizedTextAnimations lib d ;;
     initOptimizedFooterAnimation d ;;
     initOptimizedStatsAnimation d ;;
     emit ScrollTriggerRefresh)%js.

(** *** What the properties below speak of *)

(** The page after [will-change] was set on each node of a list. *)
Definition willChangeAll (properties : string) (l : list node) (s : dom) : dom :=
  fold_left (fun acc n => setStyle n "will-change" (CssText properties) acc) l s.

Definition count (p : effect -> bool) (tr : list effect) : nat :=
  List.length (List.filter p tr).

(** A tokenization of [el]. *)
Definition is_split (el : node) (e : effect) : bool :=
  match e with
  | NewSplitType x => Nat.eqb x el
  | _ => false
  end.

(** A word animation triggered by [el]. *)
Definition is_word_animation (el : node) (e : effect) : bool :=
  match e with
  | GsapFrom _ _ st =>
      match st_trigger st with
      | TriggerNode x => Nat.eqb x el
      | TriggerSelector _ => false
      end
  | _ => false
  end.

(** A tokenization or a word animation, of any heading. *)
Definition is_tokenize (e : effect) : bool :=
  match e with
  | NewSplitType _ | GsapFrom _ _ _ => true
  | _ => false
  end.

(** What is left to do for a heading: [1] while it is unmarked. *)
Definition pending_split (s : dom) (el : node) : nat :=
  if splitDone s el then 0%nat else 1%nat.

(** The tokenizations counted by [p], together with what is left to do,
    never exceed what was left to do before. *)
Definition conserves (p : node -> effect -> bool) {A : Type} (m : M A) : Prop :=
  forall s x,
    (count (p x) (o_trace (m s)) + pending_split (o_dom (m s)) x <= pending_split s x)%nat.

(** The fade-in group and the logo group, which follow the headings. *)
Definition afterHeadings (d : document) : M unit :=
  bind (animateFadeElements d) (fun _ => animateLogos d).

(** The footer regions that are looked up with [querySelectorAll]. *)
Definition footerListRegions : list string :=
  [ ".download-text"; ".line.footer"; ".footer-text"; ".terms-heading"; ".icon" ].

Definition is_timeline (e : effect) : bool :=
  match e with
  | GsapTimeline _ => true
  | _ => false
  end.

(** *** More of what the properties below speak of *)

(** The matches of the twelve image selectors, in the order the groups are
    set up. *)
Definition imageGroups (d : document) : list (list node) :=
  querySelectorAll d ".image-wrapper.slider" ::
  map (fun config => querySelectorAll d (ic_selector config)) imageConfigs ++
  map (querySelectorAll d) imageWrapperSelectors.

(** The targets of the scroll-triggered tweens of a trace. *)
Definition tween_targets (tr : list effect) : list (list node) :=
  flat_map (fun e => match e with
                     | GsapFromTo targets _ _ _ => [targets]
                     | _ => []
                     end) tr.

(** Every footer region that is looked up with [querySelectorAll] matches. *)
Definition footerComplete (d : document) (footer : node) : bool :=
  forallb (fun sel => nonempty (querySelectorAllIn d footer sel)) footerListRegions.

(** A stats block with a line or a stat. *)
Definition statsActive (d : document) (container : node) : bool :=
  nonempty (querySelectorAllIn d container ".line") ||
  nonempty (querySelectorAllIn d container ".stats").

(** Apart from the inline [will-change] and the attribute [data-split-done],
    the page is the same. *)
Definition gsap_frame (s s' : dom) : Prop :=
  classes s' = classes s /\ props s' = props s /\ textContent s' = textContent s /\
  parentNode s' = parentNode s /\ childNodes s' = childNodes s /\
  nextNode s' = nextNode s /\
  (forall n k, k <> "will-change" -> styles s' !! (n, k) = styles s !! (n, k)) /\
  (forall n k, k <> "data-split-done" -> attrs s' !! (n, k) = attrs s !! (n, k)).

(** The triggers of the timelines of a trace. *)
Definition timeline_triggers (tr : list effect) : list trigger_ref :=
  flat_map (fun e => match e with
                     | GsapTimeline st => [st_trigger st]
                     | _ => []
                     end) tr.

(** A tween, a timeline, a timeline step or a tokenization. *)
Definition animation_call (e : effect) : Prop :=
  match e with
  | GsapFromTo _ _ _ _ | GsapFrom _ _ _ | GsapTimeline _ | TimelineFrom _ _ _
  | NewSplitType _ => True
  | _ => False
  end.

End Gsap.

(** ** A sample page

    A navigation button (1) that is open, the mobile menu (2), one slider
    (3) with its mask (4) and arrows (5, 6), one button with ripple
    feedback (7); [body] is 0 and [head] is 9. *)

Module Sample.

Definition select (table : list (string * list node)) (sel : string) : list node :=
  default [] (snd <$> List.find (fun row => String.eqb (fst row) sel) table).

Definition page_document : document :=
  {| querySelectorAll :=
       select [ (".w-nav-button", [1%nat]); (".mobile-menu", [2%nat]);
                (".w-slider", [3%nat]);
                (".navlink, .button, .mobile-page-link, .language-switch-div, .page-link, .section-heading.dark.nav",
                 [7%nat]) ];
     querySelectorAllIn := fun n =>
       if Nat.eqb n 3
       then select [ (".w-slider-mask", [4%nat]); (".w-slider-arrow-left", [5%nat]);
                     (".w-slider-arrow-right", [6%nat]) ]
       else select [];
     doc_body := 0%nat;
     doc_head := 9%nat |}.

Definition page_dom : dom :=
  {| classes := {[ (1%nat, "w--open") ]}; attrs := {[ (3%nat, "data-autoplay") := "true" ]};
     styles := ∅; props := ∅; textContent := ∅;
     parentNode := {[ 7%nat := 0%nat ]}; childNodes := {[ 0%nat := [7%nat] ]};
     nextNode := 10%nat |}.

Definition slider3 : Touch.slider_refs := Touch.slider_refs_of page_document 3%nat.

(** A closing swipe of 120px, one of 90px, and a vertical scroll. *)
Definition swipe120 : Touch.session :=
  {| Touch.s_start := (300, 200); Touch.s_moves := [(240, 205); (190, 204)];
     Touch.s_endX := 180 |}.

Definition swipe90 : Touch.session :=
  {| Touch.s_start := (300, 200); Touch.s_moves := [(250, 205)]; Touch.s_endX := 210 |}.

Definition scroll_down : Touch.session :=
  {| Touch.s_start := (100, 100); Touch.s_moves := [(100, 200)]; Touch.s_endX := 100 |}.

(** The two slider swipes of the specification: 60px to the left over 80ms
    and 40px to the right over 200ms. *)
Definition left60 : Touch.session :=
  {| Touch.s_start := (200, 50); Touch.s_moves := [(170, 51)]; Touch.s_endX := 140 |}.

Definition right40 : Touch.session :=
  {| Touch.s_start := (100, 50); Touch.s_moves := [(120, 50)]; Touch.s_endX := 140 |}.

(** The button (7) is a 120 by 40 box at (10, 20), statically positioned. *)
Definition page_layout : Touch.layout :=
  {| Touch.getBoundingClientRect := fun _ =>
       {| Touch.rect_left := 10; Touch.rect_top := 20; Touch.rect_width := 120;
          Touch.rect_height := 40 |}%Q;
     Touch.computedPosition := fun _ => "static" |}.

(** A desktop browser without touch, and a phone on which no other script
    defines [setupImageGalleryTouch]. *)
Definition desktop (loading : bool) : Touch.window_env :=
  {| Touch.ontouchstart_in_window := false; Touch.maxTouchPoints := Some 0;
     Touch.userAgent := "Mozilla/5.0 (X11; Linux x86_64)";
     Touch.readyState_loading := loading;
     Touch.global_setupImageGalleryTouch := None |}.

Definition phone (loading : bool) : Touch.window_env :=
  {| Touch.ontouchstart_in_window := true; Touch.maxTouchPoints := Some 5;
     Touch.userAgent := "Mozilla/5.0 (iPhone; CPU iPhone OS 17_0 like Mac OS X)";
     Touch.readyState_loading := loading;
     Touch.global_setupImageGalleryTouch := None |}.

(** A page for the animations: a footer (1) that holds a logo (2) and none
    of the other footer regions, a stats block (3) with one line (4), and a
    heading (5) that matches two of the heading selectors. *)
Definition footer_document : document :=
  {| querySelectorAll :=
       select [ (".footer", [1%nat]); (".location.stats.div", [3%nat]);
                (".section-heading", [5%nat]); (".stats-heading", [5%nat]) ];
     querySelectorAllIn := fun n =>
       if Nat.eqb n 1 then select [ (".footer-logo-div", [2%nat]) ]
       else if Nat.eqb n 3 then select [ (".line", [4%nat]) ]
       else select [];
     doc_body := 0%nat;
     doc_head := 9%nat |}.

(** The same page without the footer. *)
Definition stats_document : document :=
  {| querySelectorAll :=
       select [ (".location.stats.div", [3%nat]);
                (".section-heading", [5%nat]); (".stats-heading", [5%nat]) ];
     querySelectorAllIn := querySelectorAllIn footer_document;
     doc_body := 0%nat;
     doc_head := 9%nat |}.

(** Every library loaded; a heading splits into two words. *)
Definition all_libraries : Gsap.libraries :=
  {| Gsap.gsap_defined := true; Gsap.scrollTrigger_defined := true;
     Gsap.splitType := Some (fun el => [(100 + el)%nat; (200 + el)%nat]) |}.

Definition no_scrollTrigger : Gsap.libraries :=
  {| Gsap.gsap_defined := true; Gsap.scrollTrigger_defined := false;
     Gsap.splitType := Some (fun el => [(100 + el)%nat; (200 + el)%nat]) |}.

(** A swipe of 70px to the right on an image container, and a drag of 30px. *)
Definition image_swipe70 : Touch.session :=
  {| Touch.s_start := (100, 300); Touch.s_moves := [(130, 310); (160, 380)];
     Touch.s_endX := 170 |}.

(** A menu touch that starts at the left edge of the screen. *)
Definition edge_scroll : Touch.session :=
  {| Touch.s_start := (0, 100); Touch.s_moves := [(0, 200); (2, 300)];
     Touch.s_endX := 2 |}.

(** A slider gesture that turns vertical on its second move. *)
Definition slider_scroll : Touch.session :=
  {| Touch.s_start := (200, 50); Touch.s_moves := [(185, 52); (180, 90); (100, 95)];
     Touch.s_endX := 100 |}.

(** The menu (2) hidden by its inline style. *)
Definition hidden_menu_dom : dom :=
  setStyle 2%nat "display" (CssText "none") page_dom.

Definition style_mutation : Touch.mutation :=
  {| Touch.m_type := "attributes"; Touch.m_attributeName := Some "style" |}.

(** A phone on which another script defines [setupImageGalleryTouch]. *)
Definition phone_with_gallery (loading : bool) : Touch.window_env :=
  {| Touch.ontouchstart_in_window := true; Touch.maxTouchPoints := Some 5;
     Touch.userAgent := "Mozilla/5.0 (Linux; Android 14)";
     Touch.readyState_loading := loading;
     Touch.global_setupImageGalleryTouch := Some (ret tt) |}.

(** A page with a full footer (1), two stats blocks (3 with a line, 6
    empty), a heading (5) and two image groups. *)
Definition full_document : document :=
  {| querySelectorAll :=
       select [ (".footer", [1%nat]); (".location.stats.div", [3%nat; 6%nat]);
                (".section-heading", [5%nat]);
                (".image-wrapper.slider", [30%nat; 31%nat]);
                (".cta-image-wrapper", [32%nat]) ];
     querySelectorAllIn := fun n =>
       if Nat.eqb n 1
       then select [ (".footer-logo-div", [2%nat]); (".download-text", [10%nat]);
                     (".line.footer", [11%nat; 12%nat]); (".footer-text", [13%nat]);
                     (".terms-heading", [14%nat]); (".icon", [15%nat]) ]
       else if Nat.eqb n 3 then select [ (".line", [4%nat]) ]
       else select [];
     doc_body := 0%nat;
     doc_head := 9%nat |}.

(** The page after another script stored a start time of 1000 on the
    slider (3). *)
Definition timed_dom : dom :=
  {| classes := classes page_dom; attrs := attrs page_dom; styles := styles page_dom;
     props := {[ (3%nat, "_touchStartTime") := 1000 ]};
     textContent := textContent page_dom; parentNode := parentNode page_dom;
     childNodes := childNodes page_dom; nextNode := nextNode page_dom |}.

(** The libraries without the tokenizer. *)
Definition no_splitType : Gsap.libraries :=
  {| Gsap.gsap_defined := true; Gsap.scrollTrigger_defined := true;
     Gsap.splitType := None |}.

End Sample.

(** * Properties *)

(** ** closeMobileMenu *)

Section CloseMenu.

Variables (d : document) (s : dom).

Lemma closeMobileMenu_absent :
  querySelector d ".w-nav-button" = None ->
  Touch.closeMobileMenu d s = [Call "closeMobileMenu"].
Proof. intros H. unfold Touch.closeMobileMenu. now rewrite H. Qed.

Lemma closeMobileMenu_closed (b : node) :
  querySelector d ".w-nav-button" = Some b ->
  (b, "w--open") ∉ classes s ->
  Touch.closeMobileMenu d s = [Call "closeMobileMenu"].
Proof.
  intros H Hc. unfold Touch.closeMobileMenu, classList_contains. rewrite H.
  now rewrite bool_decide_eq_false_2.
Qed.

Lemma closeMobileMenu_open (b : node) :
  querySelector d ".w-nav-button" = Some b ->
  (b, "w--open") ∈ classes s ->
  Touch.closeMobileMenu d s = [Call "closeMobileMenu"; Click b].
Proof.
  intros H Hc. unfold Touch.closeMobileMenu, classList_contains. rewrite H.
  now rewrite bool_decide_eq_true_2.
Qed.

Lemma closeMobileMenu_called_once : calls "closeMobileMenu" (Touch.closeMobileMenu d s) = 1%nat.
Proof.
  unfold Touch.closeMobileMenu.
  destruct (querySelector d ".w-nav-button") as [b|]; [|reflexivity].
  destruct (classList_contains s b "w--open"); reflexivity.
Qed.

(** C9. A call of [closeMobileMenu] clicks a node exactly when that node is
    the menu button (the first match of [.w-nav-button]) and carries the
    class [w--open]; the call clicks at most once, and nothing at all when
    the button is absent or closed. *)
Theorem closeMobileMenu_clicks_only_open_button :
  (forall n : node,
      In (Click n) (Touch.closeMobileMenu d s) <->
      querySelector d ".w-nav-button" = Some n /\ (n, "w--open") ∈ classes s) /\
  (List.length (clicks (Touch.closeMobileMenu d s)) <= 1)%nat /\
  ((querySelector d ".w-nav-button" = None \/
    exists b, querySelector d ".w-nav-button" = Some b /\ (b, "w--open") ∉ classes s) <->
   clicks (Touch.closeMobileMenu d s) = []).
Proof.
  destruct (querySelector d ".w-nav-button") as [b|] eqn:Hq.
  - destruct (decide ((b, "w--open") ∈ classes s)) as [Hin|Hout].
    + rewrite (closeMobileMenu_open b Hq Hin).
      split; [intros n; split | split; [|split]].
      * intros [H|[H|[]]]; [discriminate | now inversion H; subst].
      * intros [H _]. inversion H; subst. right; now left.
      * simpl. lia.
      * intros [H|[b' [H Hn]]]; [discriminate|]. inversion H; subst. contradiction.
      * discriminate.
    + rewrite (closeMobileMenu_closed b Hq Hout).
      split; [intros n; split | split; [|split]].
      * intros [H|[]]; discriminate.
      * intros [H Hin]. inversion H; subst. contradiction.
      * simpl. lia.
      * reflexivity.
      * intros _. right. now exists b.
  - rewrite (closeMobileMenu_absent Hq).
    split; [intros n; split | split; [|split]].
    + intros [H|[]]; discriminate.
    + intros [H _]. discriminate.
    + simpl. lia.
    + reflexivity.
    + intros _. now left.
Qed.

End CloseMenu.

(** ** Swipe to close *)

Section MenuSwipe.

Variables (d : document) (s : dom).

Lemma menu_touchmove_keeps_start (v : Touch.menu_vars) (x y : Z) :
  Touch.touchStartX (Touch.menu_touchmove v x y) = Touch.touchStartX v /\
  Touch.touchStartY (Touch.menu_touchmove v x y) = Touch.touchStartY v.
Proof.
  unfold Touch.menu_touchmove.
  destruct (negb (Js.truthy (Touch.touchStartX v)) || negb (Js.truthy (Touch.touchStartY v)));
    [now split|].
  destruct (Z.abs (Touch.touchStartY v - y) >? Z.abs (Touch.touchStartX v - x)); now split.
Qed.

Lemma menu_moves_keep_start (ms : list (Z * Z)) (v : Touch.menu_vars) :
  Touch.touchStartX (Touch.menu_moves v ms) = Touch.touchStartX v.
Proof.
  revert v. induction ms as [|m ms IH]; intros v; [reflexivity|].
  unfold Touch.menu_moves in *. simpl. rewrite IH.
  apply menu_touchmove_keeps_start.
Qed.

Lemma menu_tracked_start (v : Touch.menu_vars) (g : Touch.session) :
  Touch.touchStartX (Touch.menu_tracked v g) = fst (Touch.s_start g).
Proof. unfold Touch.menu_tracked. now rewrite menu_moves_keep_start. Qed.

(** C3. In a touch sequence on the menu that is not classified as a
    vertical scroll, [closeMobileMenu] is entered once when the finger ends
    more than 100px to the left of where it started and not at all
    otherwise; the handler takes no time into account, and a swipe of 100px
    or less, or one to the right, has no effect whatever. What the close
    action does is part of the statement: a node is clicked exactly when the
    swipe is longer than 100px and the node is the menu button carrying
    [w--open]; so with the menu open the sequence clicks the button once
    when the swipe is longer than 100px and does nothing otherwise, and it
    never clicks twice. *)
Theorem menu_swipe_closes_iff_over_100 (v : Touch.menu_vars) (g : Touch.session) :
  Touch.isScrolling (Touch.menu_tracked v g) = false ->
  let tr := snd (Touch.menu_session d s v g) in
  let swipeDistance := fst (Touch.s_start g) - Touch.s_endX g in
  calls "closeMobileMenu" tr = (if swipeDistance >? 100 then 1 else 0)%nat /\
  (100 < swipeDistance -> tr = Touch.closeMobileMenu d s) /\
  (swipeDistance <= 100 -> tr = []) /\
  (forall n : node,
      In (Click n) tr <->
      100 < swipeDistance /\
      querySelector d ".w-nav-button" = Some n /\ (n, "w--open") ∈ classes s) /\
  (forall b : node,
      querySelector d ".w-nav-button" = Some b ->
      (b, "w--open") ∈ classes s ->
      tr = (if swipeDistance >? 100 then [Call "closeMobileMenu"; Click b] else []) /\
      clicks tr = (if swipeDistance >? 100 then [Click b] else [])) /\
  (List.length (clicks tr) <= 1)%nat.
Proof.
  intros Hs. unfold Touch.menu_session, Touch.menu_touchend.
  rewrite Hs, menu_tracked_start. cbn [snd].
  destruct (Z.gtb_spec (fst (Touch.s_start g) - Touch.s_endX g) 100) as [Hd|Hd].
  - split; [apply closeMobileMenu_called_once|].
    split; [reflexivity|]. split; [lia|].
    destruct (querySelector d ".w-nav-button") as [b|] eqn:Hq.
    + destruct (decide ((b, "w--open") ∈ classes s)) as [Hin|Hout].
      * rewrite (closeMobileMenu_open d s b Hq Hin).
        split; [intros n; split|split].
        -- intros [H|[H|[]]]; [discriminate|]. inversion H; subst. auto.
        -- intros [_ [H _]]. inversion H; subst. right; now left.
        -- intros b' H _. inversion H; subst. split; reflexivity.
        -- cbn. lia.
      * rewrite (closeMobileMenu_closed d s b Hq Hout).
        split; [intros n; split|split].
        -- intros [H|[]]; discriminate.
        -- intros [_ [H Hin]]. inversion H; subst. contradiction.
        -- intros b' H Hin. inversion H; subst. contradiction.
        -- cbn. lia.
    + rewrite (closeMobileMenu_absent d s Hq).
      split; [intros n; split|split].
      * intros [H|[]]; discriminate.
      * intros [_ [H _]]. discriminate.
      * intros b' H. discriminate.
      * cbn. lia.
  - split; [reflexivity|]. split; [lia|]. split; [reflexivity|].
    split; [intros n; split|split].
    + intros [].
    + intros [H _]. lia.
    + intros b _ _. split; reflexivity.
    + cbn. lia.
Qed.

End MenuSwipe.

Lemma menu_swipe_closes_iff_over_100_witness :
  Touch.isScrolling (Touch.menu_tracked Touch.menu_initial Sample.swipe120) = false /\
  querySelector Sample.page_document ".w-nav-button" = Some 1%nat /\
  (1%nat, "w--open") ∈ classes Sample.page_dom /\
  snd (Touch.menu_session Sample.page_document Sample.page_dom Touch.menu_initial
         Sample.swipe120) = [Call "closeMobileMenu"; Click 1%nat].
Proof.
  assert (Hopen : (1%nat, "w--open") ∈ classes Sample.page_dom).
  { unfold Sample.page_dom. cbn [classes]. apply elem_of_singleton_2. reflexivity. }
  split; [reflexivity|]. split; [reflexivity|]. split; [exact Hopen|].
  destruct (menu_swipe_closes_iff_over_100 Sample.page_document Sample.page_dom
              Touch.menu_initial Sample.swipe120 eq_refl) as (_ & _ & _ & _ & Hb & _).
  destruct (Hb 1%nat eq_refl Hopen) as [Htr _]. exact Htr.
Defined.

(** The two menu swipes of the specification. *)
Example menu_swipe_120 :
  Touch.menu_session Sample.page_document Sample.page_dom Touch.menu_initial Sample.swipe120
  = (Touch.menu_initial, [Call "closeMobileMenu"; Click 1%nat]).
Proof. vm_compute. reflexivity. Qed.

Example menu_swipe_90 :
  Touch.menu_session Sample.page_document Sample.page_dom Touch.menu_initial Sample.swipe90
  = (Touch.menu_initial, []).
Proof. vm_compute. reflexivity. Qed.

(** ** Slider swipe *)

Section SliderSwipe.

Variables (r : Touch.slider_refs) (s : dom).

(** No handler of the slider assigns [_touchStartTime]. *)
Lemma slider_touchstart_keeps_props (v : Touch.slider_vars) (x y : Z) :
  props (fst (Touch.slider_touchstart r s v x y)) = props s.
Proof.
  unfold Touch.slider_touchstart.
  destruct (attribute_is s (Touch.slider r) "data-autoplay" "true"); reflexivity.
Qed.

Lemma resetSliderTouch_keeps_props (v : Touch.slider_vars) :
  props (fst (fst (Touch.resetSliderTouch r s v))) = props s.
Proof.
  unfold Touch.resetSliderTouch.
  destruct (attribute_is s (Touch.slider r) "data-temp-autoplay" "true"); reflexivity.
Qed.

Lemma slider_touchend_keeps_props (v : Touch.slider_vars) (x now1 now2 : Z) :
  props (fst (fst (Touch.slider_touchend r s v x now1 now2))) = props s.
Proof.
  unfold Touch.slider_touchend.
  destruct (negb (Touch.isDragging v) || Touch.isVerticalScroll v);
    [apply resetSliderTouch_keeps_props|].
  pose proof (resetSliderTouch_keeps_props v) as H.
  destruct (Touch.resetSliderTouch r s v) as [[s' v'] tr]. exact H.
Qed.

(** With the property unset the elapsed time is the difference of two
    readings of the clock taken one after the other. *)
Lemma timeDiff_unset (now1 now2 : Z) :
  props s !! (Touch.slider r, "_touchStartTime") = None ->
  Touch.timeDiff r s now1 now2 = now1 - now2.
Proof. intros H. unfold Touch.timeDiff. now rewrite H. Qed.

(** The distance criterion: a displacement of more than 50px navigates,
    to the left arrow when it is positive and to the right one otherwise. *)
Lemma slider_navigate_far (v : Touch.slider_vars) (x now1 now2 : Z) :
  50 < Z.abs (x - Touch.startX v) ->
  Touch.slider_navigate r s v x now1 now2 = Touch.arrow_clicks r (x - Touch.startX v).
Proof.
  intros H. unfold Touch.slider_navigate, Touch.arrow_clicks, Touch.swipeThreshold.
  destruct (Z.gtb_spec (Z.abs (x - Touch.startX v)) 50); [reflexivity | lia].
Qed.

(** The velocity criterion as the code computes it: the start time is never
    stored, the elapsed time is zero, and every displacement other than zero
    has infinite velocity. *)
Lemma slider_navigate_unset_time (v : Touch.slider_vars) (x now : Z) :
  props s !! (Touch.slider r, "_touchStartTime") = None ->
  Touch.slider_navigate r s v x now now =
    if x - Touch.startX v =? 0 then [] else Touch.arrow_clicks r (x - Touch.startX v).
Proof.
  intros H. unfold Touch.slider_navigate, Touch.arrow_clicks, Touch.swipeThreshold.
  rewrite (timeDiff_unset now now H), Z.sub_diag. unfold Js.div. simpl (0 =? 0).
  cbv iota.
  destruct (Z.eqb_spec (x - Touch.startX v) 0) as [E|E].
  - rewrite E. reflexivity.
  - destruct (Z.eqb_spec (Z.abs (x - Touch.startX v)) 0) as [E'|E']; [lia|].
    destruct (Z.ltb_spec 0 (Z.abs (x - Touch.startX v))) as [L|L]; [|lia].
    simpl. now rewrite orb_true_r.
Qed.

End SliderSwipe.

(** C1. The slider swipe of the specification that is to do nothing, 40px to
    the right over 200ms: the elapsed time the touch-end handler computes is
    zero, the velocity infinite, and the handler clicks the left arrow (5). *)
Theorem slider_slow_short_swipe_navigates :
  snd (Touch.slider_session Sample.slider3 Sample.page_dom Touch.slider_initial
         Sample.right40 1000 1200)
  = [PreventDefault; Click 5%nat; Call "resetSliderTouch"] /\
  Touch.timeDiff Sample.slider3 Sample.page_dom 1200 1200 = 0 /\
  Js.div (Z.abs (140 - 100)) 0 = Js.PosInf /\
  Js.gt Js.PosInf Touch.swipeVelocityThreshold = true /\
  (Z.abs (140 - 100) >? Touch.swipeThreshold) = false.
Proof. vm_compute. repeat split; reflexivity. Qed.

(** The other swipe of the specification, 60px to the left over 80ms, clicks
    the right arrow (6). *)
Example slider_fast_swipe_navigates :
  snd (Touch.slider_session Sample.slider3 Sample.page_dom Touch.slider_initial
         Sample.left60 1000 1080)
  = [PreventDefault; Click 6%nat; Call "resetSliderTouch"].
Proof. vm_compute. reflexivity. Qed.

(** ** Resetting the tracking variables *)

Section Reset.

Variables (d : document) (r : Touch.slider_refs) (s : dom).

Lemma resetSliderTouch_marker (v : Touch.slider_vars) :
  getAttribute (fst (fst (Touch.resetSliderTouch r s v))) (Touch.slider r)
    "data-temp-autoplay" <> Some "true".
Proof.
  unfold Touch.resetSliderTouch, attribute_is. cbn [fst].
  destruct (bool_decide_reflect
              (getAttribute s (Touch.slider r) "data-temp-autoplay" = Some "true")) as [E|E].
  - unfold getAttribute, removeAttribute, with_attrs. cbn [attrs].
    rewrite lookup_delete_eq. discriminate.
  - exact E.
Qed.

Lemma resetSliderTouch_restores (v : Touch.slider_vars) :
  getAttribute s (Touch.slider r) "data-temp-autoplay" = Some "true" ->
  getAttribute (fst (fst (Touch.resetSliderTouch r s v))) (Touch.slider r)
    "data-autoplay" = Some "true".
Proof.
  intros H. unfold Touch.resetSliderTouch, attribute_is. cbn [fst].
  rewrite bool_decide_eq_true_2 by exact H.
  unfold getAttribute, removeAttribute, setAttribute, with_attrs. cbn [attrs].
  rewrite lookup_delete_ne by (intros E; inversion E).
  apply lookup_insert_eq.
Qed.

Lemma slider_touchend_resets (v : Touch.slider_vars) (x now1 now2 : Z) :
  exists nav,
    Touch.slider_touchend r s v x now1 now2 =
      (fst (fst (Touch.resetSliderTouch r s v)),
       snd (fst (Touch.resetSliderTouch r s v)),
       nav ++ [Call "resetSliderTouch"]) /\
    calls "resetSliderTouch" nav = 0%nat.
Proof.
  unfold Touch.slider_touchend.
  destruct (negb (Touch.isDragging v) || Touch.isVerticalScroll v).
  - exists []. split; reflexivity.
  - exists (Touch.slider_navigate r s v x now1 now2). split; [reflexivity|].
    unfold Touch.slider_navigate, Touch.arrow_clicks, Touch.click_if_present.
    repeat match goal with |- context [if ?c then _ else _] => destruct c end;
      repeat match goal with |- context [match ?o with Some _ => _ | None => _ end] =>
               destruct o end; reflexivity.
Qed.

(** C2, as the code has it. Every touch-end on a slider, whatever the
    session was (dragging or not, vertical scroll or not), enters
    [resetSliderTouch] exactly once; afterwards the dragging flag and the
    vertical-scroll flag are false, the autoplay marker is no longer
    ['true'] and [data-autoplay] is back to ['true'] if the marker was set;
    the start coordinates stay as they were. On the menu, the touch-end of a
    session that is not classified as a vertical scroll sets the start
    coordinates, the end coordinate and the scrolling flag back to their
    initial values. *)
Theorem touchend_resets_tracking
    (v : Touch.slider_vars) (x now1 now2 : Z) (m : Touch.menu_vars) (endX : Z) :
  (let '(s', v', tr) := Touch.slider_touchend r s v x now1 now2 in
   calls "resetSliderTouch" tr = 1%nat /\
   Touch.isDragging v' = false /\
   Touch.isVerticalScroll v' = false /\
   getAttribute s' (Touch.slider r) "data-temp-autoplay" <> Some "true" /\
   (getAttribute s (Touch.slider r) "data-temp-autoplay" = Some "true" ->
    getAttribute s' (Touch.slider r) "data-autoplay" = Some "true") /\
   Touch.startX v' = Touch.startX v /\ Touch.startY v' = Touch.startY v) /\
  (Touch.isScrolling m = false ->
   fst (Touch.menu_touchend d s m endX) =
     {| Touch.touchStartX := 0; Touch.touchStartY := 0; Touch.touchEndX := 0;
        Touch.touchEndY := Touch.touchEndY m; Touch.isScrolling := false |}).
Proof.
  split.
  - destruct (slider_touchend_resets v x now1 now2) as [nav [E Hnav]]. rewrite E.
    split; [|split; [reflexivity | split; [reflexivity | split; [|split; [|split]]]]].
    + unfold calls in *. rewrite List.filter_app, List.length_app, Hnav. reflexivity.
    + apply resetSliderTouch_marker.
    + apply resetSliderTouch_restores.
    + reflexivity.
    + reflexivity.
  - intros H. unfold Touch.menu_touchend. rewrite H. reflexivity.
Qed.

End Reset.

Lemma touchend_resets_tracking_witness :
  Touch.isScrolling (Touch.menu_tracked Touch.menu_initial Sample.swipe90) = false /\
  fst (Touch.menu_touchend Sample.page_document Sample.page_dom
         (Touch.menu_tracked Touch.menu_initial Sample.swipe90) 210) = Touch.menu_initial.
Proof.
  split; [reflexivity|].
  apply (touchend_resets_tracking Sample.page_document Sample.slider3 Sample.page_dom
           Touch.slider_initial 0 0 0
           (Touch.menu_tracked Touch.menu_initial Sample.swipe90) 210).
  reflexivity.
Defined.

(** C2 as stated fails twice. A session on the menu that is classified as a
    vertical scroll ends with the start coordinates and the scrolling flag as
    the moves left them: the touch-end handler returns before its reset. And
    a session on a slider ends with the start coordinates of its touch-start:
    [resetSliderTouch] does not assign them. *)
Lemma reset_leaves_tracking_fields :
  fst (Touch.menu_session Sample.page_document Sample.page_dom Touch.menu_initial
         Sample.scroll_down)
  = {| Touch.touchStartX := 100; Touch.touchStartY := 100; Touch.touchEndX := 0;
       Touch.touchEndY := 0; Touch.isScrolling := true |} /\
  snd (fst (Touch.slider_session Sample.slider3 Sample.page_dom Touch.slider_initial
              Sample.left60 1000 1080))
  = {| Touch.startX := 200; Touch.startY := 50; Touch.currentX := 170;
       Touch.isDragging := false; Touch.isVerticalScroll := false |}.
Proof. split; vm_compute; reflexivity. Qed.

(** ** Ripple *)

Lemma styles_setStyle_eq (n : node) (k : string) (v : cssval) (s : dom) :
  styles (setStyle n k v s) !! (n, k) = Some v.
Proof. unfold setStyle, with_styles. cbn [styles]. apply lookup_insert_eq. Qed.

Lemma styles_setStyle_ne (n n' : node) (k k' : string) (v : cssval) (s : dom) :
  (n, k) <> (n', k') ->
  styles (setStyle n k v s) !! (n', k') = styles s !! (n', k').
Proof.
  intros H. unfold setStyle, with_styles. cbn [styles]. now apply lookup_insert_ne.
Qed.

Section Ripple.

Variables (l : Touch.layout) (element : node) (clientX clientY : Q) (s : dom).

Lemma ripple_centred (rect : Touch.DOMRect) (x y : Q) :
  (Touch.ripple_x rect x + Touch.ripple_size rect / 2 == x - Touch.rect_left rect)%Q /\
  (Touch.ripple_y rect y + Touch.ripple_size rect / 2 == y - Touch.rect_top rect)%Q.
Proof. unfold Touch.ripple_x, Touch.ripple_y. split; field. Qed.

Lemma ripple_size_longer (rect : Touch.DOMRect) :
  (Touch.rect_width rect <= Touch.ripple_size rect)%Q /\
  (Touch.rect_height rect <= Touch.ripple_size rect)%Q /\
  (Touch.ripple_size rect = Touch.rect_width rect \/
   Touch.ripple_size rect = Touch.rect_height rect).
Proof.
  unfold Touch.ripple_size. split; [apply Q.le_max_l | split; [apply Q.le_max_r|]].
  unfold Qmax, GenericMinMax.gmax.
  destruct (Touch.rect_width rect ?= Touch.rect_height rect)%Q; auto.
Qed.

(** The timer callback cannot throw: it asks the parent it has just read to
    remove the node; without a parent it changes nothing. *)
Lemma removeRipple_safe (ripple : node) (s0 : dom) :
  exists s1, Touch.removeRipple ripple s0 = inr s1 /\
             parentNode s1 !! ripple = None /\
             (parentNode s0 !! ripple = None -> s1 = s0).
Proof.
  unfold Touch.removeRipple. destruct (parentNode s0 !! ripple) as [p|] eqn:Hp.
  - unfold removeChild. rewrite bool_decide_eq_true_2 by exact Hp.
    eexists; split; [reflexivity|]. split; [|discriminate].
    unfold detach, with_tree. cbn [parentNode]. apply lookup_delete_eq.
  - exists s0. auto.
Qed.

Lemma removeRipple_unlinks (ripple p : node) (s0 s1 : dom) :
  parentNode s0 !! ripple = Some p ->
  Touch.removeRipple ripple s0 = inr s1 ->
  ~ In ripple (children s1 p).
Proof.
  intros Hp. unfold Touch.removeRipple, removeChild. rewrite Hp.
  rewrite bool_decide_eq_true_2 by reflexivity. intros E. inversion E; subst.
  unfold children at 1, detach, with_tree. cbn [childNodes].
  rewrite lookup_insert_eq. cbn [default].
  intros H. apply List.filter_In in H. destruct H as [_ H].
  now rewrite Nat.eqb_refl in H.
Qed.

(** C6. A touch-start on an element with ripple feedback appends one new
    node to the children of that element and to no other; the node is a
    square whose side is the longer side of the element's bounding box and
    whose centre, in the element's box, is the touch point; one timer of
    600ms is set for its removal. Whenever that timer fires it returns
    without throwing and leaves the ripple without a parent, and it changes
    nothing if the ripple has no parent by then. *)
Theorem ripple_appended_once_and_removed :
  parentNode s !! nextNode s = None ->
  let rect := Touch.getBoundingClientRect l element in
  let '(ripple, s', tr) := Touch.feedback_touchstart l element clientX clientY s in
  ripple = nextNode s /\
  children s' element = children s element ++ [ripple] /\
  (forall n, n <> element -> children s' n = children s n) /\
  parentNode s' !! ripple = Some element /\
  styles s' !! (ripple, "width") = Some (CssPx (Touch.ripple_size rect)) /\
  styles s' !! (ripple, "height") = Some (CssPx (Touch.ripple_size rect)) /\
  styles s' !! (ripple, "left") = Some (CssPx (Touch.ripple_x rect clientX)) /\
  styles s' !! (ripple, "top") = Some (CssPx (Touch.ripple_y rect clientY)) /\
  (Touch.rect_width rect <= Touch.ripple_size rect)%Q /\
  (Touch.rect_height rect <= Touch.ripple_size rect)%Q /\
  (Touch.ripple_size rect = Touch.rect_width rect \/
   Touch.ripple_size rect = Touch.rect_height rect) /\
  (Touch.ripple_x rect clientX + Touch.ripple_size rect / 2
   == clientX - Touch.rect_left rect)%Q /\
  (Touch.ripple_y rect clientY + Touch.ripple_size rect / 2
   == clientY - Touch.rect_top rect)%Q /\
  tr = [SetTimeout (RemoveRipple ripple) 600] /\
  (forall s0 : dom,
      exists s1, Touch.removeRipple ripple s0 = inr s1 /\
                 parentNode s1 !! ripple = None /\
                 (parentNode s0 !! ripple = None -> s1 = s0)) /\
  (forall s1, Touch.removeRipple ripple s' = inr s1 -> ~ In ripple (children s1 element)).
Proof.
  intros Hfresh rect.
  unfold Touch.feedback_touchstart, Touch.createRippleEffect, createElement.
  fold rect.
  set (s3 := if String.eqb (Touch.computedPosition l element) "static" then _ else _).
  assert (Htree : parentNode s3 = parentNode s /\ childNodes s3 = childNodes s).
  { subst s3. destruct (String.eqb _ _); split; reflexivity. }
  destruct Htree as [Hp Hc].
  assert (Hstyle : forall k v,
             styles (Touch.ripple_cssText (nextNode s) rect clientX clientY
                       {| classes := classes s; attrs := attrs s; styles := styles s;
                          props := props s; textContent := textContent s;
                          parentNode := parentNode s; childNodes := childNodes s;
                          nextNode := S (nextNode s) |}) !! (nextNode s, k) = Some v ->
             k <> "position" ->
             styles s3 !! (nextNode s, k) = Some v).
  { intros k v H Hk. subst s3. destruct (String.eqb _ _); [|exact H].
    rewrite styles_setStyle_ne by (intros E; inversion E; congruence). exact H. }
  assert (Happ : appendChild element (nextNode s) s3 =
                 with_tree (<[ nextNode s := element ]> (parentNode s3))
                           (<[ element := children s3 element ++ [nextNode s] ]>
                              (childNodes s3)) s3).
  { unfold appendChild.
    replace (parentNode s3 !! nextNode s) with (@None node)
      by (now rewrite Hp, Hfresh).
    reflexivity. }
  rewrite Happ.
  assert (Hch : forall n, children s3 n = children s n).
  { intros n. unfold children. now rewrite Hc. }
  split; [reflexivity|]. split.
  { unfold children at 1, classList_add, with_classes, with_tree. cbn [childNodes].
    rewrite lookup_insert_eq. cbn [default]. now rewrite Hch. }
  split.
  { intros n Hn. unfold children at 1, classList_add, with_classes, with_tree.
    cbn [childNodes]. rewrite lookup_insert_ne by congruence. apply Hch. }
  split.
  { unfold classList_add, with_classes, with_tree. cbn [parentNode].
    apply lookup_insert_eq. }
  assert (Hst : forall k v,
             styles s3 !! (nextNode s, k) = Some v ->
             styles (classList_add element "touch-pressed"
                       (with_tree (<[ nextNode s := element ]> (parentNode s3))
                          (<[ element := children s3 element ++ [nextNode s] ]>
                             (childNodes s3)) s3)) !! (nextNode s, k) = Some v).
  { intros k v H. exact H. }
  split; [apply Hst, Hstyle; [|discriminate]|].
  { unfold Touch.ripple_cssText.
    repeat (rewrite styles_setStyle_ne by (intros E; inversion E)).
    apply styles_setStyle_eq. }
  split; [apply Hst, Hstyle; [|discriminate]|].
  { unfold Touch.ripple_cssText.
    repeat (rewrite styles_setStyle_ne by (intros E; inversion E)).
    apply styles_setStyle_eq. }
  split; [apply Hst, Hstyle; [|discriminate]|].
  { unfold Touch.ripple_cssText.
    repeat (rewrite styles_setStyle_ne by (intros E; inversion E)).
    apply styles_setStyle_eq. }
  split; [apply Hst, Hstyle; [|discriminate]|].
  { unfold Touch.ripple_cssText.
    repeat (rewrite styles_setStyle_ne by (intros E; inversion E)).
    apply styles_setStyle_eq. }
  destruct (ripple_size_longer rect) as [Hw [Hh Hor]].
  destruct (ripple_centred rect clientX clientY) as [Hx Hy].
  split; [exact Hw|]. split; [exact Hh|]. split; [exact Hor|].
  split; [exact Hx|]. split; [exact Hy|]. split; [reflexivity|].
  split; [intros s0; apply removeRipple_safe|].
  intros s1 H. eapply removeRipple_unlinks; [|exact H].
  unfold classList_add, with_classes, with_tree. cbn [parentNode].
  apply lookup_insert_eq.
Qed.

End Ripple.

Lemma ripple_appended_once_and_removed_witness :
  parentNode Sample.page_dom !! nextNode Sample.page_dom = None /\
  let '(ripple, s', tr) :=
    Touch.feedback_touchstart Sample.page_layout 7%nat 50%Q 30%Q Sample.page_dom in
  children s' 7%nat = children Sample.page_dom 7%nat ++ [ripple].
Proof.
  split; [reflexivity|].
  pose proof (ripple_appended_once_and_removed Sample.page_layout 7%nat 50%Q 30%Q
                Sample.page_dom eq_refl) as H.
  cbv zeta in H.
  destruct (Touch.feedback_touchstart Sample.page_layout 7%nat 50%Q 30%Q Sample.page_dom)
    as [[ripple s'] tr].
  exact (proj1 (proj2 H)).
Defined.

(** ** Scroll throttle *)

Section ScrollThrottle.

Variable d : document.

Lemma last_cons_default {A : Type} (ys : list A) :
  forall y d0 : A, List.last (y :: ys) d0 = List.last ys y.
Proof.
  induction ys as [|a ys IH]; intros y d0; [reflexivity|].
  change (List.last (a :: ys) d0 = List.last (a :: ys) y).
  now rewrite (IH a d0), (IH a y).
Qed.

Lemma scroll_step_invariant (st : Touch.scroll_state) (e : Touch.browser_event) :
  Touch.scroll_idle st \/ Touch.scroll_waiting st ->
  Touch.scroll_idle (Touch.scroll_step d st e) \/
  Touch.scroll_waiting (Touch.scroll_step d st e).
Proof.
  unfold Touch.scroll_idle, Touch.scroll_waiting.
  intros [[Ht Hp]|[Ht Hp]]; destruct e as [y|]; cbn [Touch.scroll_step];
    unfold Touch.scroll_listener; cbn [Touch.ticking Touch.pending];
    rewrite Ht, Hp; cbn; auto.
Qed.

Lemma scroll_run_invariant (es : list Touch.browser_event) (st : Touch.scroll_state) :
  Touch.scroll_idle st \/ Touch.scroll_waiting st ->
  Touch.scroll_idle (Touch.scroll_run d st es) \/
  Touch.scroll_waiting (Touch.scroll_run d st es).
Proof.
  revert st. induction es as [|e es IH]; intros st H; [exact H|].
  unfold Touch.scroll_run in *. cbn [fold_left]. apply IH, scroll_step_invariant, H.
Qed.

(** Scroll events on a waiting state only move the offset. *)
Lemma scrolls_while_waiting (ys : list Z) (st : Touch.scroll_state) :
  Touch.scroll_waiting st ->
  Touch.scroll_run d st (map Touch.Scroll ys) =
    {| Touch.pageYOffset := List.last ys (Touch.pageYOffset st); Touch.ticking := true;
       Touch.pending := [UpdateScrollPosition]; Touch.updates := Touch.updates st;
       Touch.page := Touch.page st |}.
Proof.
  revert st. induction ys as [|y ys IH]; intros st [Ht Hp].
  - destruct st; cbn in *. now subst.
  - unfold Touch.scroll_run in *. cbn [map fold_left Touch.scroll_step].
    unfold Touch.scroll_listener. cbn [Touch.ticking]. rewrite Ht. cbn [negb].
    rewrite IH by (split; [reflexivity | exact Hp]).
    cbn [Touch.pageYOffset Touch.updates Touch.page].
    now rewrite last_cons_default.
Qed.

Lemma scrolls_from_idle (y : Z) (ys : list Z) (st : Touch.scroll_state) :
  Touch.scroll_idle st ->
  Touch.scroll_run d st (map Touch.Scroll (y :: ys)) =
    {| Touch.pageYOffset := List.last (y :: ys) 0; Touch.ticking := true;
       Touch.pending := [UpdateScrollPosition]; Touch.updates := Touch.updates st;
       Touch.page := Touch.page st |}.
Proof.
  intros [Ht Hp].
  change (Touch.scroll_run d st (map Touch.Scroll (y :: ys)))
    with (Touch.scroll_run d (Touch.scroll_step d st (Touch.Scroll y))
            (map Touch.Scroll ys)).
  cbn [Touch.scroll_step]. unfold Touch.scroll_listener. cbn [Touch.ticking].
  rewrite Ht. cbn [negb Touch.pageYOffset Touch.pending Touch.updates Touch.page].
  rewrite Hp. cbn [app].
  rewrite scrolls_while_waiting by (split; reflexivity).
  cbn [Touch.pageYOffset Touch.updates Touch.page].
  now rewrite last_cons_default.
Qed.

(** Once the listener is registered: from a state in which no frame
    callback is outstanding, any number [N >= 1] of scroll events followed
    by the animation frame runs
    [updateScrollPosition] once: the class [scrolled] is on [body] afterwards
    exactly when the offset of the last scroll event exceeds 100, the flag
    is cleared and nothing is left requested. Between the events one
    callback is requested, and along every sequence of scroll events and
    frames never more than one. *)
Lemma scroll_run_one_update (st : Touch.scroll_state) (ys : list Z) :
  Touch.ticking st = false ->
  Touch.pending st = [] ->
  ys <> [] ->
  let st' := Touch.scroll_run d st (map Touch.Scroll ys ++ [Touch.AnimationFrame]) in
  Touch.updates st' = S (Touch.updates st) /\
  ((doc_body d, "scrolled") ∈ classes (Touch.page st') <-> 100 < List.last ys 0) /\
  (forall c, c <> (doc_body d, "scrolled") ->
             (c ∈ classes (Touch.page st') <-> c ∈ classes (Touch.page st))) /\
  Touch.ticking st' = false /\
  Touch.pending st' = [] /\
  Touch.pending (Touch.scroll_run d st (map Touch.Scroll ys)) = [UpdateScrollPosition] /\
  (forall es, (List.length (Touch.pending (Touch.scroll_run d st es)) <= 1)%nat).
Proof.
  intros Ht Hp Hys st'. destruct ys as [|y ys]; [congruence|].
  assert (Hidle : Touch.scroll_idle st) by (split; assumption).
  subst st'. unfold Touch.scroll_run at 1 2 3 4 5. rewrite fold_left_app.
  fold (Touch.scroll_run d st (map Touch.Scroll (y :: ys))).
  rewrite (scrolls_from_idle y ys st Hidle).
  cbn [fold_left Touch.scroll_step Touch.pending Touch.updateScrollPosition
       Touch.updates Touch.page Touch.ticking Touch.pageYOffset].
  split; [reflexivity|]. split; [|split; [|split; [reflexivity|split; [reflexivity|split;
    [reflexivity|]]]]].
  - destruct (Z.gtb_spec (List.last (y :: ys) 0) 100) as [H|H];
      unfold classList_add, classList_remove, with_classes; cbn [classes].
    + split; [intros _; lia | intros _].
      apply elem_of_union_l, elem_of_singleton_2. reflexivity.
    + split; [intros Hin | lia].
      apply elem_of_difference in Hin. destruct Hin as [_ Hn].
      exfalso. apply Hn, elem_of_singleton_2. reflexivity.
  - intros c Hc.
    destruct (List.last (y :: ys) 0 >? 100);
      unfold classList_add, classList_remove, with_classes; cbn [classes].
    + rewrite elem_of_union, elem_of_singleton. intuition.
    + rewrite elem_of_difference, elem_of_singleton. intuition.
  - intros es. destruct (scroll_run_invariant es st (or_introl Hidle)) as [[_ E]|[_ E]];
      rewrite E; cbn; lia.
Qed.

End ScrollThrottle.

(** ** Initialisation *)

Section Returns.

Lemma returns_ret {A : Type} (a : A) : returns (ret a).
Proof. intros s. reflexivity. Qed.

Lemma returns_emit (e : effect) : returns (emit e).
Proof. intros s. reflexivity. Qed.

Lemma returns_modify (f : dom -> dom) : returns (modify f).
Proof. intros s. reflexivity. Qed.

Lemma returns_bind {A B : Type} (m : M A) (k : A -> M B) :
  returns m -> (forall a, returns (k a)) -> returns (bind m k).
Proof.
  intros Hm Hk s. unfold bind, returned. specialize (Hm s). unfold returned in Hm.
  destruct (o_val (m s)) as [e|a]; [discriminate|]. cbn. apply (Hk a).
Qed.

Lemma returns_forEach {B : Type} (l : list B) (f : B -> M unit) :
  (forall x, returns (f x)) -> returns (forEach l f).
Proof.
  intros Hf. induction l as [|x l IH]; cbn [forEach].
  - apply returns_ret.
  - apply returns_bind; [apply Hf | intros _; exact IH].
Qed.

Lemma returns_when (c : bool) (m : M unit) : returns m -> returns (when c m).
Proof. intros H. destruct c; [exact H | apply returns_ret]. Qed.

Lemma bind_throws_later {A B : Type} (m : M A) (k : A -> M B) (e : exn) :
  returns m -> (forall a s, o_val (k a s) = inl e) ->
  forall s, o_val (bind m k s) = inl e.
Proof.
  intros Hm Hk s. unfold bind. specialize (Hm s). unfold returned in Hm.
  destruct (o_val (m s)) as [e'|a]; [discriminate|]. cbn. apply Hk.
Qed.

Lemma bind_throws_now {A B : Type} (m : M A) (k : A -> M B) (e : exn) (s : dom) :
  o_val (m s) = inl e -> o_val (bind m k s) = inl e.
Proof. intros H. unfold bind. now rewrite H. Qed.

End Returns.

Create HintDb js.

#[local] Hint Resolve returns_ret returns_emit returns_modify returns_bind
  returns_forEach returns_when : js.

Section Init.

Variables (w : Touch.window_env) (d : document).

Lemma setupTouchFeedback_returns : returns (Touch.setupTouchFeedback d).
Proof. unfold Touch.setupTouchFeedback, Touch.listen. auto 10 with js. Qed.

Lemma setupSwipeGestures_returns : returns (Touch.setupSwipeGestures d).
Proof.
  unfold Touch.setupSwipeGestures. apply returns_bind.
  - destruct (querySelector d ".mobile-menu");
      unfold Touch.setupSwipeToClose, Touch.listen; auto 10 with js.
  - intros _. apply returns_bind; [|intros _]; apply returns_forEach; intros x.
    + unfold Touch.setupSliderSwipe, Touch.listen.
      destruct (querySelectorIn d x ".w-slider-mask"); auto 10 with js.
    + unfold Touch.setupImageSwipe, Touch.listen. auto 10 with js.
Qed.

Lemma setupMobileMenuEnhancements_returns : returns (Touch.setupMobileMenuEnhancements d).
Proof.
  unfold Touch.setupMobileMenuEnhancements, Touch.listen. apply returns_bind.
  - destruct (querySelector d ".w-nav-button"); auto 10 with js.
  - intros _. destruct (querySelector d ".mobile-menu"); auto with js.
Qed.

Lemma setupFormOptimizations_returns : returns (Touch.setupFormOptimizations w d).
Proof. unfold Touch.setupFormOptimizations, Touch.listen. auto 10 with js. Qed.

(** On a touch device, unless another script defines a global
    [setupImageGalleryTouch], the initialisation ends in a ReferenceError
    after the form set-up: the scroll listener is never registered. *)
Lemma initTouchEnhancements_throws (s : dom) :
  Touch.isTouchDevice w = true ->
  Touch.global_setupImageGalleryTouch w = None ->
  o_val (Touch.initTouchEnhancements w d s)
  = inl (ReferenceError "setupImageGalleryTouch is not defined").
Proof.
  intros Ht Hg. unfold Touch.initTouchEnhancements. rewrite Ht. cbn [negb].
  revert s.
  apply bind_throws_later; [apply returns_modify | intros _].
  apply bind_throws_later; [apply setupTouchFeedback_returns | intros _].
  apply bind_throws_later; [apply setupSwipeGestures_returns | intros _].
  apply bind_throws_later; [apply setupMobileMenuEnhancements_returns | intros _].
  apply bind_throws_later; [apply setupFormOptimizations_returns | intros _].
  intros s. apply bind_throws_now. unfold Touch.setupImageGalleryTouch.
  now rewrite Hg.
Qed.

Lemma initTouchEnhancements_no_touch (s : dom) :
  Touch.isTouchDevice w = false ->
  Touch.initTouchEnhancements w d s = Outcome s [] (inr tt).
Proof. intros H. unfold Touch.initTouchEnhancements. now rewrite H. Qed.

(** C10. Without touch capability [initTouchEnhancements] returns at once:
    the page and the trace are as before, so no listener, no class on
    [body], no feature. Loading the script all the same creates one style
    node, gives it the ripple style sheet and appends it to [head], whether
    the script runs after the document is ready or waits for
    DOMContentLoaded; classes, attributes and inline styles are untouched
    and the only listener is the one for DOMContentLoaded. *)
Theorem no_touch_only_ripple_styles (s : dom) :
  Touch.ontouchstart_in_window w = false ->
  Touch.maxTouchPoints w = Some 0 ->
  Touch.initTouchEnhancements w d s = Outcome s [] (inr tt) /\
  let '(s', tr) := Touch.load w d s in
  tr = (if Touch.readyState_loading w
        then [AddEventListener OnDocument "DOMContentLoaded" OnDomContentLoaded false]
        else []) ++ [DefineGlobal "TouchEnhancements"] /\
  classes s' = classes s /\ attrs s' = attrs s /\ styles s' = styles s /\
  textContent s' !! nextNode s = Some Touch.rippleStyles /\
  parentNode s' !! nextNode s = Some (doc_head d) /\
  (exists before, children s' (doc_head d) = before ++ [nextNode s]) /\
  nextNode s' = S (nextNode s).
Proof.
  intros Hno Hmax.
  assert (Hdev : Touch.isTouchDevice w = false).
  { unfold Touch.isTouchDevice. now rewrite Hno, Hmax. }
  split; [now apply initTouchEnhancements_no_touch|].
  assert (Hstyles : forall s0,
             let s1 := o_dom (Touch.addRippleStyles d s0) in
             classes s1 = classes s0 /\ attrs s1 = attrs s0 /\ styles s1 = styles s0 /\
             textContent s1 !! nextNode s0 = Some Touch.rippleStyles /\
             parentNode s1 !! nextNode s0 = Some (doc_head d) /\
             (exists before, children s1 (doc_head d) = before ++ [nextNode s0]) /\
             nextNode s1 = S (nextNode s0)).
  { intros s0. unfold Touch.addRippleStyles, createElement. cbn [o_dom].
    unfold appendChild, with_text. cbn [parentNode].
    destruct (parentNode s0 !! nextNode s0) as [q|];
      (split; [reflexivity|]; split; [reflexivity|]; split; [reflexivity|];
       split; [cbn; apply lookup_insert_eq|];
       split; [cbn; apply lookup_insert_eq|];
       split; [|reflexivity]);
      eexists; unfold children at 1, with_tree; cbn [childNodes];
      rewrite lookup_insert_eq; reflexivity. }
  assert (Hready : Touch.onDomContentLoaded w d s
                   = Outcome (o_dom (Touch.addRippleStyles d s)) [] (inr tt)).
  { unfold Touch.onDomContentLoaded, bind.
    rewrite (initTouchEnhancements_no_touch s Hdev). reflexivity. }
  unfold Touch.load, Touch.script. fold (Touch.onDomContentLoaded w d).
  destruct (Touch.readyState_loading w).
  - cbn [bind Touch.listen emit o_val o_dom o_trace app].
    rewrite Hready. cbn [o_val o_dom o_trace app].
    split; [reflexivity|]. apply (Hstyles s).
  - assert (Hscript : bind (Touch.onDomContentLoaded w d)
                        (fun _ => emit (DefineGlobal "TouchEnhancements")) s
                      = Outcome (o_dom (Touch.addRippleStyles d s))
                          [DefineGlobal "TouchEnhancements"] (inr tt)).
    { unfold bind. rewrite Hready. reflexivity. }
    rewrite Hscript. cbn [o_val o_dom o_trace app].
    split; [reflexivity|]. apply (Hstyles s).
Qed.

End Init.

Lemma no_touch_only_ripple_styles_witness :
  Touch.ontouchstart_in_window (Sample.desktop true) = false /\
  Touch.maxTouchPoints (Sample.desktop true) = Some 0 /\
  Touch.initTouchEnhancements (Sample.desktop true) Sample.page_document Sample.page_dom
  = Outcome Sample.page_dom [] (inr tt).
Proof.
  split; [reflexivity|]. split; [reflexivity|].
  apply (no_touch_only_ripple_styles (Sample.desktop true) Sample.page_document
           Sample.page_dom); reflexivity.
Defined.

(** The same page on a phone: the listeners up to the menu button are
    registered, then the run ends in the ReferenceError; no scroll listener,
    no style sheet, no export. *)
Example phone_load_stops_early :
  snd (Touch.load (Sample.phone false) Sample.page_document Sample.page_dom)
  = [ AddEventListener (OnNode 7%nat) "touchstart" (RippleTouchStart 7%nat) true;
      AddEventListener (OnNode 7%nat) "touchstart" (PressTouchStart 7%nat) true;
      AddEventListener (OnNode 7%nat) "touchend" (PressTouchEnd 7%nat) true;
      AddEventListener (OnNode 7%nat) "touchcancel" (PressTouchCancel 7%nat) true;
      AddEventListener (OnNode 2%nat) "touchstart" MenuTouchStart true;
      AddEventListener (OnNode 2%nat) "touchmove" MenuTouchMove true;
      AddEventListener (OnNode 2%nat) "touchend" MenuTouchEnd true;
      AddEventListener (OnNode 3%nat) "touchstart" (SliderTouchStart 3%nat) true;
      AddEventListener (OnNode 3%nat) "touchmove" (SliderTouchMove 3%nat) false;
      AddEventListener (OnNode 3%nat) "touchend" (SliderTouchEnd 3%nat) true;
      AddEventListener (OnNode 1%nat) "touchstart" MenuButtonHaptic true;
      Observe 2%nat (MenuStyleObserver 2%nat) ].
Proof. vm_compute. reflexivity. Qed.

(** ** Animation set-up *)

Lemma bind_ok {A B : Type} (m : M A) (k : A -> M B) (s s1 : dom) (t1 : list effect) (a : A) :
  m s = Outcome s1 t1 (inr a) ->
  bind m k s = Outcome (o_dom (k a s1)) (t1 ++ o_trace (k a s1)) (o_val (k a s1)).
Proof. intros H. unfold bind. rewrite H. reflexivity. Qed.

Lemma bind_throw {A B : Type} (m : M A) (k : A -> M B) (s s1 : dom) (t1 : list effect)
    (e : exn) :
  m s = Outcome s1 t1 (inl e) -> bind m k s = Outcome s1 t1 (inl e).
Proof. intros H. unfold bind. rewrite H. reflexivity. Qed.

Lemma outcome_eta {A : Type} (r : outcome A) : r = Outcome (o_dom r) (o_trace r) (o_val r).
Proof. destruct r; reflexivity. Qed.

Section WillChange.

Lemma addWillChange_elements (p : string) (l : list node) (s : dom) :
  Gsap.addWillChange (Gsap.elements_of l) p s = Outcome (Gsap.willChangeAll p l s) [] (inr tt).
Proof.
  revert s. induction l as [|a l IH]; intros s; [reflexivity|].
  unfold Gsap.addWillChange, Gsap.elements_of in *. cbn [map forEach].
  rewrite (bind_ok _ _ s (setStyle a "will-change" (CssText p) s) [] tt) by reflexivity.
  rewrite IH. reflexivity.
Qed.

Lemma willChangeAll_attrs (p : string) (l : list node) (s : dom) :
  attrs (Gsap.willChangeAll p l s) = attrs s.
Proof.
  revert s. induction l as [|a l IH]; intros s; [reflexivity|].
  unfold Gsap.willChangeAll in *. cbn [fold_left]. now rewrite IH.
Qed.

(** [createOptimizedScrollTrigger] cannot throw; it marks its elements and
    registers one tween, or does nothing for an empty list. *)
Lemma createOptimizedScrollTrigger_run (elems : list node) (f t : vars)
    (tp : Gsap.triggerProps) (s : dom) :
  exists tr,
    Gsap.createOptimizedScrollTrigger elems f t tp s
    = Outcome (Gsap.willChangeAll "transform, opacity" elems s) tr (inr tt) /\
    Forall (fun e => Gsap.is_tokenize e = false) tr /\
    (elems = [] -> tr = []).
Proof.
  destruct elems as [|first rest].
  - exists []. repeat split; constructor.
  - eexists. unfold Gsap.createOptimizedScrollTrigger.
    rewrite (bind_ok _ _ _ _ _ _ (addWillChange_elements _ _ _)).
    cbn [emit o_dom o_trace o_val app]. split; [reflexivity|]. split.
    + repeat constructor.
    + discriminate.
Qed.

Lemma when_nonempty_trigger (elems : list node) (f t : vars) (tp : Gsap.triggerProps) :
  when (Gsap.nonempty elems) (Gsap.createOptimizedScrollTrigger elems f t tp)
  = Gsap.createOptimizedScrollTrigger elems f t tp.
Proof. destruct elems; reflexivity. Qed.

End WillChange.

(** C4. When [gsap] or [ScrollTrigger] is undefined, the initialisation logs
    one warning and returns: the page is as it was and the trace holds the
    warning alone (no plugin registration, no tween, no timeline, no
    tokenization, no refresh). *)
Theorem missing_library_only_warns (lib : Gsap.libraries) (d : document) (s : dom) :
  Gsap.gsap_defined lib = false \/ Gsap.scrollTrigger_defined lib = false ->
  Gsap.initGSAPOptimizations lib d s
  = Outcome s
      [ConsoleWarn "GSAP or ScrollTrigger not loaded. Skipping optimized animations."]
      (inr tt).
Proof.
  intros [H|H]; unfold Gsap.initGSAPOptimizations; rewrite H.
  - reflexivity.
  - rewrite orb_true_r. reflexivity.
Qed.

Lemma missing_library_only_warns_witness :
  (Gsap.gsap_defined Sample.no_scrollTrigger = false \/
   Gsap.scrollTrigger_defined Sample.no_scrollTrigger = false) /\
  Gsap.initGSAPOptimizations Sample.no_scrollTrigger Sample.stats_document empty_dom
  = Outcome empty_dom
      [ConsoleWarn "GSAP or ScrollTrigger not loaded. Skipping optimized animations."]
      (inr tt).
Proof.
  split; [right; reflexivity|].
  apply (missing_library_only_warns Sample.no_scrollTrigger Sample.stats_document empty_dom).
  right. reflexivity.
Defined.

(** ** Groups without a match *)

Section EmptyGroups.

Variable d : document.

(** The groups that go through [createOptimizedScrollTrigger] and the stats
    blocks are skipped when nothing matches: no effect, no change. *)
Lemma animateImageConfig_empty (config : Gsap.imageConfig) (s : dom) :
  querySelectorAll d (Gsap.ic_selector config) = [] ->
  Gsap.animateImageConfig d config s = Outcome s [] (inr tt).
Proof. intros H. unfold Gsap.animateImageConfig. now rewrite H. Qed.

Lemma animateImageWrapper_empty (selector : string) (s : dom) :
  querySelectorAll d selector = [] ->
  Gsap.animateImageWrapper d selector s = Outcome s [] (inr tt).
Proof. intros H. unfold Gsap.animateImageWrapper. now rewrite H. Qed.

Lemma animateStats_empty (container : node) (s : dom) :
  querySelectorAllIn d container ".line" = [] ->
  querySelectorAllIn d container ".stats" = [] ->
  Gsap.animateStats d container s = Outcome s [] (inr tt).
Proof. intros H1 H2. unfold Gsap.animateStats. now rewrite H1, H2. Qed.

Lemma initOptimizedFooterAnimation_no_footer (s : dom) :
  querySelector d ".footer" = None ->
  Gsap.initOptimizedFooterAnimation d s = Outcome s [] (inr tt).
Proof. intros H. unfold Gsap.initOptimizedFooterAnimation. now rewrite H. Qed.

Lemma quiet_setWillChange (p : string) (el : jsval) :
  quiet Gsap.willChangeError (Gsap.setWillChange p el).
Proof. intros s. destruct el; cbn; auto. Qed.

Lemma quiet_forEach {B : Type} (e : exn) (l : list B) (f : B -> M unit) :
  (forall x, quiet e (f x)) -> quiet e (forEach l f).
Proof.
  intros Hf. induction l as [|a l IH]; intros s; cbn [forEach]; [cbn; auto|].
  unfold bind. destruct (Hf a s) as [Ht [Hv|Hv]]; rewrite Hv, Ht; cbn [o_trace o_val app].
  - apply IH.
  - auto.
Qed.

Lemma forEach_throws {B : Type} (e : exn) (l : list B) (f : B -> M unit) (x : B) :
  (forall y, quiet e (f y)) ->
  In x l ->
  (forall s, o_val (f x s) = inl e) ->
  forall s, o_val (forEach l f s) = inl e.
Proof.
  intros Hf Hin Hx. induction l as [|a l IH]; [contradiction|].
  intros s. cbn [forEach]. unfold bind.
  destruct (Hf a s) as [_ [Hv|Hv]]; rewrite Hv; cbn [o_val]; [|reflexivity].
  destruct Hin as [E|Hin]; [subst a; rewrite Hx in Hv; discriminate|].
  now apply IH.
Qed.

Lemma quiet_eachFooterElement (el : jsval) :
  quiet Gsap.willChangeError
    (Gsap.eachFooterElement (fun l => Gsap.addWillChange l "transform, opacity") el).
Proof.
  destruct el as [|n|[|x l]]; cbn [Gsap.eachFooterElement]; unfold Gsap.addWillChange;
    try (apply quiet_forEach; intros y; apply quiet_setWillChange).
  intros s. cbn. auto.
Qed.

(** A footer region that is looked up with [querySelectorAll] and matches
    nothing: the will-change loop throws a TypeError, and the footer set-up
    ends there, with nothing registered. *)
Lemma footer_empty_region_throws (footer : node) (sel : string) (s : dom) :
  querySelector d ".footer" = Some footer ->
  In sel Gsap.footerListRegions ->
  querySelectorAllIn d footer sel = [] ->
  o_val (Gsap.initOptimizedFooterAnimation d s) = inl Gsap.willChangeError /\
  o_trace (Gsap.initOptimizedFooterAnimation d s) = [].
Proof.
  intros Hf Hsel Hnone. unfold Gsap.initOptimizedFooterAnimation. rewrite Hf.
  set (body := Gsap.eachFooterElement (fun l => Gsap.addWillChange l "transform, opacity")).
  assert (Hin : In (VNodeList []) (Gsap.footerElements d footer)).
  { unfold Gsap.footerElements, Gsap.queryAll.
    cbn [Gsap.footerListRegions In] in Hsel.
    destruct Hsel as [E|[E|[E|[E|[E|[]]]]]]; subst sel; rewrite Hnone;
      cbn [In]; auto 12. }
  assert (Hthrow : o_val (forEach (Gsap.footerElements d footer) body s)
                   = inl Gsap.willChangeError).
  { apply (forEach_throws _ _ _ _ quiet_eachFooterElement Hin). intros s0. reflexivity. }
  destruct (quiet_forEach _ (Gsap.footerElements d footer) body quiet_eachFooterElement s)
    as [Htr _].
  rewrite (bind_throw _ _ s _ _ Gsap.willChangeError
             (eq_trans (outcome_eta _) (f_equal _ Hthrow))).
  cbn [o_val o_trace]. split; [reflexivity | exact Htr].
Qed.

End EmptyGroups.

(** C5. A page whose footer (1) holds a logo (2) and no [.download-text],
    next to a stats block (3) with one line: the run ends in the TypeError
    of the footer's will-change loop. The logo keeps the hint it was given,
    no timeline is made, neither for the footer nor for the stats block, and
    [ScrollTrigger.refresh] is not reached; without the footer the same page
    gets its stats timeline. *)
Theorem footer_region_without_match_throws :
  let r := Gsap.initGSAPOptimizations Sample.all_libraries Sample.footer_document empty_dom in
  let r' := Gsap.initGSAPOptimizations Sample.all_libraries Sample.stats_document empty_dom in
  querySelectorAllIn Sample.footer_document 1%nat ".download-text" = [] /\
  o_val r = inl Gsap.willChangeError /\
  o_trace r
  = [ GsapRegisterPlugin;
      GsapDefaults [("ease", "power2.out"); ("duration", "0.8")];
      NewSplitType 5%nat;
      GsapFrom [105%nat; 205%nat]
        [("opacity", "0"); ("y", "40"); ("skewY", "3"); ("stagger", "0.03");
         ("duration", "0.8"); ("ease", "power2.out")]
        {| st_trigger := TriggerNode 5%nat; st_start := "top 85%";
           st_toggleActions := Some "play none none none"; st_once := true |} ] /\
  styles (o_dom r) !! (2%nat, "will-change") = Some (CssText "transform, opacity") /\
  Gsap.count Gsap.is_timeline (o_trace r) = 0%nat /\
  o_val r' = inr tt /\
  o_trace r'
  = o_trace r ++
    [ GsapTimeline {| st_trigger := TriggerNode 3%nat; st_start := "top 80%";
                      st_toggleActions := Some "play none none none"; st_once := true |};
      TimelineFrom (VNodeList [4%nat])
        [("opacity", "0"); ("scaleX", "0"); ("transformOrigin", "left center");
         ("duration", "0.3"); ("stagger", "0.1"); ("ease", "power2.out")]
        None;
      ScrollTriggerRefresh ].
Proof. vm_compute. repeat split; reflexivity. Qed.

(** ** Word tokenization *)

Lemma count_app (q : effect -> bool) (a b : list effect) :
  Gsap.count q (a ++ b) = (Gsap.count q a + Gsap.count q b)%nat.
Proof. unfold Gsap.count. now rewrite List.filter_app, List.length_app. Qed.

Lemma count_none (q : effect -> bool) (tr : list effect) :
  Forall (fun e => q e = false) tr -> Gsap.count q tr = 0%nat.
Proof.
  induction 1 as [|e tr He _ IH]; [reflexivity|].
  unfold Gsap.count in *. cbn [List.filter]. now rewrite He.
Qed.

Lemma filter_none (q : effect -> bool) (tr : list effect) :
  Forall (fun e => q e = false) tr -> List.filter q tr = [].
Proof.
  induction 1 as [|e tr He _ IH]; [reflexivity|].
  cbn [List.filter]. now rewrite He.
Qed.

Section Tokenization.

Variables (lib : Gsap.libraries) (d : document).

Lemma splitDone_attrs (s s' : dom) (el : node) :
  attrs s = attrs s' -> Gsap.splitDone s el = Gsap.splitDone s' el.
Proof. intros H. unfold Gsap.splitDone, getAttribute. now rewrite H. Qed.

Lemma pending_split_attrs (s s' : dom) (el : node) :
  attrs s = attrs s' -> Gsap.pending_split s el = Gsap.pending_split s' el.
Proof. intros H. unfold Gsap.pending_split. now rewrite (splitDone_attrs s s' el H). Qed.

Lemma splitDone_marked (el x : node) (q : string) (l : list node) (s : dom) :
  Gsap.splitDone (Gsap.willChangeAll q l (setAttribute el "data-split-done" "true" s)) x
  = if Nat.eqb el x then true else Gsap.splitDone s x.
Proof.
  rewrite (splitDone_attrs _ (setAttribute el "data-split-done" "true" s))
    by apply willChangeAll_attrs.
  unfold Gsap.splitDone, getAttribute, setAttribute, with_attrs. cbn [attrs].
  destruct (Nat.eqb_spec el x) as [E|E].
  - subst. now rewrite lookup_insert_eq.
  - now rewrite lookup_insert_ne by congruence.
Qed.

(** The three ways the body of the heading loop can go. *)
Lemma animateHeading_done (el : node) (s : dom) :
  Gsap.splitDone s el = true ->
  Gsap.animateHeading lib el s = Outcome s [] (inr tt).
Proof. intros H. unfold Gsap.animateHeading, bind, gets. cbn. now rewrite H. Qed.

Lemma animateHeading_fresh (words : node -> list node) (el : node) (s : dom) :
  Gsap.splitType lib = Some words ->
  Gsap.splitDone s el = false ->
  Gsap.animateHeading lib el s
  = Outcome (Gsap.willChangeAll "transform, opacity" (words el)
               (setAttribute el "data-split-done" "true" s))
      [NewSplitType el; Gsap.wordAnimation el (words el)] (inr tt).
Proof.
  intros Hl H. unfold Gsap.animateHeading.
  rewrite (bind_ok _ _ s s [] false) by (unfold gets; now rewrite H).
  unfold Gsap.newSplitType. rewrite Hl.
  rewrite (bind_ok _ _ s s [NewSplitType el] (words el)) by reflexivity.
  rewrite (bind_ok _ _ s (setAttribute el "data-split-done" "true" s) [] tt) by reflexivity.
  rewrite (bind_ok _ _ _ _ _ _ (addWillChange_elements _ _ _)).
  reflexivity.
Qed.

Lemma animateHeading_missing (el : node) (s : dom) :
  Gsap.splitType lib = None ->
  Gsap.splitDone s el = false ->
  Gsap.animateHeading lib el s
  = Outcome s [] (inl (ReferenceError "SplitType is not defined")).
Proof.
  intros Hl H. unfold Gsap.animateHeading.
  rewrite (bind_ok _ _ s s [] false) by (unfold gets; now rewrite H).
  unfold Gsap.newSplitType. rewrite Hl. reflexivity.
Qed.

(** The groups after the headings mark and animate, and touch no
    attribute. *)
Lemma afterHeadings_run (s : dom) :
  exists s' tr,
    Gsap.afterHeadings d s = Outcome s' tr (inr tt) /\
    attrs s' = attrs s /\
    Forall (fun e => Gsap.is_tokenize e = false) tr.
Proof.
  unfold Gsap.afterHeadings, Gsap.animateFadeElements, Gsap.animateLogos.
  rewrite !when_nonempty_trigger.
  match goal with
  | |- context [bind (Gsap.createOptimizedScrollTrigger ?l ?f ?t ?tp) _ s] =>
      destruct (createOptimizedScrollTrigger_run l f t tp s) as [tr1 [E1 [F1 _]]]
  end.
  rewrite (bind_ok _ _ _ _ _ _ E1).
  match goal with
  | |- context [Gsap.createOptimizedScrollTrigger ?l ?f ?t ?tp ?s0] =>
      destruct (createOptimizedScrollTrigger_run l f t tp s0) as [tr2 [E2 [F2 _]]]
  end.
  rewrite E2. cbn [o_dom o_trace o_val].
  eexists _, _. split; [reflexivity|]. split.
  - now rewrite !willChangeAll_attrs.
  - apply Forall_app. split; assumption.
Qed.

Section Counting.

(** [p x] picks one kind of effect of the heading [x]: its tokenization,
    or its word animation. *)
Variable p : node -> effect -> bool.

Hypothesis p_heading : forall x el words,
  Gsap.count (p x) [NewSplitType el; Gsap.wordAnimation el words]
  = if Nat.eqb el x then 1%nat else 0%nat.

Hypothesis p_tokenize : forall x e, Gsap.is_tokenize e = false -> p x e = false.

Lemma conserves_animateHeading (el : node) : Gsap.conserves p (Gsap.animateHeading lib el).
Proof.
  intros s x. destruct (Gsap.splitDone s el) eqn:Hd.
  - rewrite (animateHeading_done el s Hd). cbn. lia.
  - destruct (Gsap.splitType lib) as [words|] eqn:Hl.
    + rewrite (animateHeading_fresh words el s Hl Hd). cbn [o_trace o_dom].
      rewrite p_heading. unfold Gsap.pending_split. rewrite splitDone_marked.
      destruct (Nat.eqb_spec el x) as [E|E].
      * subst. rewrite Hd. lia.
      * cbn. lia.
    + rewrite (animateHeading_missing el s Hl Hd). cbn. lia.
Qed.

Lemma conserves_bind {A B : Type} (m : M A) (k : A -> M B) :
  Gsap.conserves p m -> (forall a, Gsap.conserves p (k a)) -> Gsap.conserves p (bind m k).
Proof.
  intros Hm Hk s x. specialize (Hm s x). unfold bind.
  destruct (o_val (m s)) as [e|a]; cbn [o_trace o_dom]; [exact Hm|].
  specialize (Hk a (o_dom (m s)) x). rewrite count_app. lia.
Qed.

Lemma conserves_forEach (l : list node) (f : node -> M unit) :
  (forall el, Gsap.conserves p (f el)) -> Gsap.conserves p (forEach l f).
Proof.
  intros Hf. induction l as [|a l IH]; cbn [forEach].
  - intros s x. cbn. lia.
  - apply conserves_bind; [apply Hf | intros _; exact IH].
Qed.

Lemma conserves_afterHeadings : Gsap.conserves p (Gsap.afterHeadings d).
Proof.
  intros s x. destruct (afterHeadings_run s) as [s' [tr [E [Ha Hf]]]]. rewrite E.
  cbn [o_trace o_dom]. rewrite (pending_split_attrs s' s x Ha).
  rewrite count_none; [lia|].
  eapply List.Forall_impl; [|exact Hf]. intros e He. now apply p_tokenize.
Qed.

Lemma conserves_text : Gsap.conserves p (Gsap.initOptimizedTextAnimations lib d).
Proof.
  unfold Gsap.initOptimizedTextAnimations. apply conserves_bind.
  - apply conserves_forEach, conserves_animateHeading.
  - intros _. apply conserves_afterHeadings.
Qed.

End Counting.

Lemma is_split_heading (x el : node) (words : list node) :
  Gsap.count (Gsap.is_split x) [NewSplitType el; Gsap.wordAnimation el words]
  = if Nat.eqb el x then 1%nat else 0%nat.
Proof. unfold Gsap.count. cbn. destruct (Nat.eqb el x); reflexivity. Qed.

Lemma is_word_animation_heading (x el : node) (words : list node) :
  Gsap.count (Gsap.is_word_animation x) [NewSplitType el; Gsap.wordAnimation el words]
  = if Nat.eqb el x then 1%nat else 0%nat.
Proof. unfold Gsap.count. cbn. destruct (Nat.eqb el x); reflexivity. Qed.

Lemma is_split_tokenize (x : node) (e : effect) :
  Gsap.is_tokenize e = false -> Gsap.is_split x e = false.
Proof. destruct e; cbn; congruence. Qed.

Lemma is_word_animation_tokenize (x : node) (e : effect) :
  Gsap.is_tokenize e = false -> Gsap.is_word_animation x e = false.
Proof. destruct e; cbn; congruence. Qed.

(** A heading loop over marked headings does nothing. *)
Lemma animateHeadings_done (hs : list node) (s : dom) :
  (forall x, In x hs -> Gsap.splitDone s x = true) ->
  Gsap.animateHeadings lib hs s = Outcome s [] (inr tt).
Proof.
  induction hs as [|a hs IH]; intros H; [reflexivity|].
  unfold Gsap.animateHeadings in *. cbn [forEach].
  rewrite (bind_ok _ _ s s [] tt) by (apply animateHeading_done, H; now left).
  rewrite IH by (intros x Hx; apply H; now right). reflexivity.
Qed.

(** A heading loop that returns has marked every heading of its list. *)
Lemma animateHeadings_marks (hs : list node) :
  forall s, returned (Gsap.animateHeadings lib hs s) = true ->
            forall x, In x hs -> Gsap.splitDone (o_dom (Gsap.animateHeadings lib hs s)) x = true.
Proof.
  induction hs as [|a hs IH]; intros s Hr x Hin; [contradiction|].
  unfold Gsap.animateHeadings in *. cbn [forEach] in *.
  assert (Hstep : exists s1 t1,
             Gsap.animateHeading lib a s = Outcome s1 t1 (inr tt) /\
             Gsap.splitDone s1 a = true).
  { destruct (Gsap.splitDone s a) eqn:Hd.
    - exists s, []. split; [now apply animateHeading_done | exact Hd].
    - destruct (Gsap.splitType lib) as [words|] eqn:Hl.
      + eexists _, _. split; [exact (animateHeading_fresh words a s Hl Hd)|].
        rewrite splitDone_marked. now rewrite Nat.eqb_refl.
      + rewrite (bind_throw _ _ s _ _ _ (animateHeading_missing a s Hl Hd)) in Hr.
        discriminate. }
  destruct Hstep as [s1 [t1 [E Ha]]].
  rewrite (bind_ok _ _ _ _ _ _ E) in *. cbn [o_dom] in *.
  assert (Hr' : returned (forEach hs (Gsap.animateHeading lib) s1) = true).
  { unfold returned in *. cbn [o_val] in Hr. exact Hr. }
  destruct Hin as [<-|Hin]; [|now apply IH].
  pose proof (conserves_forEach (Gsap.is_split) hs (Gsap.animateHeading lib)
                (conserves_animateHeading Gsap.is_split is_split_heading) s1 a) as Hc.
  unfold Gsap.pending_split in Hc. rewrite Ha in Hc.
  destruct (Gsap.splitDone (o_dom (forEach hs (Gsap.animateHeading lib) s1)) a);
    [reflexivity | lia].
Qed.

End Tokenization.

Lemma text_run (lib : Gsap.libraries) (d : document) (s : dom) :
  Gsap.initOptimizedTextAnimations lib d s
  = bind (Gsap.animateHeadings lib (Gsap.selectAll d Gsap.headingSelectors))
      (fun _ => Gsap.afterHeadings d) s.
Proof. reflexivity. Qed.

(** C8. Over two runs of the text set-up on the same page, every element is
    tokenized at most once and given at most one word animation; an element
    that carries the marker after the first run gets neither in the second
    and keeps the marker. When the first run returns, every heading carries
    the marker, and the second run returns too, with no tokenization and no
    word animation at all and every attribute as it was. *)
Theorem heading_tokenization_idempotent (lib : Gsap.libraries) (d : document) (s : dom) :
  let r1 := Gsap.initOptimizedTextAnimations lib d s in
  let r2 := Gsap.initOptimizedTextAnimations lib d (o_dom r1) in
  (forall x,
      (Gsap.count (Gsap.is_split x) (o_trace r1 ++ o_trace r2) <= 1)%nat /\
      (Gsap.count (Gsap.is_word_animation x) (o_trace r1 ++ o_trace r2) <= 1)%nat) /\
  (forall x,
      Gsap.splitDone (o_dom r1) x = true ->
      Gsap.count (Gsap.is_split x) (o_trace r2) = 0%nat /\
      Gsap.count (Gsap.is_word_animation x) (o_trace r2) = 0%nat /\
      Gsap.splitDone (o_dom r2) x = true) /\
  (returned r1 = true ->
   (forall x, In x (Gsap.selectAll d Gsap.headingSelectors) ->
              Gsap.splitDone (o_dom r1) x = true) /\
   List.filter Gsap.is_tokenize (o_trace r2) = [] /\
   attrs (o_dom r2) = attrs (o_dom r1) /\
   returned r2 = true).
Proof.
  intros r1 r2.
  pose proof (conserves_text lib d Gsap.is_split is_split_heading is_split_tokenize)
    as Hsplit.
  pose proof (conserves_text lib d Gsap.is_word_animation is_word_animation_heading
                is_word_animation_tokenize) as Hword.
  split; [|split].
  - intros x. rewrite !count_app.
    pose proof (Hsplit s x) as S1. pose proof (Hsplit (o_dom r1) x) as S2.
    pose proof (Hword s x) as W1. pose proof (Hword (o_dom r1) x) as W2.
    fold r1 in S1, W1. fold r2 in S2, W2.
    unfold Gsap.pending_split in *.
    destruct (Gsap.splitDone s x), (Gsap.splitDone (o_dom r1) x),
      (Gsap.splitDone (o_dom r2) x); lia.
  - intros x Hx.
    pose proof (Hsplit (o_dom r1) x) as S2. pose proof (Hword (o_dom r1) x) as W2.
    fold r2 in S2, W2. unfold Gsap.pending_split in *. rewrite Hx in S2, W2.
    destruct (Gsap.splitDone (o_dom r2) x); [|lia]. repeat split; lia.
  - intros Hr. subst r2. subst r1. rewrite text_run in *.
    set (hs := Gsap.selectAll d Gsap.headingSelectors) in *.
    destruct (o_val (Gsap.animateHeadings lib hs s)) as [e|[]] eqn:Hv.
    { unfold returned, bind in Hr. rewrite Hv in Hr. discriminate. }
    assert (Hh : Gsap.animateHeadings lib hs s
                 = Outcome (o_dom (Gsap.animateHeadings lib hs s))
                     (o_trace (Gsap.animateHeadings lib hs s)) (inr tt)).
    { rewrite <- Hv. apply outcome_eta. }
    assert (Hm : forall x, In x hs ->
                 Gsap.splitDone (o_dom (Gsap.animateHeadings lib hs s)) x = true).
    { apply animateHeadings_marks. unfold returned. now rewrite Hv. }
    rewrite (bind_ok _ _ _ _ _ _ Hh) in *. cbn [o_dom o_trace o_val] in *.
    destruct (afterHeadings_run d (o_dom (Gsap.animateHeadings lib hs s)))
      as [s1 [tr1 [E1 [A1 F1]]]].
    rewrite E1 in *. cbn [o_dom o_trace o_val] in *.
    assert (Hm1 : forall x, In x hs -> Gsap.splitDone s1 x = true).
    { intros x Hx. rewrite (splitDone_attrs s1 _ x A1). now apply Hm. }
    rewrite text_run.
    rewrite (bind_ok _ _ _ _ _ _ (animateHeadings_done lib hs s1 Hm1)).
    destruct (afterHeadings_run d s1) as [s2 [tr2 [E2 [A2 F2]]]].
    rewrite E2. cbn [o_dom o_trace o_val app].
    split; [exact Hm1|]. split; [now apply filter_none|]. split; [exact A2|reflexivity].
Qed.

Lemma heading_tokenization_idempotent_witness :
  returned (Gsap.initOptimizedTextAnimations Sample.all_libraries Sample.footer_document
              empty_dom) = true /\
  List.filter Gsap.is_tokenize
    (o_trace (Gsap.initOptimizedTextAnimations Sample.all_libraries Sample.footer_document
                (o_dom (Gsap.initOptimizedTextAnimations Sample.all_libraries
                          Sample.footer_document empty_dom)))) = [].
Proof.
  split; [reflexivity|].
  apply (heading_tokenization_idempotent Sample.all_libraries Sample.footer_document
           empty_dom).
  reflexivity.
Defined.

(** The heading (5) matches two heading selectors: the first run tokenizes
    it once, the second run not at all. *)
Example heading_twice_in_list :
  let r1 := Gsap.initOptimizedTextAnimations Sample.all_libraries Sample.footer_document
              empty_dom in
  let r2 := Gsap.initOptimizedTextAnimations Sample.all_libraries Sample.footer_document
              (o_dom r1) in
  Gsap.selectAll Sample.footer_document Gsap.headingSelectors = [5%nat; 5%nat] /\
  o_trace r1 = [NewSplitType 5%nat; Gsap.wordAnimation 5%nat [105%nat; 205%nat]] /\
  o_trace r2 = [].
Proof. vm_compute. repeat split; reflexivity. Qed.

(** * Further properties *)

(** ** How the menu classifies a touch *)

Section MenuClassification.

Variables (d : document) (s : dom).

Lemma menu_moves_edge (ms : list (Z * Z)) (v : Touch.menu_vars) :
  Js.truthy (Touch.touchStartX v) && Js.truthy (Touch.touchStartY v) = false ->
  Touch.menu_moves v ms = v.
Proof.
  intros H. induction ms as [|m ms IH]; [reflexivity|].
  unfold Touch.menu_moves in *. cbn [fold_left].
  replace (Touch.menu_touchmove v (fst m) (snd m)) with v; [exact IH|].
  unfold Touch.menu_touchmove.
  destruct (Js.truthy (Touch.touchStartX v)), (Js.truthy (Touch.touchStartY v));
    cbn in *; congruence.
Qed.

Lemma menu_moves_scrolling (ms : list (Z * Z)) :
  forall v : Touch.menu_vars,
    Js.truthy (Touch.touchStartX v) && Js.truthy (Touch.touchStartY v) = true ->
    Touch.isScrolling (Touch.menu_moves v ms)
    = Touch.isScrolling v ||
      existsb (Touch.menu_vertical_move (Touch.touchStartX v, Touch.touchStartY v)) ms.
Proof.
  induction ms as [|m ms IH]; intros v H; [cbn; now rewrite orb_false_r|].
  unfold Touch.menu_moves in *. cbn [fold_left existsb].
  destruct (menu_touchmove_keeps_start v (fst m) (snd m)) as [Kx Ky].
  rewrite IH by (now rewrite Kx, Ky). rewrite Kx, Ky.
  unfold Touch.menu_touchmove at 1, Touch.menu_vertical_move at 2. cbn [fst snd].
  apply andb_prop in H. destruct H as [Hx Hy]. rewrite Hx, Hy. cbn [negb orb].
  destruct (Z.abs (Touch.touchStartY v - snd m) >? Z.abs (Touch.touchStartX v - fst m));
    cbn [Touch.isScrolling];
    destruct (Touch.isScrolling v); cbn; reflexivity.
Qed.

(** X1. A touch on the menu is classified as scrolling exactly when both
    start coordinates are non-zero and some move lies farther from the start
    vertically than horizontally. A touch that starts at [clientX = 0] or
    [clientY = 0] is never classified, whatever its moves. *)
Theorem menu_classification (v : Touch.menu_vars) (g : Touch.session) :
  Touch.isScrolling (Touch.menu_tracked v g)
  = Js.truthy (fst (Touch.s_start g)) && Js.truthy (snd (Touch.s_start g)) &&
    existsb (Touch.menu_vertical_move (Touch.s_start g)) (Touch.s_moves g).
Proof.
  unfold Touch.menu_tracked. destruct g as [[sx sy] ms endX]. cbn [Touch.s_start
    Touch.s_moves fst snd].
  destruct (Js.truthy sx && Js.truthy sy) eqn:H.
  - rewrite menu_moves_scrolling by exact H. reflexivity.
  - rewrite menu_moves_edge by exact H. reflexivity.
Qed.

(** X2. What a touch sequence on the menu does is decided by the sequence
    alone: whatever the tracking variables held before (after a session that
    was reset or one that was not), the same clicks follow. A classified
    sequence does nothing; any other one closes the menu iff the finger ends
    more than 100px to the left of its start. *)
Theorem menu_session_independent (v v' : Touch.menu_vars) (g : Touch.session) :
  snd (Touch.menu_session d s v g) = snd (Touch.menu_session d s v' g) /\
  snd (Touch.menu_session d s v g)
  = if Touch.isScrolling (Touch.menu_tracked v g) then []
    else if fst (Touch.s_start g) - Touch.s_endX g >? 100
         then Touch.closeMobileMenu d s else [].
Proof.
  assert (H : forall u, snd (Touch.menu_session d s u g)
                        = if Touch.isScrolling (Touch.menu_tracked u g) then []
                          else if fst (Touch.s_start g) - Touch.s_endX g >? 100
                               then Touch.closeMobileMenu d s else []).
  { intros u. unfold Touch.menu_session, Touch.menu_touchend.
    rewrite menu_tracked_start.
    destruct (Touch.isScrolling (Touch.menu_tracked u g)); reflexivity. }
  split; [|apply H]. rewrite (H v), (H v'), !menu_classification. reflexivity.
Qed.

End MenuClassification.

(** A touch that starts at the left edge and then scrolls down by 200px. *)
Example menu_edge_touch_not_classified :
  Touch.isScrolling (Touch.menu_tracked Touch.menu_initial Sample.edge_scroll) = false.
Proof. reflexivity. Qed.

(** ** How a slider classifies a touch *)

Section SliderClassification.

Variables (r : Touch.slider_refs).

Lemma slider_moves_acc (ms : list (Z * Z)) :
  forall (v : Touch.slider_vars) (acc : list effect),
    fold_left (fun a m =>
                 let '(v', tr) := Touch.slider_touchmove (fst a) (fst m) (snd m) in
                 (v', snd a ++ tr)) ms (v, acc)
    = (fst (Touch.slider_moves v ms), acc ++ snd (Touch.slider_moves v ms)).
Proof.
  induction ms as [|m ms IH]; intros v acc.
  - cbn. now rewrite app_nil_r.
  - unfold Touch.slider_moves. cbn [fold_left fst snd].
    destruct (Touch.slider_touchmove v (fst m) (snd m)) as [v1 t1].
    rewrite (IH v1 (acc ++ t1)), (IH v1 ([] ++ t1)). cbn [fst snd app].
    now rewrite app_assoc.
Qed.

Lemma slider_moves_cons (v : Touch.slider_vars) (m : Z * Z) (ms : list (Z * Z)) :
  Touch.slider_moves v (m :: ms)
  = (fst (Touch.slider_moves (fst (Touch.slider_touchmove v (fst m) (snd m))) ms),
     snd (Touch.slider_touchmove v (fst m) (snd m)) ++
     snd (Touch.slider_moves (fst (Touch.slider_touchmove v (fst m) (snd m))) ms)).
Proof.
  unfold Touch.slider_moves at 1. cbn [fold_left fst snd].
  destruct (Touch.slider_touchmove v (fst m) (snd m)) as [v1 t1].
  rewrite slider_moves_acc. reflexivity.
Qed.

(** While a finger is down the moves keep the start point and the dragging
    flag; the vertical flag latches; default scrolling is only ever
    prevented, and never once the gesture is vertical. *)
Lemma slider_moves_spec (ms : list (Z * Z)) :
  forall v : Touch.slider_vars,
    Touch.isDragging v = true ->
    Touch.startX (fst (Touch.slider_moves v ms)) = Touch.startX v /\
    Touch.startY (fst (Touch.slider_moves v ms)) = Touch.startY v /\
    Touch.isDragging (fst (Touch.slider_moves v ms)) = true /\
    Touch.isVerticalScroll (fst (Touch.slider_moves v ms))
    = Touch.isVerticalScroll v ||
      existsb (Touch.slider_vertical_move (Touch.startX v, Touch.startY v)) ms /\
    Forall (fun e => e = PreventDefault) (snd (Touch.slider_moves v ms)) /\
    (Touch.isVerticalScroll v = true -> snd (Touch.slider_moves v ms) = []).
Proof.
  induction ms as [|m ms IH]; intros v Hd.
  - cbn. rewrite orb_false_r. repeat split; auto.
  - rewrite slider_moves_cons. cbn [existsb].
    assert (Hm : Touch.slider_vertical_move (Touch.startX v, Touch.startY v) m
                 = (Z.abs (snd m - Touch.startY v) >? Z.abs (fst m - Touch.startX v)) &&
                   (Z.abs (snd m - Touch.startY v) >? 10)) by reflexivity.
    rewrite Hm. clear Hm.
    unfold Touch.slider_touchmove. rewrite Hd. cbn [negb].
    destruct ((Z.abs (snd m - Touch.startY v) >? Z.abs (fst m - Touch.startX v)) &&
              (Z.abs (snd m - Touch.startY v) >? 10)); cbn [fst snd].
    + match goal with |- context [Touch.slider_moves ?v1 ms] =>
        destruct (IH v1 eq_refl) as [Ix [Iy [Id [Iv [If Ie]]]]] end.
      cbn [Touch.startX Touch.startY Touch.isVerticalScroll orb] in *.
      split; [exact Ix|]. split; [exact Iy|]. split; [exact Id|].
      split; [now rewrite Iv, orb_true_r|].
      rewrite (Ie eq_refl). split; [constructor|reflexivity].
    + match goal with |- context [Touch.slider_moves ?v1 ms] =>
        destruct (IH v1 eq_refl) as [Ix [Iy [Id [Iv [If Ie]]]]] end.
      cbn [Touch.startX Touch.startY Touch.isVerticalScroll orb] in *.
      split; [exact Ix|]. split; [exact Iy|]. split; [exact Id|].
      split; [exact Iv|]. split.
      * apply Forall_app. split; [|exact If].
        destruct ((Z.abs (fst m - Touch.startX v) >? 10) &&
                  negb (Touch.isVerticalScroll v)); repeat constructor.
      * intros Hvs. rewrite (Ie Hvs), Hvs, andb_false_r. reflexivity.
Qed.

Lemma slider_touchstart_vars (s : dom) (v : Touch.slider_vars) (x y : Z) :
  snd (Touch.slider_touchstart r s v x y)
  = {| Touch.startX := x; Touch.startY := y; Touch.currentX := Touch.currentX v;
       Touch.isDragging := true; Touch.isVerticalScroll := false |}.
Proof.
  unfold Touch.slider_touchstart.
  destruct (attribute_is s (Touch.slider r) "data-autoplay" "true"); reflexivity.
Qed.

Lemma clicks_prevent (tr : list effect) :
  Forall (fun e => e = PreventDefault) tr -> clicks tr = [].
Proof.
  induction 1 as [|e tr He _ IH]; [reflexivity|]. subst e. exact IH.
Qed.

Lemma clicks_app (a b : list effect) : clicks (a ++ b) = clicks a ++ clicks b.
Proof. unfold clicks. apply List.filter_app. Qed.

Lemma clicks_arrow (diffX : Z) :
  clicks (Touch.arrow_clicks r diffX) = Touch.arrow_clicks r diffX.
Proof.
  unfold Touch.arrow_clicks, Touch.click_if_present.
  destruct (diffX >? 0); [destruct (Touch.leftArrow r) | destruct (Touch.rightArrow r)];
    reflexivity.
Qed.

(** The shape of a session: the variables when the finger lifts. *)
Lemma slider_session_unfold (s : dom) (v : Touch.slider_vars) (g : Touch.session)
    (t0 t1 : Z) :
  let v1 := snd (Touch.slider_touchstart r s v (fst (Touch.s_start g))
                   (snd (Touch.s_start g))) in
  let s1 := fst (Touch.slider_touchstart r s v (fst (Touch.s_start g))
                   (snd (Touch.s_start g))) in
  let v2 := fst (Touch.slider_moves v1 (Touch.s_moves g)) in
  Touch.slider_session r s v g t0 t1
  = (fst (fst (Touch.slider_touchend r s1 v2 (Touch.s_endX g) t1 t1)),
     snd (fst (Touch.slider_touchend r s1 v2 (Touch.s_endX g) t1 t1)),
     snd (Touch.slider_moves v1 (Touch.s_moves g)) ++
     snd (Touch.slider_touchend r s1 v2 (Touch.s_endX g) t1 t1)).
Proof.
  cbv zeta. unfold Touch.slider_session.
  destruct (Touch.slider_touchstart r s v _ _) as [s1 v1]. cbn [fst snd].
  destruct (Touch.slider_moves v1 (Touch.s_moves g)) as [v2 tr2]. cbn [fst snd].
  destruct (Touch.slider_touchend r s1 v2 (Touch.s_endX g) t1 t1) as [[s3 v3] tr3].
  reflexivity.
Qed.

(** X3. A gesture on a slider that one of its moves classifies as vertical
    (farther from the start vertically than horizontally, and by more than
    10px) never clicks an arrow, however far the finger travels sideways
    before or after that move. *)
Theorem slider_vertical_never_navigates (s : dom) (v : Touch.slider_vars)
    (g : Touch.session) (t0 t1 : Z) :
  existsb (Touch.slider_vertical_move (Touch.s_start g)) (Touch.s_moves g) = true ->
  clicks (snd (Touch.slider_session r s v g t0 t1)) = [] /\
  calls "resetSliderTouch" (snd (Touch.slider_session r s v g t0 t1)) = 1%nat.
Proof.
  intros Hv. rewrite slider_session_unfold. cbv zeta. cbn [snd].
  rewrite slider_touchstart_vars.
  set (v1 := {| Touch.startX := fst (Touch.s_start g) |}).
  destruct (slider_moves_spec (Touch.s_moves g) v1 eq_refl) as [_ [_ [Id [Iv [If _]]]]].
  unfold v1 in Iv at 2 3 4.
  cbn [Touch.startX Touch.startY Touch.isVerticalScroll orb] in Iv.
  replace (fst (Touch.s_start g), snd (Touch.s_start g)) with (Touch.s_start g) in Iv
    by (destruct (Touch.s_start g); reflexivity).
  rewrite Hv in Iv.
  unfold Touch.slider_touchend. rewrite Id, Iv. cbn [negb orb].
  unfold Touch.resetSliderTouch. cbn [snd]. split.
  - rewrite clicks_app, (clicks_prevent _ If). reflexivity.
  - unfold calls. rewrite List.filter_app, List.length_app.
    replace (List.filter (is_call "resetSliderTouch") (snd (Touch.slider_moves v1 (Touch.s_moves g))))
      with (@nil effect); [reflexivity|].
    symmetry. clear -If. induction If as [|e tr He _ IH]; [reflexivity|].
    subst e. exact IH.
Qed.

(** X4. A gesture on a slider that no move classifies as vertical, on a
    slider whose [_touchStartTime] is unset (the script never sets it):
    the arrow for the direction is clicked whenever the finger ends
    anywhere but at its start column, and nothing is clicked when it ends
    there; the 50px threshold decides nothing. *)
Theorem slider_any_displacement_navigates (s : dom) (v : Touch.slider_vars)
    (g : Touch.session) (t0 t1 : Z) :
  props s !! (Touch.slider r, "_touchStartTime") = None ->
  existsb (Touch.slider_vertical_move (Touch.s_start g)) (Touch.s_moves g) = false ->
  clicks (snd (Touch.slider_session r s v g t0 t1))
  = if Touch.s_endX g - fst (Touch.s_start g) =? 0 then []
    else Touch.arrow_clicks r (Touch.s_endX g - fst (Touch.s_start g)).
Proof.
  intros Hp Hv. rewrite slider_session_unfold. cbv zeta. cbn [snd].
  rewrite slider_touchstart_vars.
  set (s1 := fst (Touch.slider_touchstart r s v _ _)).
  assert (Hp1 : props s1 !! (Touch.slider r, "_touchStartTime") = None).
  { subst s1. now rewrite slider_touchstart_keeps_props. }
  set (v1 := {| Touch.startX := fst (Touch.s_start g) |}).
  destruct (slider_moves_spec (Touch.s_moves g) v1 eq_refl) as [Ix [_ [Id [Iv [If _]]]]].
  unfold v1 in Iv at 2 3 4. unfold v1 in Ix at 2.
  cbn [Touch.startX Touch.startY Touch.isVerticalScroll orb] in Iv, Ix.
  replace (fst (Touch.s_start g), snd (Touch.s_start g)) with (Touch.s_start g) in Iv
    by (destruct (Touch.s_start g); reflexivity).
  rewrite Hv in Iv.
  unfold Touch.slider_touchend. rewrite Id, Iv. cbn [negb orb].
  rewrite (slider_navigate_unset_time r s1 _ _ t1 Hp1), Ix.
  unfold Touch.resetSliderTouch. cbn [snd].
  rewrite !clicks_app, (clicks_prevent _ If). cbn [app].
  destruct (Touch.s_endX g - fst (Touch.s_start g) =? 0); [reflexivity|].
  rewrite clicks_arrow. cbn. now rewrite app_nil_r.
Qed.

End SliderClassification.

Lemma slider_vertical_never_navigates_witness :
  existsb (Touch.slider_vertical_move (Touch.s_start Sample.slider_scroll))
    (Touch.s_moves Sample.slider_scroll) = true /\
  clicks (snd (Touch.slider_session Sample.slider3 Sample.page_dom Touch.slider_initial
                 Sample.slider_scroll 1000 1300)) = [].
Proof.
  split; [reflexivity|].
  apply (slider_vertical_never_navigates Sample.slider3 Sample.page_dom
           Touch.slider_initial Sample.slider_scroll 1000 1300).
  reflexivity.
Defined.

Lemma slider_any_displacement_navigates_witness :
  props Sample.page_dom !! (Touch.slider Sample.slider3, "_touchStartTime") = None /\
  existsb (Touch.slider_vertical_move (Touch.s_start Sample.right40))
    (Touch.s_moves Sample.right40) = false /\
  clicks (snd (Touch.slider_session Sample.slider3 Sample.page_dom Touch.slider_initial
                 Sample.right40 1000 1200)) = [Click 5%nat].
Proof.
  split; [reflexivity|]. split; [reflexivity|].
  apply (slider_any_displacement_navigates Sample.slider3 Sample.page_dom
           Touch.slider_initial Sample.right40 1000 1200); reflexivity.
Defined.

(** ** Sessions on a slider, one after the other *)

Section SliderSessions.

Variables (r : Touch.slider_refs).

Lemma slider_touchstart_dom (s : dom) (v v' : Touch.slider_vars) (x y : Z) :
  fst (Touch.slider_touchstart r s v x y) = fst (Touch.slider_touchstart r s v' x y).
Proof.
  unfold Touch.slider_touchstart.
  destruct (attribute_is s (Touch.slider r) "data-autoplay" "true"); reflexivity.
Qed.

Lemma slider_touchmove_same (v v' : Touch.slider_vars) (x y : Z) :
  Touch.same_tracking v v' ->
  Touch.same_tracking (fst (Touch.slider_touchmove v x y))
    (fst (Touch.slider_touchmove v' x y)) /\
  snd (Touch.slider_touchmove v x y) = snd (Touch.slider_touchmove v' x y).
Proof.
  destruct v as [sx sy cx dr vs], v' as [sx' sy' cx' dr' vs'].
  unfold Touch.same_tracking. cbn. intros [Hx [Hy [Hd Hv]]]. subst sx' sy' dr' vs'.
  unfold Touch.slider_touchmove. cbn [Touch.isDragging Touch.startX Touch.startY
    Touch.isVerticalScroll Touch.currentX].
  destruct dr; cbn [negb fst snd]; [|now repeat split].
  destruct ((Z.abs (y - sy) >? Z.abs (x - sx)) && (Z.abs (y - sy) >? 10));
    cbn; now repeat split.
Qed.

Lemma slider_moves_same (ms : list (Z * Z)) :
  forall v v' : Touch.slider_vars,
    Touch.same_tracking v v' ->
    Touch.same_tracking (fst (Touch.slider_moves v ms)) (fst (Touch.slider_moves v' ms)) /\
    snd (Touch.slider_moves v ms) = snd (Touch.slider_moves v' ms).
Proof.
  induction ms as [|m ms IH]; intros v v' H; [now split|].
  rewrite !slider_moves_cons. cbn [fst snd].
  destruct (slider_touchmove_same v v' (fst m) (snd m) H) as [H1 E1].
  destruct (IH _ _ H1) as [H2 E2]. split; [exact H2|]. now rewrite E1, E2.
Qed.

Lemma slider_touchend_same (s : dom) (v v' : Touch.slider_vars) (x now1 now2 : Z) :
  Touch.same_tracking v v' ->
  fst (fst (Touch.slider_touchend r s v x now1 now2))
  = fst (fst (Touch.slider_touchend r s v' x now1 now2)) /\
  Touch.same_tracking (snd (fst (Touch.slider_touchend r s v x now1 now2)))
    (snd (fst (Touch.slider_touchend r s v' x now1 now2))) /\
  snd (Touch.slider_touchend r s v x now1 now2)
  = snd (Touch.slider_touchend r s v' x now1 now2).
Proof.
  destruct v as [sx sy cx dr vs], v' as [sx' sy' cx' dr' vs'].
  unfold Touch.same_tracking. cbn. intros [Hx [Hy [Hd Hv]]]. subst sx' sy' dr' vs'.
  unfold Touch.slider_touchend, Touch.slider_navigate. cbn [Touch.isDragging
    Touch.startX Touch.startY Touch.isVerticalScroll Touch.currentX].
  destruct (negb dr || vs); unfold Touch.resetSliderTouch; cbn; now repeat split.
Qed.

(** X5. What a touch sequence on a slider does is decided by the sequence
    and the page alone: whatever the closure's variables held before, the
    same effects follow, the page ends the same and so do the start
    coordinates and both flags. Nothing of an earlier gesture leaks into the
    next one. *)
Theorem slider_session_independent (s : dom) (v v' : Touch.slider_vars)
    (g : Touch.session) (t0 t1 : Z) :
  snd (Touch.slider_session r s v g t0 t1) = snd (Touch.slider_session r s v' g t0 t1) /\
  fst (fst (Touch.slider_session r s v g t0 t1))
  = fst (fst (Touch.slider_session r s v' g t0 t1)) /\
  Touch.same_tracking (snd (fst (Touch.slider_session r s v g t0 t1)))
    (snd (fst (Touch.slider_session r s v' g t0 t1))).
Proof.
  rewrite !slider_session_unfold. cbv zeta. cbn [fst snd].
  rewrite (slider_touchstart_dom s v v'), !slider_touchstart_vars.
  match goal with
  | |- context [Touch.slider_moves ?a (Touch.s_moves g)] =>
      match goal with
      | |- context [Touch.slider_moves ?b (Touch.s_moves g)] =>
          lazymatch a with
          | b => fail
          | _ => destruct (slider_moves_same (Touch.s_moves g) a b) as [Hm Em];
                 [unfold Touch.same_tracking; cbn; now repeat split|]
          end
      end
  end.
  match goal with
  | |- context [Touch.slider_touchend r ?s1 _ _ _ _] =>
      destruct (slider_touchend_same s1 _ _ (Touch.s_endX g) t1 t1 Hm) as [Ed [Ev Et]]
  end.
  split; [now rewrite Em, Et|]. split; [exact Ed | exact Ev].
Qed.

(** X6. Once a touch-end has run, the handlers are inert until the next
    touch-start: a move changes nothing and prevents nothing, and a further
    touch-end (a second finger lifting) clicks no arrow and leaves the page
    as it is. *)
Theorem slider_inert_after_touchend (s : dom) (v : Touch.slider_vars) (x now1 now2 : Z) :
  let s1 := fst (fst (Touch.slider_touchend r s v x now1 now2)) in
  let v1 := snd (fst (Touch.slider_touchend r s v x now1 now2)) in
  (forall mx my, Touch.slider_touchmove v1 mx my = (v1, [])) /\
  (forall x' a b,
      Touch.slider_touchend r s1 v1 x' a b = (s1, v1, [Call "resetSliderTouch"])).
Proof.
  cbv zeta.
  destruct (slider_touchend_resets r s v x now1 now2) as [nav [E _]]. rewrite E.
  cbn [fst snd].
  pose proof (resetSliderTouch_marker r s v) as Hm.
  set (s1 := fst (fst (Touch.resetSliderTouch r s v))) in *.
  assert (Hv : snd (fst (Touch.resetSliderTouch r s v))
               = {| Touch.startX := Touch.startX v; Touch.startY := Touch.startY v;
                    Touch.currentX := Touch.currentX v; Touch.isDragging := false;
                    Touch.isVerticalScroll := false |}) by reflexivity.
  rewrite Hv. split; [reflexivity|]. intros x' a b.
  unfold Touch.slider_touchend, Touch.resetSliderTouch, attribute_is. cbn [negb orb
    Touch.isDragging Touch.isVerticalScroll Touch.startX Touch.startY Touch.currentX].
  now rewrite bool_decide_eq_false_2 by exact Hm.
Qed.

Lemma autoplay_restored (s : dom) (sl : node) :
  getAttribute s sl "data-autoplay" = Some "true" ->
  getAttribute s sl "data-temp-autoplay" = None ->
  removeAttribute sl "data-temp-autoplay"
    (setAttribute sl "data-autoplay" "true"
       (setAttribute sl "data-autoplay" "false"
          (setAttribute sl "data-temp-autoplay" "true" s))) = s.
Proof.
  unfold getAttribute. intros Ha Ht. destruct s as [c a st p t pn cn nn].
  unfold removeAttribute, setAttribute, with_attrs. cbn [attrs classes styles props
    textContent parentNode childNodes nextNode] in *.
  f_equal. apply map_eq. intros [n k].
  destruct (decide ((sl, "data-temp-autoplay") = (n, k))) as [E|E].
  - rewrite <- E, lookup_delete_eq. now rewrite Ht.
  - rewrite lookup_delete_ne by exact E.
    destruct (decide ((sl, "data-autoplay") = (n, k))) as [E'|E'].
    + rewrite <- E', lookup_insert_eq. now rewrite Ha.
    + rewrite !lookup_insert_ne by assumption. reflexivity.
Qed.

(** X7. Autoplay is suppressed for the length of a gesture and put back
    exactly. On a slider with [data-autoplay = 'true'] and no marker, the
    touch-start sets [data-autoplay] to ['false'] and the marker to ['true'],
    and the page after the touch-end is the page before the touch-start;
    this also holds when the touch-end belongs to a second touch-start that
    followed a gesture which never got its touch-end. *)
Theorem slider_autoplay_round_trip (s : dom) (v : Touch.slider_vars) (g g' : Touch.session)
    (t0 t1 : Z) :
  getAttribute s (Touch.slider r) "data-autoplay" = Some "true" ->
  getAttribute s (Touch.slider r) "data-temp-autoplay" = None ->
  let s1 := fst (Touch.slider_touchstart r s v (fst (Touch.s_start g))
                   (snd (Touch.s_start g))) in
  let v1 := snd (Touch.slider_touchstart r s v (fst (Touch.s_start g))
                   (snd (Touch.s_start g))) in
  getAttribute s1 (Touch.slider r) "data-autoplay" = Some "false" /\
  getAttribute s1 (Touch.slider r) "data-temp-autoplay" = Some "true" /\
  fst (fst (Touch.slider_session r s v g t0 t1)) = s /\
  fst (fst (Touch.slider_session r s1 v1 g' t0 t1)) = s.
Proof.
  intros Ha Ht s1 v1.
  assert (Es1 : s1 = setAttribute (Touch.slider r) "data-autoplay" "false"
                       (setAttribute (Touch.slider r) "data-temp-autoplay" "true" s)).
  { subst s1. unfold Touch.slider_touchstart, attribute_is.
    now rewrite bool_decide_eq_true_2 by exact Ha. }
  assert (Ha1 : getAttribute s1 (Touch.slider r) "data-autoplay" = Some "false").
  { rewrite Es1. unfold getAttribute, setAttribute, with_attrs. cbn [attrs].
    apply lookup_insert_eq. }
  assert (Ht1 : getAttribute s1 (Touch.slider r) "data-temp-autoplay" = Some "true").
  { rewrite Es1. unfold getAttribute, setAttribute, with_attrs. cbn [attrs].
    rewrite lookup_insert_ne by (intros E; inversion E). apply lookup_insert_eq. }
  assert (Hreset : forall u, fst (fst (Touch.resetSliderTouch r s1 u)) = s).
  { intros u. unfold Touch.resetSliderTouch, attribute_is. cbn [fst].
    rewrite bool_decide_eq_true_2 by exact Ht1. rewrite Es1.
    now apply autoplay_restored. }
  assert (Hend : forall u x a b, fst (fst (Touch.slider_touchend r s1 u x a b)) = s).
  { intros u x a b. destruct (slider_touchend_resets r s1 u x a b) as [nav [E _]].
    rewrite E. cbn [fst]. apply Hreset. }
  split; [exact Ha1|]. split; [exact Ht1|]. split.
  - rewrite slider_session_unfold. cbv zeta. cbn [fst]. apply Hend.
  - rewrite slider_session_unfold. cbv zeta. cbn [fst].
    replace (fst (Touch.slider_touchstart r s1 v1 (fst (Touch.s_start g'))
                    (snd (Touch.s_start g')))) with s1; [apply Hend|].
    unfold Touch.slider_touchstart, attribute_is.
    rewrite bool_decide_eq_false_2; [reflexivity|]. rewrite Ha1. discriminate.
Qed.

End SliderSessions.

Lemma slider_autoplay_round_trip_witness :
  getAttribute Sample.page_dom (Touch.slider Sample.slider3) "data-autoplay" = Some "true" /\
  getAttribute Sample.page_dom (Touch.slider Sample.slider3) "data-temp-autoplay" = None /\
  fst (fst (Touch.slider_session Sample.slider3 Sample.page_dom Touch.slider_initial
              Sample.left60 1000 1080)) = Sample.page_dom.
Proof.
  split; [reflexivity|]. split; [reflexivity|].
  apply (slider_autoplay_round_trip Sample.slider3 Sample.page_dom Touch.slider_initial
           Sample.left60 Sample.left60 1000 1080); reflexivity.
Defined.

(** ** Image swipe *)

Section ImageSwipe.

Variable container : node.

Lemma image_moves_spec (xs : list Z) :
  forall (v : Touch.image_vars) (st : Touch.image_style),
    Touch.img_isDragging v = true ->
    Touch.img_startX (fst (Touch.image_moves v st xs)) = Touch.img_startX v /\
    Touch.img_isDragging (fst (Touch.image_moves v st xs)) = true.
Proof.
  induction xs as [|x xs IH]; intros v st Hd; [now split|].
  unfold Touch.image_moves in *. cbn [fold_left fst snd].
  unfold Touch.image_touchmove at 2 4. rewrite Hd. cbn [negb fst snd].
  match goal with |- context [fold_left _ xs (?v1, ?st1)] =>
    destruct (IH v1 st1 eq_refl) as [Ix Id] end.
  split; [exact Ix | exact Id].
Qed.

(** X8. A touch sequence on an image container dispatches [imageNavigate]
    once iff the finger ends more than 50px from the column where it
    started, with direction ['prev'] for a move to the right and ['next']
    for one to the left, and sets the 200ms timer with it; the moves in
    between, vertical ones included, decide nothing. Afterwards the
    container carries its transition again, the drag is over, and a further
    touch-end does nothing. *)
Theorem image_swipe_navigates (v : Touch.image_vars) (st : Touch.image_style)
    (g : Touch.session) :
  let diffX := Touch.s_endX g - fst (Touch.s_start g) in
  let v' := fst (fst (Touch.image_session container v st g)) in
  let st' := snd (fst (Touch.image_session container v st g)) in
  snd (Touch.image_session container v st g)
  = (if Z.abs diffX >? 50
     then [Touch.ScaleBackTimeout container 200;
           Touch.DispatchImageNavigate (if diffX >? 0 then "prev" else "next") container]
     else []) /\
  Touch.img_isDragging v' = false /\
  Touch.img_transition st' = Some "transform 0.3s ease" /\
  Touch.img_transform st'
  = Some (if Z.abs diffX >? 50
          then Touch.Scale (if diffX >? 0 then (105 # 100)%Q else (95 # 100)%Q)
          else Touch.TranslateX 0) /\
  (forall x, Touch.image_touchend container v' st' x = (v', st', [])).
Proof.
  cbv zeta. unfold Touch.image_session, Touch.image_touchstart.
  match goal with |- context [Touch.image_moves ?v1 ?st1 ?xs] =>
    destruct (image_moves_spec xs v1 st1 eq_refl) as [Ix Id];
    destruct (Touch.image_moves v1 st1 xs) as [v2 st2] end.
  cbn [fst snd Touch.img_startX] in *.
  set (diffX := Touch.s_endX g - fst (Touch.s_start g)).
  assert (E : Touch.image_touchend container v2 st2 (Touch.s_endX g)
              = ({| Touch.img_startX := Touch.img_startX v2;
                    Touch.img_currentX := Touch.img_currentX v2;
                    Touch.img_isDragging := false |},
                 {| Touch.img_transition := Some "transform 0.3s ease";
                    Touch.img_transform :=
                      Some (if Z.abs diffX >? 50
                            then Touch.Scale (if diffX >? 0 then (105 # 100)%Q
                                              else (95 # 100)%Q)
                            else Touch.TranslateX 0) |},
                 if Z.abs diffX >? 50
                 then [Touch.ScaleBackTimeout container 200;
                       Touch.DispatchImageNavigate (if diffX >? 0 then "prev" else "next")
                         container]
                 else [])).
  { unfold Touch.image_touchend. rewrite Id, Ix. cbn [negb]. fold diffX.
    destruct (Z.abs diffX >? 50); [destruct (diffX >? 0)|]; reflexivity. }
  rewrite E. cbn [fst snd]. repeat split; reflexivity.
Qed.

End ImageSwipe.

(** A swipe of 70px to the right that drifts 80px down on its way. *)
Example image_swipe_right :
  snd (Touch.image_session 8%nat Touch.image_initial
         {| Touch.img_transition := None; Touch.img_transform := None |}
         Sample.image_swipe70)
  = [Touch.ScaleBackTimeout 8%nat 200; Touch.DispatchImageNavigate "prev" 8%nat].
Proof. reflexivity. Qed.

(** ** Scroll lock *)

Section ScrollLock.

Variables (d : document) (mobileMenu : node).

(** What one style mutation makes of the page. *)
Lemma setStyle_twice (n : node) (k : string) (v v' : cssval) (s : dom) :
  setStyle n k v (setStyle n k v' s) = setStyle n k v s.
Proof.
  destruct s. unfold setStyle, with_styles. cbn. f_equal. apply insert_insert_eq.
Qed.

Lemma menu_isVisible_overflow (v : cssval) (s : dom) :
  Touch.menu_isVisible (setStyle (doc_body d) "overflow" v s) mobileMenu
  = Touch.menu_isVisible s mobileMenu.
Proof.
  unfold Touch.menu_isVisible, Touch.style_differs.
  now rewrite !styles_setStyle_ne by (intros E; inversion E).
Qed.

Lemma menu_observer_cons (m : Touch.mutation) (ms : list Touch.mutation) (s : dom) :
  Touch.menu_observer d mobileMenu (m :: ms) s
  = Touch.menu_observer d mobileMenu ms
      (if Touch.is_style_mutation m then
         if Touch.menu_isVisible s mobileMenu
         then setStyle (doc_body d) "overflow" (CssText "hidden") s
         else setStyle (doc_body d) "overflow" (CssText "") s
       else s).
Proof. reflexivity. Qed.

Lemma menu_observer_settled (ms : list Touch.mutation) (s : dom) (v : cssval) :
  (v = CssText (if Touch.menu_isVisible s mobileMenu then "hidden" else "")) ->
  Touch.menu_observer d mobileMenu ms (setStyle (doc_body d) "overflow" v s)
  = setStyle (doc_body d) "overflow" v s.
Proof.
  intros Hv. induction ms as [|m ms IH]; [reflexivity|].
  rewrite menu_observer_cons.
  destruct (Touch.is_style_mutation m); [|exact IH].
  rewrite menu_isVisible_overflow.
  destruct (Touch.menu_isVisible s mobileMenu); rewrite setStyle_twice; subst v; exact IH.
Qed.

(** X9. The observer callback, given a batch with at least one mutation of
    the [style] attribute, sets [overflow] of [body] to ['hidden'] when the
    menu's inline style has neither [display: none] nor [visibility:
    hidden], and to the empty string otherwise; it changes nothing else, and
    a longer batch does no more than a batch of one. A batch without such a
    mutation leaves the page as it is. *)
Theorem menu_observer_locks_scroll (ms : list Touch.mutation) (s : dom) :
  Touch.menu_observer d mobileMenu ms s
  = if existsb Touch.is_style_mutation ms
    then setStyle (doc_body d) "overflow"
           (CssText (if Touch.menu_isVisible s mobileMenu then "hidden" else "")) s
    else s.
Proof.
  induction ms as [|m ms IH]; [reflexivity|].
  rewrite menu_observer_cons. cbn [existsb].
  destruct (Touch.is_style_mutation m); cbn [orb]; [|exact IH].
  destruct (Touch.menu_isVisible s mobileMenu) eqn:Hv;
    apply menu_observer_settled; now rewrite Hv.
Qed.

End ScrollLock.

(** A menu without inline [display] counts as visible; one with [display:
    none] unlocks. *)
Example menu_observer_on_page :
  styles (Touch.menu_observer Sample.page_document 2%nat
            [Sample.style_mutation; Sample.style_mutation] Sample.page_dom)
    !! (0%nat, "overflow") = Some (CssText "hidden") /\
  styles (Touch.menu_observer Sample.page_document 2%nat
            [Sample.style_mutation] Sample.hidden_menu_dom)
    !! (0%nat, "overflow") = Some (CssText "").
Proof. split; reflexivity. Qed.

(** ** Scroll throttle, any sequence of events *)

Section ScrollBound.

Variable d : document.

Lemma scroll_step_idle (st : Touch.scroll_state) (e : Touch.browser_event) :
  Touch.scroll_idle st ->
  (Touch.scroll_idle (Touch.scroll_step d st e) /\
   Touch.updates (Touch.scroll_step d st e) = Touch.updates st /\
   Touch.is_scroll_event e = false) \/
  (Touch.scroll_waiting (Touch.scroll_step d st e) /\
   Touch.updates (Touch.scroll_step d st e) = Touch.updates st /\
   Touch.is_scroll_event e = true).
Proof.
  intros [Ht Hp]. destruct e as [y|]; cbn [Touch.scroll_step].
  - right. unfold Touch.scroll_listener, Touch.scroll_waiting. cbn [Touch.ticking].
    rewrite Ht. cbn. rewrite Hp. auto.
  - left. unfold Touch.scroll_idle. rewrite Hp. cbn. auto.
Qed.

Lemma scroll_step_waiting (st : Touch.scroll_state) (e : Touch.browser_event) :
  Touch.scroll_waiting st ->
  (Touch.scroll_idle (Touch.scroll_step d st e) /\
   Touch.updates (Touch.scroll_step d st e) = S (Touch.updates st) /\
   Touch.is_frame_event e = true) \/
  (Touch.scroll_waiting (Touch.scroll_step d st e) /\
   Touch.updates (Touch.scroll_step d st e) = Touch.updates st /\
   Touch.is_frame_event e = false).
Proof.
  intros [Ht Hp]. destruct e as [y|]; cbn [Touch.scroll_step].
  - right. unfold Touch.scroll_listener, Touch.scroll_waiting. cbn [Touch.ticking].
    rewrite Ht. cbn. auto.
  - left. unfold Touch.scroll_idle. rewrite Hp. cbn. auto.
Qed.

Lemma scroll_run_bound (es : list Touch.browser_event) :
  forall st,
    (Touch.scroll_idle st ->
     (Touch.updates (Touch.scroll_run d st es)
      <= Touch.updates st + List.length (List.filter Touch.is_frame_event es))%nat /\
     (Touch.updates (Touch.scroll_run d st es)
      <= Touch.updates st + List.length (List.filter Touch.is_scroll_event es))%nat) /\
    (Touch.scroll_waiting st ->
     (Touch.updates (Touch.scroll_run d st es)
      <= Touch.updates st + List.length (List.filter Touch.is_frame_event es))%nat /\
     (Touch.updates (Touch.scroll_run d st es)
      <= S (Touch.updates st + List.length (List.filter Touch.is_scroll_event es)))%nat).
Proof.
  induction es as [|e es IH]; intros st.
  - cbn. split; intros _; lia.
  - change (Touch.scroll_run d st (e :: es))
      with (Touch.scroll_run d (Touch.scroll_step d st e) es).
    destruct (IH (Touch.scroll_step d st e)) as [IHi IHw]. cbn [List.filter].
    split; intros H.
    + destruct (scroll_step_idle st e H) as [[Hi [Hu He]]|[Hw [Hu He]]].
      * destruct (IHi Hi) as [A B]. rewrite Hu in A, B. rewrite He.
        destruct (Touch.is_frame_event e); cbn [List.length]; lia.
      * destruct (IHw Hw) as [A B]. rewrite Hu in A, B. rewrite He.
        destruct (Touch.is_frame_event e); cbn [List.length]; lia.
    + destruct (scroll_step_waiting st e H) as [[Hi [Hu He]]|[Hw [Hu He]]].
      * destruct (IHi Hi) as [A B]. rewrite Hu in A, B. rewrite He.
        destruct (Touch.is_scroll_event e); cbn [List.length]; lia.
      * destruct (IHw Hw) as [A B]. rewrite Hu in A, B. rewrite He.
        destruct (Touch.is_scroll_event e); cbn [List.length]; lia.
Qed.

(** X10. Along any sequence of scroll events and animation frames after
    [setupScrollOptimizations], the class on [body] is updated at most once
    per frame and at most once per scroll event; a frame that no scroll
    event preceded updates nothing. *)
Theorem scroll_updates_bounded (y : Z) (s : dom) (es : list Touch.browser_event) :
  let st := Touch.scroll_run d (Touch.scroll_initial y s) es in
  (Touch.updates st <= List.length (List.filter Touch.is_frame_event es))%nat /\
  (Touch.updates st <= List.length (List.filter Touch.is_scroll_event es))%nat /\
  (Touch.ticking st = false ->
   Touch.scroll_step d st Touch.AnimationFrame = st).
Proof.
  cbv zeta.
  destruct (scroll_run_bound es (Touch.scroll_initial y s)) as [H _].
  destruct (H (conj eq_refl eq_refl)) as [A B]. cbn in A, B.
  split; [exact A|]. split; [exact B|]. intros Ht.
  destruct (scroll_run_invariant d es (Touch.scroll_initial y s)
              (or_introl (conj eq_refl eq_refl))) as [[_ Hp]|[Hw _]]; [|congruence].
  destruct (Touch.scroll_run d (Touch.scroll_initial y s) es) as [py tk pd up pg].
  cbn in *. subst. reflexivity.
Qed.

End ScrollBound.

(** ** Overlapping ripples *)

Section Ripples.

Variables (l : Touch.layout).

(** What one ripple does to the tree, when the node handed out is new. *)
Lemma createRippleEffect_tree (element : node) (x y : Q) (s : dom) :
  parentNode s !! nextNode s = None ->
  let out := Touch.createRippleEffect l element x y s in
  fst (fst out) = nextNode s /\
  nextNode (snd (fst out)) = S (nextNode s) /\
  parentNode (snd (fst out)) = <[ nextNode s := element ]> (parentNode s) /\
  childNodes (snd (fst out))
  = <[ element := children s element ++ [nextNode s] ]> (childNodes s).
Proof.
  intros Hfresh. cbv zeta. unfold Touch.createRippleEffect, createElement.
  set (s3 := if String.eqb (Touch.computedPosition l element) "static" then _ else _).
  assert (Htree : parentNode s3 = parentNode s /\ childNodes s3 = childNodes s /\
                  nextNode s3 = S (nextNode s)).
  { subst s3. destruct (String.eqb _ _); repeat split; reflexivity. }
  destruct Htree as [Hp [Hc Hn]]. cbn [fst snd].
  unfold appendChild. rewrite Hp, Hfresh. unfold with_tree, children.
  cbn [nextNode parentNode childNodes]. rewrite Hp, Hc, Hn. auto.
Qed.

Lemma removeRipple_attached (ripple p : node) (s : dom) :
  parentNode s !! ripple = Some p ->
  Touch.removeRipple ripple s = inr (detach p ripple s).
Proof.
  intros H. unfold Touch.removeRipple, removeChild. rewrite H.
  now rewrite bool_decide_eq_true_2 by reflexivity.
Qed.

(** X11. Two touch-starts on the same element before any timer fires leave
    two different ripples among its children, in the order of the touches.
    The timer of the first removes the first and leaves the second in place;
    the timer of the second then removes the second. Neither callback
    throws. *)
Theorem ripples_overlap (element : node) (x1 y1 x2 y2 : Q) (s : dom) :
  parentNode s !! nextNode s = None ->
  parentNode s !! S (nextNode s) = None ->
  let out1 := Touch.createRippleEffect l element x1 y1 s in
  let r1 := fst (fst out1) in
  let out2 := Touch.createRippleEffect l element x2 y2 (snd (fst out1)) in
  let r2 := fst (fst out2) in
  let s2 := snd (fst out2) in
  r1 <> r2 /\
  children s2 element = children s element ++ [r1; r2] /\
  exists s3 s4,
    Touch.removeRipple r1 s2 = inr s3 /\
    ~ In r1 (children s3 element) /\ In r2 (children s3 element) /\
    parentNode s3 !! r2 = Some element /\
    Touch.removeRipple r2 s3 = inr s4 /\
    ~ In r1 (children s4 element) /\ ~ In r2 (children s4 element).
Proof.
  intros F1 F2. cbv zeta.
  destruct (createRippleEffect_tree element x1 y1 s F1) as [E1 [N1 [P1 C1]]].
  set (out1 := Touch.createRippleEffect l element x1 y1 s) in *.
  set (s1 := snd (fst out1)) in *.
  assert (F1' : parentNode s1 !! nextNode s1 = None).
  { rewrite N1, P1. rewrite lookup_insert_ne by lia. exact F2. }
  destruct (createRippleEffect_tree element x2 y2 s1 F1') as [E2 [N2 [P2 C2]]].
  set (out2 := Touch.createRippleEffect l element x2 y2 s1) in *.
  set (s2 := snd (fst out2)) in *.
  rewrite E1, E2, N1.
  assert (Hch1 : children s1 element = children s element ++ [nextNode s]).
  { unfold children at 1. rewrite C1, lookup_insert_eq. reflexivity. }
  assert (Hch2 : children s2 element
                 = children s element ++ [nextNode s; S (nextNode s)]).
  { unfold children at 1. rewrite C2, lookup_insert_eq. cbn [default].
    rewrite Hch1, N1, <- app_assoc. reflexivity. }
  split; [lia|]. split; [exact Hch2|].
  assert (Hp1 : parentNode s2 !! nextNode s = Some element).
  { rewrite P2, N1, lookup_insert_ne by lia. rewrite P1. apply lookup_insert_eq. }
  assert (Hp2 : parentNode s2 !! S (nextNode s) = Some element).
  { rewrite P2, N1. apply lookup_insert_eq. }
  set (s3 := detach element (nextNode s) s2).
  set (s4 := detach element (S (nextNode s)) s3).
  assert (Hch3 : children s3 element
                 = List.filter (fun n => negb (Nat.eqb n (nextNode s)))
                     (children s element ++ [nextNode s; S (nextNode s)])).
  { unfold children at 1. subst s3. unfold detach, with_tree. cbn [childNodes].
    rewrite lookup_insert_eq. cbn [default]. now rewrite Hch2. }
  assert (Hp3 : parentNode s3 !! S (nextNode s) = Some element).
  { subst s3. unfold detach, with_tree. cbn [parentNode].
    rewrite lookup_delete_ne by lia. exact Hp2. }
  assert (Hch4 : children s4 element
                 = List.filter (fun n => negb (Nat.eqb n (S (nextNode s))))
                     (children s3 element)).
  { unfold children at 1. subst s4. unfold detach, with_tree. cbn [childNodes].
    rewrite lookup_insert_eq. reflexivity. }
  exists s3, s4. split.
  { apply removeRipple_attached. exact Hp1. }
  split.
  { rewrite Hch3. intros H. apply List.filter_In in H. destruct H as [_ H].
    now rewrite Nat.eqb_refl in H. }
  split.
  { rewrite Hch3. apply List.filter_In. split.
    - apply List.in_or_app. right. right. now left.
    - apply negb_true_iff, Nat.eqb_neq. lia. }
  split; [exact Hp3|]. split.
  { apply removeRipple_attached. exact Hp3. }
  split.
  { rewrite Hch4, Hch3. intros H. apply List.filter_In in H. destruct H as [H _].
    apply List.filter_In in H. destruct H as [_ H]. now rewrite Nat.eqb_refl in H. }
  { rewrite Hch4. intros H. apply List.filter_In in H. destruct H as [_ H].
    now rewrite Nat.eqb_refl in H. }
Qed.

End Ripples.

Lemma ripples_overlap_witness :
  parentNode Sample.page_dom !! nextNode Sample.page_dom = None /\
  parentNode Sample.page_dom !! S (nextNode Sample.page_dom) = None /\
  fst (fst (Touch.createRippleEffect Sample.page_layout 7%nat 50%Q 30%Q Sample.page_dom))
  <> fst (fst (Touch.createRippleEffect Sample.page_layout 7%nat 60%Q 35%Q
                 (snd (fst (Touch.createRippleEffect Sample.page_layout 7%nat 50%Q 30%Q
                              Sample.page_dom))))).
Proof.
  split; [reflexivity|]. split; [reflexivity|].
  apply (ripples_overlap Sample.page_layout 7%nat 50%Q 30%Q 60%Q 35%Q Sample.page_dom);
    reflexivity.
Defined.

(** ** What a run may do *)

Section RunSpec.

Variables (P : effect -> Prop) (R : dom -> dom -> Prop).

Hypothesis R_refl : forall s, R s s.
Hypothesis R_trans : forall a b c, R a b -> R b c -> R a c.

Lemma run_spec_ret {A : Type} (a : A) : run_spec P R (ret a).
Proof. intros s. split; [constructor | apply R_refl]. Qed.

Lemma run_spec_throw {A : Type} (e : exn) : run_spec P R (@throw A e).
Proof. intros s. split; [constructor | apply R_refl]. Qed.

Lemma run_spec_gets {A : Type} (f : dom -> A) : run_spec P R (gets f).
Proof. intros s. split; [constructor | apply R_refl]. Qed.

Lemma run_spec_emit (e : effect) : P e -> run_spec P R (emit e).
Proof. intros H s. split; [repeat constructor; exact H | apply R_refl]. Qed.

Lemma run_spec_modify (f : dom -> dom) : (forall s, R s (f s)) -> run_spec P R (modify f).
Proof. intros H s. split; [constructor | apply H]. Qed.

Lemma run_spec_bind {A B : Type} (m : M A) (k : A -> M B) :
  run_spec P R m -> (forall a, run_spec P R (k a)) -> run_spec P R (bind m k).
Proof.
  intros Hm Hk s. destruct (Hm s) as [Pm Rm]. unfold bind.
  destruct (o_val (m s)) as [e|a]; cbn [o_trace o_dom]; [now split|].
  destruct (Hk a (o_dom (m s))) as [Pk Rk]. split.
  - apply Forall_app. now split.
  - eapply R_trans; eassumption.
Qed.

Lemma run_spec_throw_bind {A B : Type} (e : exn) (k : A -> M B) :
  run_spec P R (bind (throw e) k).
Proof. intros s. split; [constructor | apply R_refl]. Qed.

Lemma run_spec_forEach {B : Type} (l : list B) (f : B -> M unit) :
  (forall x, run_spec P R (f x)) -> run_spec P R (forEach l f).
Proof.
  intros Hf. induction l as [|x l IH]; cbn [forEach].
  - apply run_spec_ret.
  - apply run_spec_bind; [apply Hf | intros _; exact IH].
Qed.

Lemma run_spec_when (c : bool) (m : M unit) : run_spec P R m -> run_spec P R (when c m).
Proof. intros H. destruct c; [exact H | apply run_spec_ret]. Qed.

End RunSpec.

Lemma bind_unit_returns {B : Type} (m : M unit) (k : unit -> M B) (s : dom) :
  returned (m s) = true ->
  bind m k s
  = Outcome (o_dom (k tt (o_dom (m s)))) (o_trace (m s) ++ o_trace (k tt (o_dom (m s))))
      (o_val (k tt (o_dom (m s)))).
Proof.
  unfold returned, bind. destruct (o_val (m s)) as [e|[]]; [discriminate | reflexivity].
Qed.

Lemma forEach_emit {B : Type} (l : list B) (f : B -> effect) (s : dom) :
  forEach l (fun x => emit (f x)) s = Outcome s (map f l) (inr tt).
Proof.
  induction l as [|x l IH]; [reflexivity|].
  cbn [forEach map]. rewrite (bind_ok _ _ s s [f x] tt) by reflexivity.
  now rewrite IH.
Qed.

(** ** Initialisation on a touch device *)

Section TouchInit.

Variables (w : Touch.window_env) (d : document).

Lemma setup_frame_refl (s : dom) : Touch.setup_frame s s.
Proof. unfold Touch.setup_frame. repeat split; reflexivity. Qed.

Lemma setup_frame_trans (a b c : dom) :
  Touch.setup_frame a b -> Touch.setup_frame b c -> Touch.setup_frame a c.
Proof.
  unfold Touch.setup_frame.
  intros [A1 [A2 [A3 [A4 [A5 [A6 [A7 A8]]]]]]] [B1 [B2 [B3 [B4 [B5 [B6 [B7 B8]]]]]]].
  repeat split; try congruence. intros n k Hk. rewrite B8, A8; auto.
Qed.

Lemma setup_frame_aria (n : node) (v : string) (s : dom) :
  Touch.setup_frame s (setAttribute n "aria-label" v s).
Proof.
  unfold Touch.setup_frame, setAttribute, with_attrs. cbn. repeat split.
  intros n' k Hk. apply lookup_insert_ne. intros E. inversion E. congruence.
Qed.

Lemma spec_listen (n : node) (type : string) (h : handler) (passive : bool) :
  run_spec Touch.element_listener Touch.setup_frame
    (Touch.listen (OnNode n) type h passive).
Proof. apply run_spec_emit; [exact setup_frame_refl | exact I]. Qed.

Lemma spec_bind {A B : Type} (m : M A) (k : A -> M B) :
  run_spec Touch.element_listener Touch.setup_frame m ->
  (forall a, run_spec Touch.element_listener Touch.setup_frame (k a)) ->
  run_spec Touch.element_listener Touch.setup_frame (bind m k).
Proof. apply run_spec_bind. exact setup_frame_trans. Qed.

Lemma spec_forEach (l : list node) (f : node -> M unit) :
  (forall x, run_spec Touch.element_listener Touch.setup_frame (f x)) ->
  run_spec Touch.element_listener Touch.setup_frame (forEach l f).
Proof. apply run_spec_forEach; [exact setup_frame_refl | exact setup_frame_trans]. Qed.

Lemma spec_ret : run_spec Touch.element_listener Touch.setup_frame (ret tt).
Proof. apply run_spec_ret, setup_frame_refl. Qed.

Lemma spec_setupTouchFeedback :
  run_spec Touch.element_listener Touch.setup_frame (Touch.setupTouchFeedback d).
Proof.
  unfold Touch.setupTouchFeedback. apply spec_forEach. intros x.
  repeat (apply spec_bind; [apply spec_listen | intros _]). apply spec_listen.
Qed.

Lemma spec_setupSwipeGestures :
  run_spec Touch.element_listener Touch.setup_frame (Touch.setupSwipeGestures d).
Proof.
  unfold Touch.setupSwipeGestures. apply spec_bind.
  - destruct (querySelector d ".mobile-menu"); [|apply spec_ret].
    unfold Touch.setupSwipeToClose.
    repeat (apply spec_bind; [apply spec_listen | intros _]). apply spec_listen.
  - intros _. apply spec_bind; [|intros _]; apply spec_forEach; intros x.
    + unfold Touch.setupSliderSwipe.
      destruct (querySelectorIn d x ".w-slider-mask"); [|apply spec_ret].
      repeat (apply spec_bind; [apply spec_listen | intros _]). apply spec_listen.
    + unfold Touch.setupImageSwipe.
      repeat (apply spec_bind; [apply spec_listen | intros _]). apply spec_listen.
Qed.

Lemma spec_setupMobileMenuEnhancements :
  run_spec Touch.element_listener Touch.setup_frame (Touch.setupMobileMenuEnhancements d).
Proof.
  unfold Touch.setupMobileMenuEnhancements. apply spec_bind.
  - destruct (querySelector d ".w-nav-button"); [|apply spec_ret].
    apply spec_bind; [apply spec_listen | intros _].
    apply run_spec_modify. intros s. apply setup_frame_aria.
  - intros _. destruct (querySelector d ".mobile-menu"); [|apply spec_ret].
    apply run_spec_emit; [exact setup_frame_refl | exact I].
Qed.

Lemma spec_setupFormOptimizations :
  run_spec Touch.element_listener Touch.setup_frame (Touch.setupFormOptimizations w d).
Proof.
  unfold Touch.setupFormOptimizations. apply spec_forEach. intros x.
  apply spec_bind; [|intros _; apply spec_listen].
  apply run_spec_when; [exact setup_frame_refl | apply spec_listen].
Qed.

(** X12. On a touch device on which no script defines
    [setupImageGalleryTouch], the initialisation ends in a ReferenceError.
    By then it has put the class [touch-device] on [body], registered
    listeners on elements and the menu observer, and changed nothing else
    but [aria-label]; it has registered no scroll listener and logged
    nothing. Loading the script then appends no style sheet, and defines
    [window.TouchEnhancements] only when the document was still loading. *)
Theorem touch_init_stops_at_gallery (s : dom) :
  Touch.isTouchDevice w = true ->
  Touch.global_setupImageGalleryTouch w = None ->
  let r := Touch.initTouchEnhancements w d s in
  o_val r = inl (ReferenceError "setupImageGalleryTouch is not defined") /\
  Forall Touch.element_listener (o_trace r) /\
  Touch.setup_frame (classList_add (doc_body d) "touch-device" s) (o_dom r) /\
  fst (Touch.load w d s) = o_dom r /\
  snd (Touch.load w d s)
  = (if Touch.readyState_loading w
     then [AddEventListener OnDocument "DOMContentLoaded" OnDomContentLoaded false;
           DefineGlobal "TouchEnhancements"]
     else []) ++ o_trace r.
Proof.
  intros Ht Hg r.
  assert (Hv : o_val r = inl (ReferenceError "setupImageGalleryTouch is not defined")).
  { subst r. now apply initTouchEnhancements_throws. }
  assert (Hr : r = Outcome (o_dom r) (o_trace r)
                     (inl (ReferenceError "setupImageGalleryTouch is not defined"))).
  { rewrite <- Hv. apply outcome_eta. }
  split; [exact Hv|].
  assert (Hspec : Forall Touch.element_listener (o_trace r) /\
                  Touch.setup_frame (classList_add (doc_body d) "touch-device" s) (o_dom r)).
  { subst r. unfold Touch.initTouchEnhancements. rewrite Ht. cbn [negb].
    rewrite (bind_ok _ _ s (classList_add (doc_body d) "touch-device" s) [] tt)
      by reflexivity.
    cbn [o_trace o_dom app].
    match goal with
    | |- Forall _ (o_trace (?m ?s0)) /\ _ =>
        apply (fun H : run_spec Touch.element_listener Touch.setup_frame m => H s0)
    end.
    apply spec_bind; [apply spec_setupTouchFeedback | intros _].
    apply spec_bind; [apply spec_setupSwipeGestures | intros _].
    apply spec_bind; [apply spec_setupMobileMenuEnhancements | intros _].
    apply spec_bind; [apply spec_setupFormOptimizations | intros _].
    unfold Touch.setupImageGalleryTouch. rewrite Hg.
    apply run_spec_throw_bind. exact setup_frame_refl. }
  destruct Hspec as [Hp Hf]. split; [exact Hp|]. split; [exact Hf|].
  subst r. unfold Touch.load, Touch.script, Touch.onDomContentLoaded.
  destruct (Touch.readyState_loading w).
  - cbn [bind Touch.listen emit o_val o_dom o_trace app].
    rewrite (bind_throw _ _ s _ _ _ Hr). cbn [o_dom o_trace]. split; reflexivity.
  - rewrite (bind_throw _ _ s _ _ _ (bind_throw _ _ s _ _ _ Hr)).
    cbn [o_dom o_trace]. split; reflexivity.
Qed.

End TouchInit.

Lemma touch_init_stops_at_gallery_witness :
  Touch.isTouchDevice (Sample.phone false) = true /\
  Touch.global_setupImageGalleryTouch (Sample.phone false) = None /\
  fst (Touch.load (Sample.phone false) Sample.page_document Sample.page_dom)
  = o_dom (Touch.initTouchEnhancements (Sample.phone false) Sample.page_document
             Sample.page_dom).
Proof.
  split; [reflexivity|]. split; [reflexivity|].
  apply (touch_init_stops_at_gallery (Sample.phone false) Sample.page_document
           Sample.page_dom); reflexivity.
Defined.

Section TouchInitCompletes.

Variables (w : Touch.window_env) (d : document).

Lemma setupScrollOptimizations_run (s : dom) :
  Touch.setupScrollOptimizations d s
  = Outcome s
      (map (fun link => AddEventListener (OnNode link) "click" (AnchorClick link) false)
         (querySelectorAll d "a[href^=#]") ++
       [AddEventListener OnWindow "scroll" ScrollListener true])
      (inr tt).
Proof.
  unfold Touch.setupScrollOptimizations, Touch.listen.
  rewrite (bind_ok _ _ s s _ tt (forEach_emit _ _ s)). reflexivity.
Qed.

Lemma bind_ends_with (m : M unit) (k : unit -> M unit) (tail : list effect) :
  returns m ->
  (forall s, returned (k tt s) = true /\ exists pre, o_trace (k tt s) = pre ++ tail) ->
  forall s, returned (bind m k s) = true /\ exists pre, o_trace (bind m k s) = pre ++ tail.
Proof.
  intros Hm Hk s. rewrite (bind_unit_returns m k s) by apply Hm.
  cbn [o_trace o_val returned]. destruct (Hk (o_dom (m s))) as [Hr [pre E]]. split.
  - exact Hr.
  - exists (o_trace (m s) ++ pre). rewrite E. apply app_assoc.
Qed.

(** X13. On a touch device on which another script defines a
    [setupImageGalleryTouch] that returns, the initialisation returns; the
    last things it does are the click listeners of the anchor links, one
    scroll listener on [window], and the log line. *)
Theorem touch_init_completes (f : M unit) (s : dom) :
  Touch.isTouchDevice w = true ->
  Touch.global_setupImageGalleryTouch w = Some f ->
  returns f ->
  let r := Touch.initTouchEnhancements w d s in
  returned r = true /\
  exists pre,
    o_trace r
    = pre ++
      map (fun link => AddEventListener (OnNode link) "click" (AnchorClick link) false)
        (querySelectorAll d "a[href^=#]") ++
      [AddEventListener OnWindow "scroll" ScrollListener true;
       ConsoleLog "Touch enhancements initialized"].
Proof.
  intros Ht Hg Hf. cbv zeta. unfold Touch.initTouchEnhancements. rewrite Ht. cbn [negb].
  unfold Touch.setupImageGalleryTouch. rewrite Hg. revert s.
  apply bind_ends_with; [apply returns_modify | cbv beta].
  apply bind_ends_with; [apply setupTouchFeedback_returns | cbv beta].
  apply bind_ends_with; [apply setupSwipeGestures_returns | cbv beta].
  apply bind_ends_with; [apply setupMobileMenuEnhancements_returns | cbv beta].
  apply bind_ends_with; [apply setupFormOptimizations_returns | cbv beta].
  apply bind_ends_with; [exact Hf | cbv beta].
  intros s. rewrite (bind_ok _ _ _ _ _ _ (setupScrollOptimizations_run s)).
  cbn [emit o_dom o_trace o_val]. split; [reflexivity|].
  exists []. cbn [app]. now rewrite <- app_assoc.
Qed.

End TouchInitCompletes.

Lemma touch_init_completes_witness :
  Touch.isTouchDevice (Sample.phone_with_gallery false) = true /\
  Touch.global_setupImageGalleryTouch (Sample.phone_with_gallery false) = Some (ret tt) /\
  returns (ret tt) /\
  returned (Touch.initTouchEnhancements (Sample.phone_with_gallery false)
              Sample.page_document Sample.page_dom) = true.
Proof.
  split; [reflexivity|]. split; [reflexivity|]. split; [apply returns_ret|].
  apply (touch_init_completes (Sample.phone_with_gallery false) Sample.page_document
           (ret tt) Sample.page_dom); [reflexivity | reflexivity | apply returns_ret].
Defined.

(** ** Scroll events after loading *)

Section LoadedScroll.

Variables (w : Touch.window_env) (d : document).

Lemma scroll_listeners_app (a b : list effect) :
  Touch.scroll_listeners (a ++ b) = Touch.scroll_listeners a ++ Touch.scroll_listeners b.
Proof. apply flat_map_app. Qed.

Lemma element_listeners_no_scroll (tr : list effect) :
  Forall Touch.element_listener tr -> Touch.scroll_listeners tr = [].
Proof.
  induction 1 as [|e tr He _ IH]; [reflexivity|].
  unfold Touch.scroll_listeners in *. cbn [flat_map]. rewrite IH, app_nil_r.
  destruct e as [| | |t type h p| | | | | | | | | | | | | |]; try contradiction;
    [|reflexivity].
  destruct t; [contradiction | contradiction | reflexivity].
Qed.

(** The style sheet and the export register nothing for [scroll]. *)
Lemma trace_then_addRippleStyles (m : M unit) (s : dom) :
  o_trace (bind m (fun _ => Touch.addRippleStyles d) s) = o_trace (m s).
Proof.
  unfold bind. destruct (o_val (m s)) as [e|a]; [reflexivity|].
  cbn [o_trace]. unfold Touch.addRippleStyles. cbn [createElement o_trace].
  apply app_nil_r.
Qed.

Lemma scroll_listeners_then_export (m : M unit) (name : string) (s : dom) :
  Touch.scroll_listeners (o_trace (bind m (fun _ => emit (DefineGlobal name)) s))
  = Touch.scroll_listeners (o_trace (m s)).
Proof.
  unfold bind. destruct (o_val (m s)) as [e|a]; [reflexivity|].
  cbn [o_trace emit]. rewrite scroll_listeners_app. apply app_nil_r.
Qed.

(** Whatever loading registers for [scroll], [initTouchEnhancements]
    registered it, in either ready state. *)
Lemma load_scroll_listeners (s : dom) :
  Touch.scroll_listeners (snd (Touch.load w d s))
  = Touch.scroll_listeners (o_trace (Touch.initTouchEnhancements w d s)).
Proof.
  unfold Touch.load, Touch.script, Touch.onDomContentLoaded.
  destruct (Touch.readyState_loading w); cbn [snd].
  - cbn [bind Touch.listen emit o_val o_dom o_trace app].
    rewrite trace_then_addRippleStyles. reflexivity.
  - rewrite scroll_listeners_then_export, trace_then_addRippleStyles. reflexivity.
Qed.

Lemma init_without_gallery_trace (s : dom) :
  Touch.isTouchDevice w = true ->
  Touch.global_setupImageGalleryTouch w = None ->
  Forall Touch.element_listener (o_trace (Touch.initTouchEnhancements w d s)).
Proof.
  intros Ht Hg. unfold Touch.initTouchEnhancements. rewrite Ht. cbn [negb].
  rewrite (bind_ok _ _ s (classList_add (doc_body d) "touch-device" s) [] tt)
    by reflexivity.
  cbn [o_trace app].
  match goal with
  | |- Forall _ (o_trace (?m ?s0)) =>
      apply (fun H : run_spec Touch.element_listener Touch.setup_frame m => proj1 (H s0))
  end.
  apply spec_bind; [apply spec_setupTouchFeedback | intros _].
  apply spec_bind; [apply spec_setupSwipeGestures | intros _].
  apply spec_bind; [apply spec_setupMobileMenuEnhancements | intros _].
  apply spec_bind; [apply spec_setupFormOptimizations | intros _].
  unfold Touch.setupImageGalleryTouch. rewrite Hg.
  apply run_spec_throw_bind. exact setup_frame_refl.
Qed.

Lemma init_with_gallery_trace (f : M unit) (s : dom) :
  Touch.isTouchDevice w = true ->
  Touch.global_setupImageGalleryTouch w = Some f ->
  returns f ->
  exists pre,
    o_trace (Touch.initTouchEnhancements w d s)
    = pre ++ [AddEventListener OnWindow "scroll" ScrollListener true;
              ConsoleLog "Touch enhancements initialized"].
Proof.
  intros Ht Hg Hf. unfold Touch.initTouchEnhancements. rewrite Ht. cbn [negb].
  unfold Touch.setupImageGalleryTouch. rewrite Hg. revert s.
  apply bind_ends_with; [apply returns_modify | cbv beta].
  apply bind_ends_with; [apply setupTouchFeedback_returns | cbv beta].
  apply bind_ends_with; [apply setupSwipeGestures_returns | cbv beta].
  apply bind_ends_with; [apply setupMobileMenuEnhancements_returns | cbv beta].
  apply bind_ends_with; [apply setupFormOptimizations_returns | cbv beta].
  apply bind_ends_with; [exact Hf | cbv beta].
  intros s. rewrite (bind_ok _ _ _ _ _ _ (setupScrollOptimizations_run d s)).
  cbn [emit o_dom o_trace o_val]. split; [reflexivity|].
  eexists. rewrite <- app_assoc. reflexivity.
Qed.

(** The listener does nothing on a state it has just left. *)
Lemma scroll_listener_twice (st : Touch.scroll_state) :
  Touch.scroll_listener (Touch.scroll_listener st) = Touch.scroll_listener st.
Proof.
  unfold Touch.scroll_listener. destruct (Touch.ticking st) eqn:E; cbn [negb].
  - now rewrite E.
  - reflexivity.
Qed.

Lemma dispatch_after_listener (hs : list handler) (st : Touch.scroll_state) :
  Touch.dispatch_scroll hs (Touch.scroll_listener st) = Touch.scroll_listener st.
Proof.
  unfold Touch.dispatch_scroll.
  induction hs as [|h hs IH]; [reflexivity|].
  destruct h; cbn [fold_left]; try exact IH.
  rewrite scroll_listener_twice. exact IH.
Qed.

Lemma dispatch_registered (hs : list handler) (st : Touch.scroll_state) :
  In ScrollListener hs -> Touch.dispatch_scroll hs st = Touch.scroll_listener st.
Proof.
  induction hs as [|h hs IH]; intros Hin; [contradiction|].
  destruct Hin as [->|Hin].
  - apply (dispatch_after_listener hs st).
  - destruct h; try exact (IH Hin). apply (dispatch_after_listener hs st).
Qed.

Lemma browser_step_registered (hs : list handler) (st : Touch.scroll_state)
    (e : Touch.browser_event) :
  In ScrollListener hs -> Touch.browser_step d hs st e = Touch.scroll_step d st e.
Proof.
  intros Hin. destruct e as [y|]; [|reflexivity].
  cbn [Touch.browser_step Touch.scroll_step]. now apply dispatch_registered.
Qed.

Lemma loaded_run_registered (s : dom) (y : Z) (es : list Touch.browser_event) :
  In ScrollListener (Touch.scroll_listeners (snd (Touch.load w d s))) ->
  Touch.loaded_run w d s y es
  = Touch.scroll_run d (Touch.scroll_initial y (fst (Touch.load w d s))) es.
Proof.
  intros Hin. unfold Touch.loaded_run, Touch.scroll_run.
  generalize (Touch.scroll_initial y (fst (Touch.load w d s))).
  induction es as [|e es IH]; intros st; [reflexivity|].
  cbn [fold_left]. rewrite (browser_step_registered _ st e Hin). apply IH.
Qed.

(** With nothing registered, events only move the offset. *)
Lemma unregistered_run (es : list Touch.browser_event) :
  forall st,
    Touch.pending st = [] ->
    let st' := fold_left (Touch.browser_step d []) es st in
    Touch.updates st' = Touch.updates st /\ Touch.page st' = Touch.page st /\
    Touch.pending st' = [] /\ Touch.ticking st' = Touch.ticking st.
Proof.
  induction es as [|e es IH]; intros st Hp; cbv zeta; [now repeat split|].
  cbn [fold_left].
  assert (Hstep : Touch.updates (Touch.browser_step d [] st e) = Touch.updates st /\
                  Touch.page (Touch.browser_step d [] st e) = Touch.page st /\
                  Touch.pending (Touch.browser_step d [] st e) = [] /\
                  Touch.ticking (Touch.browser_step d [] st e) = Touch.ticking st).
  { destruct e as [y|]; cbn [Touch.browser_step Touch.scroll_step Touch.dispatch_scroll
                              fold_left].
    - cbn. now repeat split.
    - rewrite Hp. cbn. now repeat split. }
  destruct Hstep as (Hu & Hg & Hp' & Ht).
  destruct (IH _ Hp') as (IHu & IHg & IHp & IHt).
  rewrite IHu, IHg, IHt. now repeat split.
Qed.

Lemma loaded_run_unregistered (s : dom) (y : Z) (es : list Touch.browser_event) :
  Touch.scroll_listeners (snd (Touch.load w d s)) = [] ->
  Touch.updates (Touch.loaded_run w d s y es) = 0%nat /\
  Touch.page (Touch.loaded_run w d s y es) = fst (Touch.load w d s).
Proof.
  intros Hn. unfold Touch.loaded_run. rewrite Hn.
  destruct (unregistered_run es (Touch.scroll_initial y (fst (Touch.load w d s))) eq_refl)
    as (Hu & Hg & _ & _).
  split; [exact Hu | exact Hg].
Qed.

(** C7. The throttle itself works as described, and the script as it stands
    never reaches it. Unless some other script defines
    [setupImageGalleryTouch], loading registers no listener for [scroll]: on
    a touch device [initTouchEnhancements] ends in a ReferenceError before
    it calls [setupScrollOptimizations], without touch it returns at once.
    Then [N] scroll events and an animation frame, and any other sequence of
    events, run [updateScrollPosition] not once and leave the page as
    loading left it. Only on a touch device where that function is defined
    and returns is the listener registered; there [N >= 1] scroll events and
    the frame after them give one update, which puts [scrolled] on [body]
    exactly when the last offset exceeds 100 and changes no other class,
    clears the flag and leaves nothing requested, and no sequence of events
    ever has more than one callback requested. *)
Theorem scroll_throttle_after_load (s : dom) (y0 : Z) (ys : list Z) :
  ys <> [] ->
  let st' := Touch.loaded_run w d s y0 (map Touch.Scroll ys ++ [Touch.AnimationFrame]) in
  (Touch.isTouchDevice w = false \/ Touch.global_setupImageGalleryTouch w = None ->
   Touch.scroll_listeners (snd (Touch.load w d s)) = [] /\
   Touch.updates st' = 0%nat /\
   Touch.page st' = fst (Touch.load w d s) /\
   (forall es, Touch.updates (Touch.loaded_run w d s y0 es) = 0%nat /\
               Touch.page (Touch.loaded_run w d s y0 es) = fst (Touch.load w d s))) /\
  (forall f : M unit,
      Touch.isTouchDevice w = true ->
      Touch.global_setupImageGalleryTouch w = Some f ->
      returns f ->
      In ScrollListener (Touch.scroll_listeners (snd (Touch.load w d s))) /\
      Touch.updates st' = 1%nat /\
      ((doc_body d, "scrolled") ∈ classes (Touch.page st') <-> 100 < List.last ys 0) /\
      (forall c, c <> (doc_body d, "scrolled") ->
                 (c ∈ classes (Touch.page st') <-> c ∈ classes (fst (Touch.load w d s)))) /\
      Touch.ticking st' = false /\
      Touch.pending st' = [] /\
      Touch.pending (Touch.loaded_run w d s y0 (map Touch.Scroll ys))
      = [UpdateScrollPosition] /\
      (forall es, (List.length (Touch.pending (Touch.loaded_run w d s y0 es)) <= 1)%nat)).
Proof.
  intros Hys st'. split.
  - intros Hw.
    assert (Hn : Touch.scroll_listeners (snd (Touch.load w d s)) = []).
    { rewrite load_scroll_listeners. destruct Hw as [Hno|Hg].
      - now rewrite (initTouchEnhancements_no_touch w d s Hno).
      - destruct (Touch.isTouchDevice w) eqn:Ht.
        + now apply element_listeners_no_scroll, init_without_gallery_trace.
        + now rewrite (initTouchEnhancements_no_touch w d s Ht). }
    split; [exact Hn|].
    destruct (loaded_run_unregistered s y0
                (map Touch.Scroll ys ++ [Touch.AnimationFrame]) Hn) as [Hu Hg].
    split; [exact Hu|]. split; [exact Hg|].
    intros es. now apply loaded_run_unregistered.
  - intros f Ht Hg Hf.
    assert (Hin : In ScrollListener (Touch.scroll_listeners (snd (Touch.load w d s)))).
    { rewrite load_scroll_listeners.
      destruct (init_with_gallery_trace f s Ht Hg Hf) as [pre E]. rewrite E.
      rewrite scroll_listeners_app. apply in_or_app. right. now left. }
    split; [exact Hin|]. subst st'.
    rewrite (loaded_run_registered s y0 _ Hin), (loaded_run_registered s y0 _ Hin).
    destruct (scroll_run_one_update d (Touch.scroll_initial y0 (fst (Touch.load w d s)))
                ys eq_refl eq_refl Hys) as (Hu & Hc & Ho & Hk & Hp & Hq & Hb).
    split; [exact Hu|]. split; [exact Hc|]. split; [exact Ho|]. split; [exact Hk|].
    split; [exact Hp|]. split; [exact Hq|].
    intros es. rewrite (loaded_run_registered s y0 es Hin). apply Hb.
Qed.

End LoadedScroll.

Lemma scroll_throttle_after_load_witness :
  [10; 150; 170] <> [] /\
  Touch.global_setupImageGalleryTouch (Sample.phone false) = None /\
  Touch.updates
    (Touch.loaded_run (Sample.phone false) Sample.page_document Sample.page_dom 0
       (map Touch.Scroll [10; 150; 170] ++ [Touch.AnimationFrame])) = 0%nat.
Proof.
  assert (Hys : [10; 150; 170] <> []) by discriminate.
  split; [exact Hys|]. split; [reflexivity|].
  destruct (scroll_throttle_after_load (Sample.phone false) Sample.page_document
              Sample.page_dom 0 [10; 150; 170] Hys) as [Hnone _].
  destruct (Hnone (or_intror eq_refl)) as (_ & Hu & _). exact Hu.
Defined.

(** Three scroll events, the last at 170px, and a frame: on the phone as it
    is nothing is updated and [body] is not marked; on the phone where
    another script defines the missing function there is one update and
    [body] is marked. *)
Example phone_scroll_not_throttled :
  let st := Touch.loaded_run (Sample.phone false) Sample.page_document Sample.page_dom 0
              (map Touch.Scroll [10; 150; 170] ++ [Touch.AnimationFrame]) in
  (Touch.updates st, classList_contains (Touch.page st) 0%nat "scrolled") = (0%nat, false).
Proof. vm_compute. reflexivity. Qed.

Example phone_with_gallery_scroll_throttled :
  let st := Touch.loaded_run (Sample.phone_with_gallery false) Sample.page_document
              Sample.page_dom 0
              (map Touch.Scroll [10; 150; 170] ++ [Touch.AnimationFrame]) in
  (Touch.updates st, classList_contains (Touch.page st) 0%nat "scrolled") = (1%nat, true).
Proof. vm_compute. reflexivity. Qed.

(** ** The will-change hint *)

Section WillChangeHint.

Lemma willChangeAll_cons (p : string) (a : node) (l : list node) (s : dom) :
  Gsap.willChangeAll p (a :: l) s
  = Gsap.willChangeAll p l (setStyle a "will-change" (CssText p) s).
Proof. reflexivity. Qed.

Lemma willChangeAll_app (p : string) (l1 l2 : list node) (s : dom) :
  Gsap.willChangeAll p (l1 ++ l2) s = Gsap.willChangeAll p l2 (Gsap.willChangeAll p l1 s).
Proof. unfold Gsap.willChangeAll. apply fold_left_app. Qed.

Lemma willChangeAll_other (p : string) (l : list node) :
  forall (s : dom) (n : node) (k : string),
    ~ In n l \/ k <> "will-change" ->
    styles (Gsap.willChangeAll p l s) !! (n, k) = styles s !! (n, k).
Proof.
  induction l as [|a l IH]; intros s n k H; [reflexivity|].
  rewrite willChangeAll_cons, IH.
  - apply styles_setStyle_ne. intros E. inversion E; subst.
    destruct H as [H|H]; [apply H; now left | congruence].
  - destruct H as [H|H]; [left; intros Hin; apply H; now right | now right].
Qed.

Lemma willChangeAll_in (p : string) (l : list node) :
  forall (s : dom) (n : node),
    In n l -> styles (Gsap.willChangeAll p l s) !! (n, "will-change") = Some (CssText p).
Proof.
  induction l as [|a l IH]; intros s n H; [contradiction|].
  rewrite willChangeAll_cons.
  destruct (in_dec Nat.eq_dec n l) as [Hin|Hout]; [now apply IH|].
  destruct H as [->|H]; [|contradiction].
  rewrite willChangeAll_other by (now left). apply styles_setStyle_eq.
Qed.

(** X14. [createOptimizedScrollTrigger] gives every element of its group the
    hint [will-change: transform, opacity] and the [onComplete] of its tween
    sets the hint of every one of them to [auto]; neither touches another
    style property or another element, and [onComplete] traces nothing and
    cannot throw. The hint is set to [auto], not removed. *)
Theorem will_change_set_then_auto (elements : list node) (fromVars toVars : vars)
    (tp : Gsap.triggerProps) (s : dom) :
  let s1 := o_dom (Gsap.createOptimizedScrollTrigger elements fromVars toVars tp s) in
  let r2 := Gsap.onComplete elements s1 in
  o_val r2 = inr tt /\ o_trace r2 = [] /\
  (forall n, In n elements ->
             styles s1 !! (n, "will-change") = Some (CssText "transform, opacity") /\
             styles (o_dom r2) !! (n, "will-change") = Some (CssText "auto")) /\
  (forall n k, ~ In n elements \/ k <> "will-change" ->
               styles s1 !! (n, k) = styles s !! (n, k) /\
               styles (o_dom r2) !! (n, k) = styles s !! (n, k)).
Proof.
  cbv zeta.
  destruct (createOptimizedScrollTrigger_run elements fromVars toVars tp s)
    as [tr [E _]].
  rewrite E. cbn [o_dom]. unfold Gsap.onComplete, Gsap.removeWillChange.
  change (forEach (Gsap.elements_of elements) (Gsap.setWillChange "auto"))
    with (Gsap.addWillChange (Gsap.elements_of elements) "auto").
  rewrite addWillChange_elements. cbn [o_dom o_trace o_val].
  split; [reflexivity|]. split; [reflexivity|]. split.
  - intros n Hn. split; now apply willChangeAll_in.
  - intros n k H. rewrite !willChangeAll_other by exact H. now split.
Qed.

End WillChangeHint.

(** ** Image groups *)

Section ImageGroups.

Variable d : document.

Lemma trigger_group_run (elems : list node) (f t : vars) (tp : Gsap.triggerProps) :
  exists tr,
    (forall s, when (Gsap.nonempty elems) (Gsap.createOptimizedScrollTrigger elems f t tp) s
               = Outcome (Gsap.willChangeAll "transform, opacity" elems s) tr (inr tt)) /\
    Gsap.tween_targets tr = List.filter Gsap.nonempty [elems] /\
    List.length tr = List.length (List.filter Gsap.nonempty [elems]) /\
    Forall Gsap.animation_call tr.
Proof.
  destruct elems as [|first rest].
  - exists []. repeat split; constructor.
  - eexists. split; [|split; [|split]].
    + intros s. cbn [Gsap.nonempty when]. unfold Gsap.createOptimizedScrollTrigger.
      rewrite (bind_ok _ _ _ _ _ _ (addWillChange_elements _ _ _)).
      cbn [emit o_dom o_trace o_val app]. reflexivity.
    + reflexivity.
    + reflexivity.
    + repeat constructor.
Qed.

Lemma trigger_groups_forEach {B : Type} (l : list B) (f : B -> M unit)
    (sel : B -> list node) :
  (forall x, exists tr,
      (forall s, f x s = Outcome (Gsap.willChangeAll "transform, opacity" (sel x) s) tr
                           (inr tt)) /\
      Gsap.tween_targets tr = List.filter Gsap.nonempty [sel x] /\
      List.length tr = List.length (List.filter Gsap.nonempty [sel x]) /\
      Forall Gsap.animation_call tr) ->
  exists tr,
    (forall s, forEach l f s
               = Outcome (Gsap.willChangeAll "transform, opacity" (concat (map sel l)) s)
                   tr (inr tt)) /\
    Gsap.tween_targets tr = List.filter Gsap.nonempty (map sel l) /\
    List.length tr = List.length (List.filter Gsap.nonempty (map sel l)) /\
    Forall Gsap.animation_call tr.
Proof.
  intros Hf. induction l as [|x l IH].
  - exists []. repeat split; constructor.
  - destruct (Hf x) as [t1 [E1 [T1 [L1 F1]]]]. destruct IH as [t2 [E2 [T2 [L2 F2]]]].
    exists (t1 ++ t2). split; [|split; [|split]].
    + intros s. cbn [forEach map concat]. rewrite (bind_ok _ _ _ _ _ _ (E1 s)).
      rewrite E2. cbn [o_dom o_trace o_val]. now rewrite willChangeAll_app.
    + unfold Gsap.tween_targets in *. rewrite flat_map_app, T1, T2.
      cbn [map List.filter]. destruct (Gsap.nonempty (sel x)); reflexivity.
    + rewrite List.length_app, L1, L2. cbn [map List.filter].
      destruct (Gsap.nonempty (sel x)); reflexivity.
    + apply Forall_app. now split.
Qed.

Lemma images_run :
  exists tr,
    (forall s, Gsap.initOptimizedImageAnimations d s
               = Outcome (Gsap.willChangeAll "transform, opacity"
                            (concat (Gsap.imageGroups d)) s) tr (inr tt)) /\
    Gsap.tween_targets tr = List.filter Gsap.nonempty (Gsap.imageGroups d) /\
    List.length tr = List.length (List.filter Gsap.nonempty (Gsap.imageGroups d)) /\
    Forall Gsap.animation_call tr.
Proof.
  unfold Gsap.initOptimizedImageAnimations, Gsap.imageGroups.
  match goal with
  | |- context [when (Gsap.nonempty ?e) (Gsap.createOptimizedScrollTrigger ?e ?f ?t ?tp)] =>
      destruct (trigger_group_run e f t tp) as [t1 [E1 [T1 [L1 F1]]]]
  end.
  destruct (trigger_groups_forEach Gsap.imageConfigs (Gsap.animateImageConfig d)
              (fun config => querySelectorAll d (Gsap.ic_selector config)))
    as [t2 [E2 [T2 [L2 F2]]]].
  { intros x. unfold Gsap.animateImageConfig. apply trigger_group_run. }
  destruct (trigger_groups_forEach Gsap.imageWrapperSelectors (Gsap.animateImageWrapper d)
              (querySelectorAll d))
    as [t3 [E3 [T3 [L3 F3]]]].
  { intros x. unfold Gsap.animateImageWrapper. apply trigger_group_run. }
  exists (t1 ++ t2 ++ t3). split; [|split; [|split]].
  - intros s. rewrite (bind_ok _ _ _ _ _ _ (E1 s)).
    rewrite (bind_ok _ _ _ _ _ _ (E2 _)). rewrite E3. cbn [o_dom o_trace o_val].
    cbn [concat]. rewrite concat_app, !willChangeAll_app. reflexivity.
  - unfold Gsap.tween_targets in *. rewrite !flat_map_app, T1, T2, T3.
    cbn [List.filter]. rewrite List.filter_app.
    destruct (Gsap.nonempty (querySelectorAll d ".image-wrapper.slider")); reflexivity.
  - rewrite !List.length_app, L1, L2, L3. cbn [List.filter].
    rewrite List.filter_app.
    destruct (Gsap.nonempty (querySelectorAll d ".image-wrapper.slider"));
      cbn [List.length]; rewrite List.length_app; reflexivity.
  - repeat (apply Forall_app; split); assumption.
Qed.

(** X15. [initOptimizedImageAnimations] cannot throw. It registers one
    scroll-triggered tween for each of the twelve image selectors that
    matches something, on exactly the matches of that selector, in the order
    of the source, and nothing else; and it leaves the page with the
    will-change hint on every matched element and no other change. *)
Theorem image_groups_one_tween_each (s : dom) :
  let r := Gsap.initOptimizedImageAnimations d s in
  o_val r = inr tt /\
  Gsap.tween_targets (o_trace r) = List.filter Gsap.nonempty (Gsap.imageGroups d) /\
  List.length (o_trace r) = List.length (List.filter Gsap.nonempty (Gsap.imageGroups d)) /\
  o_dom r = Gsap.willChangeAll "transform, opacity" (concat (Gsap.imageGroups d)) s.
Proof.
  cbv zeta. destruct images_run as [tr [E [T [L _]]]]. rewrite E.
  cbn [o_dom o_trace o_val]. auto.
Qed.

End ImageGroups.

(** On the sample page two of the twelve selectors match. *)
Example image_groups_on_page :
  Gsap.tween_targets
    (o_trace (Gsap.initOptimizedImageAnimations Sample.full_document empty_dom))
  = [[30%nat; 31%nat]; [32%nat]].
Proof. vm_compute. reflexivity. Qed.

(** ** The footer timeline *)

Section FooterTimeline.

Variable d : document.

Lemma forallb_false_witness {A : Type} (f : A -> bool) (l : list A) :
  forallb f l = false -> exists x, In x l /\ f x = false.
Proof.
  induction l as [|a l IH]; [discriminate|]. cbn [forallb].
  destruct (f a) eqn:Ha; cbn [andb].
  - intros H. destruct (IH H) as [x [Hin Hx]]. exists x. split; [now right | exact Hx].
  - intros _. exists a. split; [now left | exact Ha].
Qed.

Lemma returns_forEach_in {B : Type} (l : list B) (f : B -> M unit) :
  (forall x, In x l -> returns (f x)) -> returns (forEach l f).
Proof.
  induction l as [|a l IH]; intros Hf; cbn [forEach].
  - apply returns_ret.
  - apply returns_bind; [apply Hf; now left | intros _; apply IH].
    intros x Hx. apply Hf. now right.
Qed.

Lemma eachFooterElement_returns (el : jsval) :
  el <> VNodeList [] ->
  returns (Gsap.eachFooterElement (fun l => Gsap.addWillChange l "transform, opacity") el).
Proof.
  intros Hne s. destruct el as [|n|[|x l]]; cbn [Gsap.eachFooterElement].
  - reflexivity.
  - change [VElement n] with (Gsap.elements_of [n]).
    now rewrite addWillChange_elements.
  - congruence.
  - change (map VElement (x :: l)) with (Gsap.elements_of (x :: l)).
    now rewrite addWillChange_elements.
Qed.

Lemma footerElements_complete (footer : node) :
  Gsap.footerComplete d footer = true ->
  forall x, In x (Gsap.footerElements d footer) -> x <> VNodeList [].
Proof.
  unfold Gsap.footerComplete. rewrite forallb_forall. intros Hall x Hin.
  assert (Hq : forall sel, In sel Gsap.footerListRegions ->
                           Gsap.queryAll d footer sel <> VNodeList []).
  { intros sel Hsel. specialize (Hall sel Hsel). unfold Gsap.queryAll.
    destruct (querySelectorAllIn d footer sel); [discriminate | congruence]. }
  assert (Ho : forall sel, Gsap.queryOne d footer sel <> VNodeList []).
  { intros sel. unfold Gsap.queryOne. destruct (querySelectorIn d footer sel); congruence. }
  unfold Gsap.footerElements in Hin. cbn [In] in Hin.
  unfold Gsap.footerListRegions in Hq. cbn [In] in Hq.
  repeat (destruct Hin as [<-|Hin]; [first [apply Ho | apply Hq; auto 10]|]).
  contradiction.
Qed.

(** X16. When the page has a footer, [initOptimizedFooterAnimation] returns
    exactly when each of the five footer regions it looks up with
    [querySelectorAll] matches something. It then creates one timeline,
    triggered by the footer, with ten steps in the order of the source; a
    region looked up with [querySelector] that is missing still gets its
    step, with [null] for a target. *)
Theorem footer_timeline_iff_regions (footer : node) (s : dom) :
  querySelector d ".footer" = Some footer ->
  let r := Gsap.initOptimizedFooterAnimation d s in
  returned r = Gsap.footerComplete d footer /\
  (Gsap.footerComplete d footer = true ->
   o_trace r
   = GsapTimeline {| st_trigger := TriggerNode footer; st_start := "top 80%";
                     st_toggleActions := None; st_once := true |} ::
     map (fun step => TimelineFrom (fst step) (fst (snd step)) (snd (snd step)))
       (combine (Gsap.footerElements d footer) Gsap.footerSteps) /\
   List.length (o_trace r) = 11%nat).
Proof.
  intros Hf. cbv zeta. destruct (Gsap.footerComplete d footer) eqn:Hc.
  - assert (E : Gsap.initOptimizedFooterAnimation d s
                = Outcome
                    (o_dom (forEach (Gsap.footerElements d footer)
                              (Gsap.eachFooterElement
                                 (fun l => Gsap.addWillChange l "transform, opacity")) s))
                    (GsapTimeline {| st_trigger := TriggerNode footer;
                                     st_start := "top 80%"; st_toggleActions := None;
                                     st_once := true |} ::
                     map (fun step => TimelineFrom (fst step) (fst (snd step))
                                        (snd (snd step)))
                       (combine (Gsap.footerElements d footer) Gsap.footerSteps))
                    (inr tt)).
    { unfold Gsap.initOptimizedFooterAnimation. rewrite Hf.
      rewrite bind_unit_returns.
      - destruct (quiet_forEach Gsap.willChangeError (Gsap.footerElements d footer) _
                    quiet_eachFooterElement s) as [Ht _].
        rewrite Ht. cbn [app].
        rewrite (bind_ok _ _ _ _ [_] tt) by reflexivity.
        rewrite forEach_emit. reflexivity.
      - apply returns_forEach_in. intros x Hx.
        apply eachFooterElement_returns. now apply (footerElements_complete footer). }
    rewrite E. cbn [o_trace o_val returned]. split; [reflexivity|].
    intros _. split; reflexivity.
  - split; [|discriminate].
    destruct (forallb_false_witness _ _ Hc) as [sel [Hin Hn]].
    assert (Hnone : querySelectorAllIn d footer sel = []).
    { destruct (querySelectorAllIn d footer sel); [reflexivity | discriminate]. }
    destruct (footer_empty_region_throws d footer sel s Hf Hin Hnone) as [Hv _].
    unfold returned. now rewrite Hv.
Qed.

End FooterTimeline.

Lemma footer_timeline_iff_regions_witness :
  querySelector Sample.full_document ".footer" = Some 1%nat /\
  returned (Gsap.initOptimizedFooterAnimation Sample.full_document empty_dom) = true.
Proof.
  split; [reflexivity|].
  apply (footer_timeline_iff_regions Sample.full_document 1%nat empty_dom).
  reflexivity.
Defined.

(** ** Stats blocks *)

Section StatsBlocks.

Variable d : document.

Lemma animateStats_run (container : node) :
  exists tr,
    (forall s, Gsap.animateStats d container s
               = Outcome (Gsap.willChangeAll "transform, opacity"
                            (querySelectorAllIn d container ".line" ++
                             querySelectorAllIn d container ".stats") s) tr (inr tt)) /\
    Gsap.timeline_triggers tr
    = (if Gsap.statsActive d container then [TriggerNode container] else []) /\
    Forall Gsap.animation_call tr.
Proof.
  unfold Gsap.animateStats, Gsap.statsActive.
  destruct (querySelectorAllIn d container ".line") as [|l0 ls] eqn:El;
    destruct (querySelectorAllIn d container ".stats") as [|t0 ts] eqn:Es;
    cbn [Gsap.nonempty negb andb orb when].
  - exists []. repeat split; constructor.
  - eexists. split; [|split].
    + intros s. rewrite (bind_ok _ _ _ _ _ _ (addWillChange_elements _ _ _)).
      rewrite (bind_ok _ _ _ _ [_] tt) by reflexivity.
      cbn [bind ret emit o_val o_dom o_trace app]. reflexivity.
    + reflexivity.
    + repeat constructor.
  - eexists. split; [|split].
    + intros s. rewrite (bind_ok _ _ _ _ _ _ (addWillChange_elements _ _ _)).
      rewrite (bind_ok _ _ _ _ [_] tt) by reflexivity.
      cbn [bind ret emit o_val o_dom o_trace app]. reflexivity.
    + reflexivity.
    + repeat constructor.
  - eexists. split; [|split].
    + intros s. rewrite (bind_ok _ _ _ _ _ _ (addWillChange_elements _ _ _)).
      rewrite (bind_ok _ _ _ _ [_] tt) by reflexivity.
      cbn [bind ret emit o_val o_dom o_trace app]. reflexivity.
    + reflexivity.
    + repeat constructor.
Qed.

Lemma stats_forEach (l : list node) :
  exists tr,
    (forall s, forEach l (Gsap.animateStats d) s
               = Outcome (Gsap.willChangeAll "transform, opacity"
                            (concat (map (fun c => querySelectorAllIn d c ".line" ++
                                                   querySelectorAllIn d c ".stats") l)) s)
                   tr (inr tt)) /\
    Gsap.timeline_triggers tr = map TriggerNode (List.filter (Gsap.statsActive d) l) /\
    Forall Gsap.animation_call tr.
Proof.
  induction l as [|c l IH].
  - exists []. repeat split; constructor.
  - destruct (animateStats_run c) as [t1 [E1 [T1 F1]]].
    destruct IH as [t2 [E2 [T2 F2]]].
    exists (t1 ++ t2). split; [|split].
    + intros s. cbn [forEach map concat]. rewrite (bind_ok _ _ _ _ _ _ (E1 s)).
      rewrite E2. cbn [o_dom o_trace o_val]. f_equal. symmetry.
      apply willChangeAll_app.
    + unfold Gsap.timeline_triggers in *. rewrite flat_map_app, T1, T2.
      cbn [List.filter]. destruct (Gsap.statsActive d c); reflexivity.
    + apply Forall_app. now split.
Qed.

(** X17. [initOptimizedStatsAnimation] cannot throw. It creates one
    timeline for each stats block that holds a line or a stat, triggered by
    that block, in document order, and none for a block that holds neither;
    the will-change hint goes to the lines and stats of the blocks and
    nothing else changes. *)
Theorem stats_one_timeline_each (s : dom) :
  let r := Gsap.initOptimizedStatsAnimation d s in
  let containers := querySelectorAll d ".location.stats.div" in
  o_val r = inr tt /\
  Gsap.timeline_triggers (o_trace r)
  = map TriggerNode (List.filter (Gsap.statsActive d) containers) /\
  o_dom r
  = Gsap.willChangeAll "transform, opacity"
      (concat (map (fun c => querySelectorAllIn d c ".line" ++
                             querySelectorAllIn d c ".stats") containers)) s.
Proof.
  cbv zeta. unfold Gsap.initOptimizedStatsAnimation.
  destruct (stats_forEach (querySelectorAll d ".location.stats.div")) as [tr [E [T _]]].
  rewrite E. cbn [o_dom o_trace o_val]. auto.
Qed.

End StatsBlocks.

(** Two stats blocks, the second one empty. *)
Example stats_on_page :
  Gsap.timeline_triggers
    (o_trace (Gsap.initOptimizedStatsAnimation Sample.full_document empty_dom))
  = [TriggerNode 3%nat].
Proof. vm_compute. reflexivity. Qed.

(** ** The tokenizer is missing *)

Section TokenizerMissing.

Variables (lib : Gsap.libraries) (d : document).

Lemma animateHeadings_unavailable (hs : list node) :
  forall (s : dom) (el : node),
    Gsap.splitType lib = None ->
    In el hs ->
    Gsap.splitDone s el = false ->
    Gsap.animateHeadings lib hs s
    = Outcome s [] (inl (ReferenceError "SplitType is not defined")).
Proof.
  induction hs as [|a hs IH]; intros s el Hl Hin Hd; [contradiction|].
  unfold Gsap.animateHeadings in *. cbn [forEach].
  destruct (Gsap.splitDone s a) eqn:Ha.
  - rewrite (bind_ok _ _ _ _ _ _ (animateHeading_done lib a s Ha)).
    destruct Hin as [E|Hin]; [subst a; congruence|].
    now rewrite (IH s el Hl Hin Hd).
  - now rewrite (bind_throw _ _ _ _ _ _ (animateHeading_missing lib a s Hl Ha)).
Qed.

(** X18. The initialisation tests for [gsap] and [ScrollTrigger] and not
    for [SplitType]. With [SplitType] undefined and a heading on the page
    that is not marked yet, the run ends in a ReferenceError at the first
    such heading: the image groups have their tweens and their hints by
    then, and no text, footer or stats animation is set up. *)
Theorem missing_tokenizer_throws (s : dom) (el : node) :
  Gsap.gsap_defined lib = true ->
  Gsap.scrollTrigger_defined lib = true ->
  Gsap.splitType lib = None ->
  In el (Gsap.selectAll d Gsap.headingSelectors) ->
  Gsap.splitDone s el = false ->
  let r := Gsap.initGSAPOptimizations lib d s in
  o_val r = inl (ReferenceError "SplitType is not defined") /\
  o_dom r = Gsap.willChangeAll "transform, opacity" (concat (Gsap.imageGroups d)) s /\
  exists tr,
    o_trace r
    = GsapRegisterPlugin :: GsapDefaults [("ease", "power2.out"); ("duration", "0.8")] :: tr /\
    Gsap.tween_targets tr = List.filter Gsap.nonempty (Gsap.imageGroups d) /\
    List.length tr = List.length (List.filter Gsap.nonempty (Gsap.imageGroups d)).
Proof.
  intros Hg Hs Hl Hin Hd. cbv zeta. unfold Gsap.initGSAPOptimizations.
  rewrite Hg, Hs. cbn [negb orb].
  destruct (images_run d) as [tr [E [T [L _]]]].
  rewrite (bind_ok _ _ s s [GsapRegisterPlugin] tt) by reflexivity.
  rewrite (bind_ok _ _ s s [GsapDefaults [("ease", "power2.out"); ("duration", "0.8")]] tt)
    by reflexivity.
  rewrite (bind_ok _ _ _ _ _ _ (E s)).
  set (s1 := Gsap.willChangeAll "transform, opacity" (concat (Gsap.imageGroups d)) s).
  assert (Hd1 : Gsap.splitDone s1 el = false).
  { rewrite <- Hd. apply splitDone_attrs. apply willChangeAll_attrs. }
  assert (Ht : Gsap.initOptimizedTextAnimations lib d s1
               = Outcome s1 [] (inl (ReferenceError "SplitType is not defined"))).
  { rewrite text_run.
    apply bind_throw. now apply (animateHeadings_unavailable _ s1 el). }
  rewrite (bind_throw _ _ _ _ _ _ Ht). cbn [o_dom o_trace o_val app].
  split; [reflexivity|]. split; [reflexivity|].
  exists tr. rewrite app_nil_r. auto.
Qed.

End TokenizerMissing.

Lemma missing_tokenizer_throws_witness :
  Gsap.gsap_defined Sample.no_splitType = true /\
  Gsap.scrollTrigger_defined Sample.no_splitType = true /\
  Gsap.splitType Sample.no_splitType = None /\
  In 5%nat (Gsap.selectAll Sample.full_document Gsap.headingSelectors) /\
  Gsap.splitDone empty_dom 5%nat = false /\
  o_val (Gsap.initGSAPOptimizations Sample.no_splitType Sample.full_document empty_dom)
  = inl (ReferenceError "SplitType is not defined").
Proof.
  split; [reflexivity|]. split; [reflexivity|]. split; [reflexivity|].
  split; [now left|]. split; [reflexivity|].
  apply (missing_tokenizer_throws Sample.no_splitType Sample.full_document empty_dom 5%nat);
    try reflexivity.
  now left.
Defined.

(** ** What the orchestrator does and leaves alone *)

Section Orchestrator.

Variables (lib : Gsap.libraries) (d : document).

Lemma gsap_frame_refl (s : dom) : Gsap.gsap_frame s s.
Proof. unfold Gsap.gsap_frame. repeat split; reflexivity. Qed.

Lemma gsap_frame_trans (a b c : dom) :
  Gsap.gsap_frame a b -> Gsap.gsap_frame b c -> Gsap.gsap_frame a c.
Proof.
  unfold Gsap.gsap_frame.
  intros [A1 [A2 [A3 [A4 [A5 [A6 [A7 A8]]]]]]] [B1 [B2 [B3 [B4 [B5 [B6 [B7 B8]]]]]]].
  repeat split; try congruence.
  - intros n k Hk. rewrite B7, A7; auto.
  - intros n k Hk. rewrite B8, A8; auto.
Qed.

Lemma gsap_frame_hint (n : node) (v : cssval) (s : dom) :
  Gsap.gsap_frame s (setStyle n "will-change" v s).
Proof.
  unfold Gsap.gsap_frame. repeat split.
  intros n' k Hk. apply styles_setStyle_ne. intros E. inversion E. congruence.
Qed.

Lemma gsap_frame_mark (n : node) (v : string) (s : dom) :
  Gsap.gsap_frame s (setAttribute n "data-split-done" v s).
Proof.
  unfold Gsap.gsap_frame, setAttribute, with_attrs. cbn. repeat split.
  intros n' k Hk. apply lookup_insert_ne. intros E. inversion E. congruence.
Qed.

Lemma gspec_bind {A B : Type} (m : M A) (k : A -> M B) :
  (run_spec Gsap.animation_call Gsap.gsap_frame) m -> (forall a, (run_spec Gsap.animation_call Gsap.gsap_frame) (k a)) -> (run_spec Gsap.animation_call Gsap.gsap_frame) (bind m k).
Proof. apply run_spec_bind. exact gsap_frame_trans. Qed.

Lemma gspec_forEach {B : Type} (l : list B) (f : B -> M unit) :
  (forall x, (run_spec Gsap.animation_call Gsap.gsap_frame) (f x)) -> (run_spec Gsap.animation_call Gsap.gsap_frame) (forEach l f).
Proof. apply run_spec_forEach; [exact gsap_frame_refl | exact gsap_frame_trans]. Qed.

Lemma gspec_ret {A : Type} (a : A) : (run_spec Gsap.animation_call Gsap.gsap_frame) (ret a).
Proof. apply run_spec_ret, gsap_frame_refl. Qed.

Lemma gspec_emit (e : effect) : Gsap.animation_call e -> (run_spec Gsap.animation_call Gsap.gsap_frame) (emit e).
Proof. apply run_spec_emit, gsap_frame_refl. Qed.

Lemma gspec_when (c : bool) (m : M unit) : (run_spec Gsap.animation_call Gsap.gsap_frame) m -> (run_spec Gsap.animation_call Gsap.gsap_frame) (when c m).
Proof. apply run_spec_when, gsap_frame_refl. Qed.

Lemma gspec_addWillChange (l : list jsval) (p : string) : (run_spec Gsap.animation_call Gsap.gsap_frame) (Gsap.addWillChange l p).
Proof.
  unfold Gsap.addWillChange. apply gspec_forEach. intros [|n|nl]; cbn [Gsap.setWillChange].
  - apply gspec_ret.
  - apply run_spec_modify. intros s. apply gsap_frame_hint.
  - apply run_spec_throw, gsap_frame_refl.
Qed.

Lemma gspec_trigger (elems : list node) (f t : vars) (tp : Gsap.triggerProps) :
  (run_spec Gsap.animation_call Gsap.gsap_frame) (Gsap.createOptimizedScrollTrigger elems f t tp).
Proof.
  destruct elems as [|first rest]; [apply gspec_ret|].
  unfold Gsap.createOptimizedScrollTrigger.
  apply gspec_bind; [apply gspec_addWillChange | intros _].
  apply gspec_emit. exact I.
Qed.

Lemma gspec_images : (run_spec Gsap.animation_call Gsap.gsap_frame) (Gsap.initOptimizedImageAnimations d).
Proof.
  unfold Gsap.initOptimizedImageAnimations.
  apply gspec_bind; [apply gspec_when, gspec_trigger | intros _].
  apply gspec_bind; [|intros _]; apply gspec_forEach; intros x.
  - unfold Gsap.animateImageConfig. apply gspec_when, gspec_trigger.
  - unfold Gsap.animateImageWrapper. apply gspec_when, gspec_trigger.
Qed.

Lemma gspec_text : (run_spec Gsap.animation_call Gsap.gsap_frame) (Gsap.initOptimizedTextAnimations lib d).
Proof.
  unfold Gsap.initOptimizedTextAnimations. apply gspec_bind.
  - unfold Gsap.animateHeadings. apply gspec_forEach. intros el.
    unfold Gsap.animateHeading.
    apply gspec_bind; [apply run_spec_gets, gsap_frame_refl | intros done].
    destruct done; [apply gspec_ret|].
    apply gspec_bind.
    + unfold Gsap.newSplitType. destruct (Gsap.splitType lib).
      * apply gspec_bind; [apply gspec_emit; exact I | intros _; apply gspec_ret].
      * apply run_spec_throw, gsap_frame_refl.
    + intros words. apply gspec_bind.
      * apply run_spec_modify. intros s. apply gsap_frame_mark.
      * intros _. apply gspec_bind; [apply gspec_addWillChange | intros _].
        apply gspec_emit. exact I.
  - intros _. apply gspec_bind; [|intros _].
    + unfold Gsap.animateFadeElements. apply gspec_when, gspec_trigger.
    + unfold Gsap.animateLogos. apply gspec_when, gspec_trigger.
Qed.

Lemma gspec_footer : (run_spec Gsap.animation_call Gsap.gsap_frame) (Gsap.initOptimizedFooterAnimation d).
Proof.
  unfold Gsap.initOptimizedFooterAnimation.
  destruct (querySelector d ".footer") as [footer|]; [|apply gspec_ret].
  apply gspec_bind.
  - apply gspec_forEach. intros [|n|[|x l]]; cbn [Gsap.eachFooterElement];
      first [apply gspec_ret | apply gspec_addWillChange].
  - intros _. apply gspec_bind; [apply gspec_emit; exact I | intros _].
    apply gspec_forEach. intros step. apply gspec_emit. exact I.
Qed.

Lemma gspec_stats : (run_spec Gsap.animation_call Gsap.gsap_frame) (Gsap.initOptimizedStatsAnimation d).
Proof.
  unfold Gsap.initOptimizedStatsAnimation. apply gspec_forEach. intros c.
  unfold Gsap.animateStats.
  destruct (negb (Gsap.nonempty (querySelectorAllIn d c ".line")) &&
            negb (Gsap.nonempty (querySelectorAllIn d c ".stats"))); [apply gspec_ret|].
  apply gspec_bind; [apply gspec_addWillChange | intros _].
  apply gspec_bind; [apply gspec_emit; exact I | intros _].
  apply gspec_bind; [|intros _]; apply gspec_when, gspec_emit; exact I.
Qed.

Lemma bind_then_last {A : Type} (e : effect) (m : M A) (k : A -> M unit) :
  (run_spec Gsap.animation_call Gsap.gsap_frame) m ->
  (forall a s, exists inner,
      o_trace (k a s) = inner ++ (if returned (k a s) then [e] else []) /\
      Forall Gsap.animation_call inner /\ Gsap.gsap_frame s (o_dom (k a s))) ->
  forall s, exists inner,
    o_trace (bind m k s) = inner ++ (if returned (bind m k s) then [e] else []) /\
    Forall Gsap.animation_call inner /\ Gsap.gsap_frame s (o_dom (bind m k s)).
Proof.
  intros Hm Hk s. destruct (Hm s) as [Pm Rm]. unfold bind, returned.
  destruct (o_val (m s)) as [x|a] eqn:Hv; cbn [o_trace o_dom o_val].
  - exists (o_trace (m s)). rewrite app_nil_r. auto.
  - destruct (Hk a (o_dom (m s))) as [inner [E [Pk Rk]]].
    exists (o_trace (m s) ++ inner). unfold returned in E. rewrite E.
    split; [apply app_assoc|]. split.
    + apply Forall_app. now split.
    + eapply gsap_frame_trans; eassumption.
Qed.

(** X19. With [gsap] and [ScrollTrigger] loaded, a run of the
    initialisation registers the plugin, sets the defaults, makes tweens,
    timelines, timeline steps and tokenizations and nothing else, and calls
    [ScrollTrigger.refresh] last, exactly when it returns; a run that throws
    never refreshes. Whatever happens, the page differs from the page
    before only in inline [will-change] hints and [data-split-done]
    markers. *)
Theorem orchestrator_structure (s : dom) :
  Gsap.gsap_defined lib = true ->
  Gsap.scrollTrigger_defined lib = true ->
  let r := Gsap.initGSAPOptimizations lib d s in
  Gsap.gsap_frame s (o_dom r) /\
  exists inner,
    o_trace r
    = GsapRegisterPlugin :: GsapDefaults [("ease", "power2.out"); ("duration", "0.8")] ::
      inner ++ (if returned r then [ScrollTriggerRefresh] else []) /\
    Forall Gsap.animation_call inner.
Proof.
  intros Hg Hs. cbv zeta. unfold Gsap.initGSAPOptimizations. rewrite Hg, Hs.
  cbn [negb orb].
  rewrite (bind_ok _ _ s s [GsapRegisterPlugin] tt) by reflexivity.
  rewrite (bind_ok _ _ s s [GsapDefaults [("ease", "power2.out"); ("duration", "0.8")]] tt)
    by reflexivity.
  cbn [o_dom o_trace o_val app returned].
  match goal with
  | |- context [o_trace (?m s)] =>
      assert (H : exists inner,
                 o_trace (m s) = inner ++ (if returned (m s) then [ScrollTriggerRefresh]
                                           else []) /\
                 Forall Gsap.animation_call inner /\ Gsap.gsap_frame s (o_dom (m s)))
  end.
  { revert s.
    apply bind_then_last; [apply gspec_images | intros _].
    apply bind_then_last; [apply gspec_text | intros _].
    apply bind_then_last; [apply gspec_footer | intros _].
    apply bind_then_last; [apply gspec_stats | intros _].
    intros s. exists []. cbn. split; [reflexivity|]. split; [constructor|].
    apply gsap_frame_refl. }
  destruct H as [inner [E [Pi Rf]]]. split; [exact Rf|].
  exists inner. split; [|exact Pi]. now rewrite E.
Qed.

End Orchestrator.

Lemma orchestrator_structure_witness :
  Gsap.gsap_defined Sample.all_libraries = true /\
  Gsap.scrollTrigger_defined Sample.all_libraries = true /\
  Gsap.gsap_frame empty_dom
    (o_dom (Gsap.initGSAPOptimizations Sample.all_libraries Sample.full_document empty_dom)).
Proof.
  split; [reflexivity|]. split; [reflexivity|].
  apply (orchestrator_structure Sample.all_libraries Sample.full_document empty_dom);
    reflexivity.
Defined.

(** ** Pressed state *)

(** X20. The pressed state does not stick: on an element that does not carry
    [touch-pressed], a touch-start followed by the touch-end (or the
    touch-cancel, which has the same handler body) leaves the class list of
    the page as it was; in between the element carries the class. *)
Theorem pressed_state_round_trip (l : Touch.layout) (element : node) (x y : Q) (s : dom) :
  (element, "touch-pressed") ∉ classes s ->
  let s1 := snd (fst (Touch.feedback_touchstart l element x y s)) in
  (element, "touch-pressed") ∈ classes s1 /\
  classes (Touch.feedback_touchend element s1) = classes s.
Proof.
  intros Hn. cbv zeta. unfold Touch.feedback_touchstart.
  destruct (Touch.createRippleEffect l element x y s) as [[ripple s1] tr] eqn:E.
  assert (Hc : classes s1 = classes s).
  { unfold Touch.createRippleEffect, createElement in E.
    inversion E as [[Hr Hs Ht]]. clear E Hr Ht. clear Hs.
    unfold appendChild.
    match goal with
    | |- classes (with_tree _ _ (match ?o with Some q => _ | None => _ end)) = _ =>
        destruct o
    end;
      destruct (String.eqb (Touch.computedPosition l element) "static"); reflexivity. }
  cbn [fst snd]. unfold Touch.feedback_touchend, classList_add, classList_remove,
    with_classes. cbn [classes]. rewrite Hc. split.
  - apply elem_of_union_l, elem_of_singleton_2. reflexivity.
  - apply leibniz_equiv. intros c.
    rewrite elem_of_difference, elem_of_union, elem_of_singleton. split.
    + intros [[->|H] Hne]; [contradiction | exact H].
    + intros H. split; [now right|]. intros ->. contradiction.
Qed.

Lemma pressed_state_round_trip_witness :
  ((7%nat, "touch-pressed") ∉ classes Sample.page_dom) /\
  classes (Touch.feedback_touchend 7%nat
             (snd (fst (Touch.feedback_touchstart Sample.page_layout 7%nat 50%Q 30%Q
                          Sample.page_dom)))) = classes Sample.page_dom.
Proof.
  assert (H : (7%nat, "touch-pressed") ∉ classes Sample.page_dom).
  { apply (proj1 (bool_decide_eq_false ((7%nat, "touch-pressed") ∈ classes Sample.page_dom))).
    reflexivity. }
  split; [exact H|].
  apply (pressed_state_round_trip Sample.page_layout 7%nat 50%Q 30%Q Sample.page_dom H).
Defined.

(** ** The velocity criterion with a start time *)

Lemma velocity_over_half (a b : Z) :
  0 < b ->
  Js.gt (Js.div a b) Touch.swipeVelocityThreshold = (2 * a >? b).
Proof.
  intros Hb. unfold Js.div. destruct (Z.eqb_spec b 0) as [E|_]; [lia|].
  destruct b as [|p|p]; try lia.
  unfold Js.gt, Touch.swipeVelocityThreshold, Qle_bool, Qdiv, Qmult, Qinv, inject_Z.
  cbn [Qnum Qden]. rewrite Pos.mul_1_l.
  destruct (Z.leb_spec (a * 1 * 10) (5 * Z.pos p)); destruct (Z.gtb_spec (2 * a) (Z.pos p));
    cbn [negb]; try reflexivity; lia.
Qed.

(** X21. On a slider whose [_touchStartTime] property holds a non-zero time
    before the touch-end (no handler of this script assigns it; another
    script may), a gesture that is dragging and not vertical navigates iff
    the displacement exceeds 50px or twice the displacement exceeds the
    elapsed milliseconds, that is, iff distance or velocity pass their
    thresholds. A stored time of [0] counts as unset. *)
Theorem slider_navigate_with_start_time (r : Touch.slider_refs) (s : dom)
    (v : Touch.slider_vars) (x t0 now1 now2 : Z) :
  props s !! (Touch.slider r, "_touchStartTime") = Some t0 ->
  t0 <> 0 ->
  t0 < now1 ->
  Touch.slider_navigate r s v x now1 now2
  = if (Z.abs (x - Touch.startX v) >? 50) || (2 * Z.abs (x - Touch.startX v) >? now1 - t0)
    then Touch.arrow_clicks r (x - Touch.startX v) else [].
Proof.
  intros Hp Hz Hlt. unfold Touch.slider_navigate, Touch.timeDiff, Touch.swipeThreshold.
  rewrite Hp. unfold Js.or_default, Js.truthy.
  destruct (Z.eqb_spec t0 0) as [E|_]; [contradiction|]. cbn [negb].
  rewrite velocity_over_half by lia. reflexivity.
Qed.

Lemma slider_navigate_with_start_time_witness :
  props Sample.timed_dom
    !! (Touch.slider Sample.slider3, "_touchStartTime") = Some 1000 /\
  1000 <> 0 /\ 1000 < 1200 /\
  Touch.slider_navigate Sample.slider3
    Sample.timed_dom
    {| Touch.startX := 100; Touch.startY := 50; Touch.currentX := 120;
       Touch.isDragging := true; Touch.isVerticalScroll := false |} 140 1200 1200
  = [].
Proof.
  split; [reflexivity|]. split; [lia|]. split; [lia|].
  rewrite (slider_navigate_with_start_time Sample.slider3 _ _ 140 1000 1200 1200);
    [reflexivity | reflexivity | lia | lia].
Defined.

Lemma will_change_set_then_auto_witness :
  In 30%nat [30%nat; 31%nat] /\
  styles (o_dom (Gsap.onComplete [30%nat; 31%nat]
                   (o_dom (Gsap.createOptimizedScrollTrigger [30%nat; 31%nat] [] []
                             Gsap.no_triggerProps empty_dom))))
    !! (30%nat, "will-change") = Some (CssText "auto").
Proof.
  split; [now left|].
  apply (will_change_set_then_auto [30%nat; 31%nat] [] [] Gsap.no_triggerProps empty_dom).
  now left.
Defined.

Lemma scroll_updates_bounded_witness :
  Touch.ticking (Touch.scroll_run Sample.page_document (Touch.scroll_initial 0 empty_dom)
                   [Touch.Scroll 120; Touch.AnimationFrame]) = false /\
  Touch.scroll_step Sample.page_document
    (Touch.scroll_run Sample.page_document (Touch.scroll_initial 0 empty_dom)
       [Touch.Scroll 120; Touch.AnimationFrame]) Touch.AnimationFrame
  = Touch.scroll_run Sample.page_document (Touch.scroll_initial 0 empty_dom)
      [Touch.Scroll 120; Touch.AnimationFrame].
Proof.
  split; [reflexivity|].
  apply (scroll_updates_bounded Sample.page_document 0 empty_dom
           [Touch.Scroll 120; Touch.AnimationFrame]).
  reflexivity.
Defined.
